(** * Coin Collector: server-authoritative simulation and client smoothing

    A shallow embedding of [server.py] (entity model, collision and scoring
    pass, game loop tick, lobby handling) and of the smoothing step of
    [client.py], followed by the properties of the design document that
    concern them.

    Conventions of the embedding.
    - Python [dict]s whose iteration order matters ([GameServer.players],
      [GameServer.coins]) are association lists in insertion order with the
      three dictionary operations the code uses.
    - Coordinates on the server are integers: [random.randint] creates them
      and integer intents move them; the only floats the server introduces
      are the clamping bounds [15.0], [585.0], [385.0] and the collision
      threshold [25.0], all integral, so arithmetic on [Z] is exact as long
      as an intent times the speed fits a double ([intent_fits]).
    - A send that fails during a broadcast deletes the player it was for;
      which sends fail is an input of the operation that broadcasts.
    - Random draws and the wall clock are inputs of the operations that
      consume them.
    - The client's display position is a binary64 float, as in Python. *)

From Stdlib Require Import ZArith List String Bool Lia QArith Sorted.
From Stdlib Require Import Reals Lra Floats.
From Stdlib Require Uint63.
Import ListNotations.

#[local] Open Scope string_scope.
#[local] Open Scope Z_scope.

(** ** Game constants ([server.py], lines 9-18) *)

Definition SCREEN_WIDTH : Z := 600.
Definition SCREEN_HEIGHT : Z := 400.
Definition PLAYER_SIZE : Z := 30.
Definition COIN_SIZE : Z := 20.
Definition PLAYER_SPEED : Z := 5.
Definition COIN_SPAWN_INTERVAL : Q := (5 # 2)%Q.
Definition MIN_COINS : Z := 3.
Definition MAX_COINS : Z := 5.
(** [(PLAYER_SIZE + COIN_SIZE) / 2] is [25.0]; the division is exact. *)
Definition COLLISION_DISTANCE : Z := (PLAYER_SIZE + COIN_SIZE) / 2.
Definition SPRINT_WIN_SCORE : Z := 10.

(** ** Insertion-ordered dictionaries *)

Class EqKey (K : Type) : Type := {
  keyb : K -> K -> bool;
  keyb_eq : forall a b, keyb a b = true <-> a = b
}.

#[export] Instance EqKey_string : EqKey string :=
  {| keyb := String.eqb; keyb_eq := String.eqb_eq |}.

#[export] Instance EqKey_Z : EqKey Z :=
  {| keyb := Z.eqb; keyb_eq := Z.eqb_eq |}.

Section Dict.
Context {K V : Type} `{EqKey K}.

Definition dict : Type := list (K * V).

Definition keys (d : dict) : list K := map fst d.

(** [d.get(k)] *)
Fixpoint dict_get (k : K) (d : dict) : option V :=
  match d with
  | [] => None
  | (k', v) :: rest => if keyb k k' then Some v else dict_get k rest
  end.

(** [k in d] *)
Definition dict_mem (k : K) (d : dict) : bool :=
  match dict_get k d with Some _ => true | None => false end.

(** [d[k] = v]: an existing key keeps its place, a new key goes last. *)
Fixpoint dict_set (k : K) (v : V) (d : dict) : dict :=
  match d with
  | [] => [(k, v)]
  | (k', v') :: rest =>
      if keyb k k' then (k', v) :: rest else (k', v') :: dict_set k v rest
  end.

(** [del d[k]] *)
Fixpoint dict_del (k : K) (d : dict) : dict :=
  match d with
  | [] => []
  | (k', v') :: rest =>
      if keyb k k' then rest else (k', v') :: dict_del k rest
  end.

(** [len(d)] *)
Definition len (d : dict) : Z := Z.of_nat (List.length d).
End Dict.

Arguments dict : clear implicits.

(** ** Entity model *)

#[local] Set Warnings "-register-all".

(** Values that cross the wire ([json.dumps]). *)
Inductive json : Type :=
| JInt (n : Z)
| JStr (s : string)
| JBool (b : bool)
| JList (l : list json)
| JDict (d : list (string * json)).

Module Player.
(** The [websocket] handle is an I/O capability and is left out. *)
Record t : Type := mk {
  id : string;
  name : string;
  x : Z;
  y : Z;
  score : Z;
  color : list Z;
  velocity_x : Z;
  velocity_y : Z
}.

(** [Player.__init__]; [rx], [ry] are the two [random.randint] results.
    [handle_client] always passes a colour, so [random_color] is not
    reached. *)
Definition init (player_id name : string) (color : list Z) (rx ry : Z) : t :=
  mk player_id name rx ry 0 color 0 0.

Definition with_pos (p : t) (nx ny : Z) : t :=
  mk (id p) (name p) nx ny (score p) (color p) (velocity_x p) (velocity_y p).

Definition with_score (p : t) (sc : Z) : t :=
  mk (id p) (name p) (x p) (y p) sc (color p) (velocity_x p) (velocity_y p).

Definition with_velocity (p : t) (dx dy : Z) : t :=
  mk (id p) (name p) (x p) (y p) (score p) (color p) dx dy.

(** [Player.update_position]: the moved player and the "changed" flag.
    Python holds a position as an [int] until it is clamped and as a
    [float] afterwards ([PLAYER_SIZE / 2] is a float); the values are
    integers either way.  Adding the product of an intent and the speed to
    a float position converts the product to a double, which raises
    [OverflowError] when the product is too large for a double (about
    1.8e308): the definition is the method for the intents below that
    ([intent_fits]). *)
Definition update_position (p : t) : t * bool :=
  let old_x := x p in
  let old_y := y p in
  let new_x := x p + velocity_x p * PLAYER_SPEED in
  let new_y := y p + velocity_y p * PLAYER_SPEED in
  let new_x := Z.max (PLAYER_SIZE / 2) (Z.min (SCREEN_WIDTH - PLAYER_SIZE / 2) new_x) in
  let new_y := Z.max (PLAYER_SIZE / 2) (Z.min (SCREEN_HEIGHT - PLAYER_SIZE / 2) new_y) in
  (with_pos p new_x new_y, negb (old_x =? new_x) || negb (old_y =? new_y)).

(** [Player.to_dict] *)
Definition to_dict (p : t) : list (string * json) :=
  [ ("id", JStr (id p));
    ("name", JStr (name p));
    ("x", JInt (x p));
    ("y", JInt (y p));
    ("score", JInt (score p));
    ("color", JList (map JInt (color p))) ].
End Player.

Module Coin.
Record t : Type := mk {
  id : Z;
  x : Z;
  y : Z
}.

(** [Coin.__init__]; [rx], [ry] are the two [random.randint] results. *)
Definition init (coin_id : Z) (rx ry : Z) : t := mk coin_id rx ry.

Definition to_dict (c : t) : list (string * json) :=
  [ ("id", JInt (id c)); ("x", JInt (x c)); ("y", JInt (y c)) ].
End Coin.

(** ** The game server *)

(** [spawn_log] is a ghost field: the ids handed out by [spawn_coin] so far,
    oldest first.  No operation reads it. *)
Record GameServer : Type := mkGameServer {
  players : dict string Player.t;
  coins : dict Z Coin.t;
  next_coin_id : Z;
  game_started : bool;
  game_mode : string;
  winner : option string;
  last_coin_spawn : Q;
  player_count : Z;
  spawn_log : list Z
}.

(** [GameServer.__init__]; [t0] is [time.time()]. *)
Definition init_server (t0 : Q) : GameServer :=
  mkGameServer [] [] 0 false "endless" None t0 0 [].

Definition with_players (s : GameServer) (ps : dict string Player.t) : GameServer :=
  mkGameServer ps (coins s) (next_coin_id s) (game_started s) (game_mode s)
    (winner s) (last_coin_spawn s) (player_count s) (spawn_log s).

Definition with_coins (s : GameServer) (cs : dict Z Coin.t) : GameServer :=
  mkGameServer (players s) cs (next_coin_id s) (game_started s) (game_mode s)
    (winner s) (last_coin_spawn s) (player_count s) (spawn_log s).

Definition with_winner (s : GameServer) (w : option string) : GameServer :=
  mkGameServer (players s) (coins s) (next_coin_id s) (game_started s) (game_mode s)
    w (last_coin_spawn s) (player_count s) (spawn_log s).

Definition with_started (s : GameServer) (b : bool) : GameServer :=
  mkGameServer (players s) (coins s) (next_coin_id s) b (game_mode s)
    (winner s) (last_coin_spawn s) (player_count s) (spawn_log s).

Definition with_mode (s : GameServer) (m : string) : GameServer :=
  mkGameServer (players s) (coins s) (next_coin_id s) (game_started s) m
    (winner s) (last_coin_spawn s) (player_count s) (spawn_log s).

Definition with_last_spawn (s : GameServer) (t : Q) : GameServer :=
  mkGameServer (players s) (coins s) (next_coin_id s) (game_started s) (game_mode s)
    (winner s) t (player_count s) (spawn_log s).

Definition with_player_count (s : GameServer) (n : Z) : GameServer :=
  mkGameServer (players s) (coins s) (next_coin_id s) (game_started s) (game_mode s)
    (winner s) (last_coin_spawn s) n (spawn_log s).

(** *** Connections ([handle_client]) *)

(** The [welcome] message built at lines 123-127. *)
Definition welcome_message (player_id : string) (player : Player.t) : list (string * json) :=
  [ ("type", JStr "welcome");
    ("player_id", JStr player_id);
    ("player_data", JDict (Player.to_dict player)) ].

(** Lines 108-127: name and colour by join order, the new [Player] stored
    under its id, and the welcome message sent to the new connection.  The
    lobby notice that may follow changes no state. *)
Definition handle_client_accept (player_id : string) (rx ry : Z) (s : GameServer)
  : GameServer * list (string * json) :=
  let '(player_name, player_color) :=
    if player_count s =? 0 then ("Alice", [255; 100; 100])
    else ("Bob", [100; 100; 255]) in
  let s := with_player_count s (player_count s + 1) in
  let player := Player.init player_id player_name player_color rx ry in
  let s := with_players s (dict_set player_id player (players s)) in
  (s, welcome_message player_id player).

(** Lines 140-145: the [finally] block run when a connection ends. *)
Definition handle_client_finally (player_id : string) (s : GameServer) : GameServer :=
  if dict_mem player_id (players s) then
    with_player_count (with_players s (dict_del player_id (players s)))
      (player_count s - 1)
  else s.

(** Lines 320-322: [broadcast] drops a player whose send failed. *)
Definition broadcast_drop (player_id : string) (s : GameServer) : GameServer :=
  if dict_mem player_id (players s) then
    with_players s (dict_del player_id (players s))
  else s.

(** [broadcast], lines 305-322, as far as the state goes: [closed] tells
    whose connection raises [ConnectionClosed] on [send]; those players are
    collected in iteration order and then deleted. *)
Definition broadcast (closed : string -> bool) (s : GameServer) : GameServer :=
  match players s with
  | [] => s
  | _ :: _ =>
      let disconnected := filter closed (keys (players s)) in
      fold_left
        (fun s player_id =>
           if dict_mem player_id (players s)
           then with_players s (dict_del player_id (players s)) else s)
        disconnected s
  end.

(** No connection fails. *)
Definition all_open : string -> bool := fun _ => false.

(** *** Coins *)

(** [spawn_coin]; [(rx, ry)] is the position [Coin.__init__] draws. *)
Definition spawn_coin (draw : Z * Z) (s : GameServer) : GameServer :=
  let coin := Coin.init (next_coin_id s) (fst draw) (snd draw) in
  mkGameServer (players s) (dict_set (next_coin_id s) coin (coins s))
    (next_coin_id s + 1) (game_started s) (game_mode s) (winner s)
    (last_coin_spawn s) (player_count s) (spawn_log s ++ [next_coin_id s])%list.

(** *** Lobby and messages *)

(** [start_game]; [draws] has one position per coin of the initial set, so
    its length is the result of [random.randint(MIN_COINS, MAX_COINS)]. *)
Definition start_game (mode : string) (draws : list (Z * Z)) (s : GameServer) : GameServer :=
  let s := with_mode s mode in
  let s := with_started s true in
  let s := with_winner s None in
  fold_left (fun s d => spawn_coin d s) draws s.

(** A decoded client message: [json.loads] failed, or the fields
    [handle_message] reads after its [.get] defaults for [dx] and [dy]. *)
Inductive message : Type :=
| InvalidJSON
| MInput (dx dy : Z)
| MStartGame (mode : option string)
| MOther.

Definition handle_message (player_id : string) (m : message) (draws : list (Z * Z))
  (s : GameServer) : GameServer :=
  match m with
  | MInput dx dy =>
      match dict_get player_id (players s) with
      | Some player =>
          with_players s
            (dict_set player_id (Player.with_velocity player dx dy) (players s))
      | None => s
      end
  | MStartGame mode =>
      if negb (game_started s) && (2 <=? len (players s)) then
        start_game (match mode with Some m => m | None => "endless" end) draws s
      else s
  | InvalidJSON | MOther => s
  end.

(** *** Collision and scoring pass ([check_collisions]) *)

(** Lines 211-215.  The squared distance is an integer, and for a natural
    number [n] the test [n ** 0.5 < 25.0] holds exactly when [n < 625]
    (see [collides_distance]). *)
Definition collides (player : Player.t) (coin : Coin.t) : bool :=
  let dx := Player.x player - Coin.x coin in
  let dy := Player.y player - Coin.y coin in
  dx * dx + dy * dy <? COLLISION_DISTANCE * COLLISION_DISTANCE.

(** The inner loop over [self.players.items()] for one coin.  The state is
    the server together with the local list [coins_to_remove].  A hit
    mutates the player stored under [player_id], records the coin, may set
    the winner, and leaves the loop ([break]). *)
Fixpoint scan_players (coin_id : Z) (coin : Coin.t)
  (todo : list (string * Player.t)) (acc : GameServer * list Z)
  : GameServer * list Z :=
  match todo with
  | [] => acc
  | (player_id, player) :: rest =>
      if collides player coin then
        let '(s, coins_to_remove) := acc in
        let player := Player.with_score player (Player.score player + 1) in
        let s := with_players s (dict_set player_id player (players s)) in
        let coins_to_remove := (coins_to_remove ++ [coin_id])%list in
        let s :=
          if (game_mode s =? "sprint")%string
             && (SPRINT_WIN_SCORE <=? Player.score player)
          then with_winner s (Some player_id) else s in
        (s, coins_to_remove)
      else scan_players coin_id coin rest acc
  end.

(** The outer loop over [self.coins.items()]. *)
Definition scan_coins (todo : list (Z * Coin.t)) (acc : GameServer * list Z)
  : GameServer * list Z :=
  fold_left
    (fun acc kv => scan_players (fst kv) (snd kv) (players (fst acc)) acc)
    todo acc.

(** Lines 233-235. *)
Definition remove_coins (coins_to_remove : list Z) (s : GameServer) : GameServer :=
  fold_left
    (fun s coin_id =>
       if dict_mem coin_id (coins s)
       then with_coins s (dict_del coin_id (coins s)) else s)
    coins_to_remove s.

Definition check_collisions (s : GameServer) : GameServer :=
  let '(s', coins_to_remove) := scan_coins (coins s) (s, []) in
  remove_coins coins_to_remove s'.

(** *** One iteration of [game_loop] *)

(** Lines 249-250. *)
Definition update_players (s : GameServer) : GameServer :=
  with_players s
    (map (fun kv => (fst kv, fst (Player.update_position (snd kv)))) (players s)).

(** Lines 261-269; [draws] holds one position per requested coin, so its
    length is the result of [random.randint(1, 2)]. *)
Definition spawn_phase (current_time : Q) (draws : list (Z * Z)) (s : GameServer)
  : GameServer :=
  if negb (Qle_bool (current_time - last_coin_spawn s) COIN_SPAWN_INTERVAL) then
    let s :=
      if len (coins s) <? MAX_COINS then
        fold_left
          (fun s d => if len (coins s) <? MAX_COINS then spawn_coin d s else s)
          draws s
      else s in
    with_last_spawn s current_time
  else s.

(** Python truth value of [self.winner]: [None] and the empty string are
    false. *)
Definition truthy (w : option string) : bool :=
  match w with
  | Some w => negb (w =? "")%string
  | None => false
  end.

(** Lines 284-288: the reset after the game-over broadcast. *)
Definition reset_game (s : GameServer) : GameServer :=
  let s := with_started s false in
  let s := with_winner s None in
  let s := with_coins s [] in
  with_players s
    (map (fun kv => (fst kv, Player.with_score (snd kv) 0)) (players s)).

(** Lines 275-288.  [self.players[self.winner]] raises [KeyError] when the
    winner is no longer a player; the exception ends the loop ([None]).
    [closed_over] tells whose connection fails while the [game_over] message
    of lines 277-282 is sent; the reset of lines 284-288 follows. *)
Definition game_over_check (closed_over : string -> bool) (s : GameServer)
  : option GameServer :=
  if truthy (winner s) then
    match winner s with
    | Some w =>
        match dict_get w (players s) with
        | Some winner_player => Some (reset_game (broadcast closed_over s))
        | None => None
        end
    | None => Some s
    end
  else Some s.

(** Lines 249-269: the state [broadcast_state] is called on at line 272. *)
Definition game_loop_body (current_time : Q) (draws : list (Z * Z)) (s : GameServer)
  : GameServer :=
  spawn_phase current_time draws (check_collisions (update_players s)).

(** One pass through the [while True] body.  [closed_state] tells whose
    connection fails while the state is broadcast at line 272: those players
    are deleted before the winner test of line 275 runs. *)
Definition game_loop_tick (current_time : Q) (draws : list (Z * Z))
  (closed_state closed_over : string -> bool) (s : GameServer)
  : option GameServer :=
  if negb (game_started s) then Some s
  else
    game_over_check closed_over
      (broadcast closed_state (game_loop_body current_time draws s)).

(** ** Sessions as event sequences *)

(** What can happen to a server.  Each handler runs to completion: the
    interleavings that [await] allows inside a handler are not modelled.
    [SendFailed] is a failed send of a broadcast that ends a handler (the
    lobby notice, the game start, the state sent when a connection ends);
    the two broadcasts inside an iteration of the loop belong to [Tick]. *)
Inductive event : Type :=
| Connect (player_id : string) (rx ry : Z)
| Disconnect (player_id : string)
| SendFailed (player_id : string)
| Receive (player_id : string) (m : message) (draws : list (Z * Z))
| Tick (current_time : Q) (draws : list (Z * Z))
    (closed_state closed_over : string -> bool).

Definition step (s : GameServer) (e : event) : option GameServer :=
  match e with
  | Connect player_id rx ry => Some (fst (handle_client_accept player_id rx ry s))
  | Disconnect player_id => Some (handle_client_finally player_id s)
  | SendFailed player_id => Some (broadcast_drop player_id s)
  | Receive player_id m draws => Some (handle_message player_id m draws s)
  | Tick current_time draws closed_state closed_over =>
      game_loop_tick current_time draws closed_state closed_over s
  end.

Definition in_range (lo hi v : Z) : bool := (lo <=? v) && (v <=? hi).

Definition coin_draw_ok (d : Z * Z) : bool :=
  in_range COIN_SIZE (SCREEN_WIDTH - COIN_SIZE) (fst d)
  && in_range COIN_SIZE (SCREEN_HEIGHT - COIN_SIZE) (snd d).

(** The random inputs of an event lie in the ranges [random.randint] is
    called with. *)
Definition event_ok (e : event) : bool :=
  match e with
  | Connect _ rx ry =>
      in_range PLAYER_SIZE (SCREEN_WIDTH - PLAYER_SIZE) rx
      && in_range PLAYER_SIZE (SCREEN_HEIGHT - PLAYER_SIZE) ry
  | Receive _ (MStartGame _) draws =>
      in_range MIN_COINS MAX_COINS (Z.of_nat (List.length draws))
      && forallb coin_draw_ok draws
  | Tick _ draws _ _ =>
      in_range 1 2 (Z.of_nat (List.length draws)) && forallb coin_draw_ok draws
  | _ => true
  end.

Fixpoint run (s : GameServer) (es : list event) : option GameServer :=
  match es with
  | [] => Some s
  | e :: es' =>
      match step s e with
      | Some s' => run s' es'
      | None => None
      end
  end.

(** States a server started at time [t0] can be in. *)
Inductive reachable (t0 : Q) : GameServer -> Prop :=
| reach_init : reachable t0 (init_server t0)
| reach_step s e s' :
    reachable t0 s -> event_ok e = true -> step s e = Some s' ->
    reachable t0 s'.

(** ** Client-side smoothing ([client.py]) *)


Module InterpolatedEntity.
Record t : Type := mk {
  id : string;
  name : string;
  server_x : float;
  server_y : float;
  display_x : float;
  display_y : float;
  target_x : float;
  target_y : float;
  score : Z;
  color : list Z
}.

(** [InterpolatedEntity.__init__] *)
Definition init (entity_id : string) (x y : float) (name : string) : t :=
  mk entity_id name x y x y x y 0 [255; 255; 255].

(** [update_server_position] *)
Definition update_server_position (e : t) (x y : float) : t :=
  mk (id e) (name e) (server_x e) (server_y e) (display_x e) (display_y e)
    x y (score e) (color e).

End InterpolatedEntity.


(** ** Messages the server sends and receives *)

(** [json.loads] of a client message followed by the [.get] calls of
    [handle_message] (lines 174-192): the [type] entry selects the branch,
    [dx] and [dy] default to 0 and [mode] to no value.  [None] stands for a
    message whose [dx], [dy] or [mode] has another JSON type than the client
    gives it, which the server model does not cover. *)
Definition decode_message (data : list (string * json)) : option message :=
  match dict_get "type" data with
  | Some (JStr "input") =>
      match dict_get "dx" data, dict_get "dy" data with
      | Some (JInt dx), Some (JInt dy) => Some (MInput dx dy)
      | Some (JInt dx), None => Some (MInput dx 0)
      | None, Some (JInt dy) => Some (MInput 0 dy)
      | None, None => Some (MInput 0 0)
      | _, _ => None
      end
  | Some (JStr "start_game") =>
      match dict_get "mode" data with
      | Some (JStr m) => Some (MStartGame (Some m))
      | None => Some (MStartGame None)
      | Some _ => None
      end
  | _ => Some MOther
  end.

(** The [state_update] message of [broadcast_state], lines 295-301. *)
Definition state_update_message (s : GameServer) : list (string * json) :=
  [ ("type", JStr "state_update");
    ("players", JList (map (fun kv => JDict (Player.to_dict (snd kv))) (players s)));
    ("coins", JList (map (fun kv => JDict (Coin.to_dict (snd kv))) (coins s)));
    ("game_started", JBool (game_started s));
    ("mode", JStr (game_mode s)) ].

(** [broadcast_state]: what every connected player is sent; nothing when
    nobody is connected. *)
Definition broadcast_state (s : GameServer) : option (list (string * json)) :=
  match players s with
  | [] => None
  | _ :: _ => Some (state_update_message s)
  end.

(** The [game_over] message of lines 276-282; [None] is the [KeyError] of
    [self.players[self.winner]] or the absence of a winner. *)
Definition game_over_message (s : GameServer) : option (list (string * json)) :=
  match winner s with
  | Some w =>
      match dict_get w (players s) with
      | Some winner_player =>
          Some [ ("type", JStr "game_over");
                 ("winner", JStr w);
                 ("winner_name", JStr (Player.name winner_player));
                 ("scores",
                  JDict (map (fun kv =>
                                (Player.id (snd kv),
                                 JDict [ ("name", JStr (Player.name (snd kv)));
                                         ("score", JInt (Player.score (snd kv))) ]))
                           (players s))) ]
      | None => None
      end
  | None => None
  end.

(** ** The client ([client.py]) *)

(** An integer of a snapshot as the float the smoothing computes with
    (Python converts the [int] when it meets a [float]). *)
Definition float_of_Z (z : Z) : float :=
  if z <? 0 then PrimFloat.opp (PrimFloat.of_uint63 (Uint63.of_Z (- z)))
  else PrimFloat.of_uint63 (Uint63.of_Z z).

(** The fields the client reads from one entry of [players] or from
    [player_data]: [name] after its default. *)
Record player_snapshot : Type := mkSnapshot {
  snap_id : string;
  snap_name : string;
  snap_x : Z;
  snap_y : Z;
  snap_score : Z;
  snap_color : list Z
}.

(** A server message as [handle_server_message] reads it, after the
    defaults of its [.get] calls. *)
Inductive server_message : Type :=
| SWelcome (player_id : string) (simulated_latency : Z) (player_data : player_snapshot)
| SLobbyReady (notice : string)
| SGameStart (mode : string)
| SStateUpdate (snapshots : list player_snapshot) (coin_list : list json)
    (started : bool) (mode : string)
| SGameOver (winner_id : string) (winner_name : string)
| SOther.

Fixpoint decode_ints (l : list json) : option (list Z) :=
  match l with
  | [] => Some []
  | JInt n :: rest =>
      match decode_ints rest with
      | Some ns => Some (n :: ns)
      | None => None
      end
  | _ :: _ => None
  end.

(** The subscripts and [.get] calls on one player entry (lines 177-178,
    185-187 and 140-144).  [None] is the [KeyError] of a missing [id], [x],
    [y], [score] or [color], or a field of another JSON type than the
    server sends. *)
Definition decode_player (j : json) : option player_snapshot :=
  match j with
  | JDict d =>
      match dict_get "id" d, dict_get "x" d, dict_get "y" d,
            dict_get "score" d, dict_get "color" d with
      | Some (JStr i), Some (JInt x), Some (JInt y), Some (JInt sc), Some (JList col) =>
          match decode_ints col with
          | Some c =>
              match dict_get "name" d with
              | Some (JStr n) => Some (mkSnapshot i n x y sc c)
              | None => Some (mkSnapshot i "Player" x y sc c)
              | Some _ => None
              end
          | None => None
          end
      | _, _, _, _, _ => None
      end
  | _ => None
  end.

Fixpoint decode_players (l : list json) : option (list player_snapshot) :=
  match l with
  | [] => Some []
  | j :: rest =>
      match decode_player j, decode_players rest with
      | Some p, Some ps => Some (p :: ps)
      | _, _ => None
      end
  end.

(** [json.loads] and the field accesses of [handle_server_message] and
    [update_game_state]; [None] is a [KeyError] or a field of another JSON
    type than the server sends.  The welcome branch reads [player_data]
    through [decode_player], which also asks for the [id] and [score] that
    the branch itself does not use. *)
Definition decode_server_message (data : list (string * json)) : option server_message :=
  match dict_get "type" data with
  | Some (JStr "welcome") =>
      match dict_get "player_id" data, dict_get "player_data" data with
      | Some (JStr pid), Some pd =>
          match decode_player pd with
          | Some snap =>
              match dict_get "simulated_latency" data with
              | Some (JInt ms) => Some (SWelcome pid ms snap)
              | None => Some (SWelcome pid 200 snap)
              | Some _ => None
              end
          | None => None
          end
      | _, _ => None
      end
  | Some (JStr "lobby_ready") =>
      match dict_get "message" data with
      | Some (JStr m) => Some (SLobbyReady m)
      | _ => None
      end
  | Some (JStr "game_start") =>
      match dict_get "mode" data with
      | Some (JStr m) => Some (SGameStart m)
      | _ => None
      end
  | Some (JStr "state_update") =>
      let ps := match dict_get "players" data with
                | Some (JList l) => decode_players l
                | None => Some []
                | Some _ => None
                end in
      let cs := match dict_get "coins" data with
                | Some (JList l) => Some l
                | None => Some []
                | Some _ => None
                end in
      let st := match dict_get "game_started" data with
                | Some (JBool b) => Some b
                | None => Some false
                | Some _ => None
                end in
      let md := match dict_get "mode" data with
                | Some (JStr m) => Some m
                | None => Some "endless"
                | Some _ => None
                end in
      match ps, cs, st, md with
      | Some ps, Some cs, Some st, Some md => Some (SStateUpdate ps cs st md)
      | _, _, _, _ => None
      end
  | Some (JStr "game_over") =>
      match dict_get "winner" data with
      | Some (JStr w) =>
          match dict_get "winner_name" data with
          | Some (JStr n) => Some (SGameOver w n)
          | None => Some (SGameOver w "Unknown")
          | Some _ => None
          end
      | _ => None
      end
  | _ => Some SOther
  end.

Module Client.
(** [self.keys] *)
Record key_state : Type := mkKeys {
  left : bool;
  right : bool;
  up : bool;
  down : bool
}.

(** The state of [CoinCollectorClient] apart from the window, fonts, clock
    and frame counters; [websocket] tells whether [self.websocket] is set. *)
Record t : Type := mk {
  running : bool;
  connected : bool;
  game_started : bool;
  my_player_id : option string;
  players : dict string InterpolatedEntity.t;
  coins : list json;
  game_mode : option string;
  winner : option string;
  winner_name : string;
  keys : key_state;
  last_input_sent : Z * Z;
  simulated_latency : Z;
  websocket : bool
}.

(** [CoinCollectorClient.__init__] *)
Definition init : t :=
  mk true false false None [] [] None None ""
    (mkKeys false false false false) (0, 0) 200 false.

Definition with_players (c : t) (ps : dict string InterpolatedEntity.t) : t :=
  mk (running c) (connected c) (game_started c) (my_player_id c) ps (coins c)
    (game_mode c) (winner c) (winner_name c) (keys c) (last_input_sent c)
    (simulated_latency c) (websocket c).

Definition with_keys (c : t) (k : key_state) : t :=
  mk (running c) (connected c) (game_started c) (my_player_id c) (players c) (coins c)
    (game_mode c) (winner c) (winner_name c) k (last_input_sent c)
    (simulated_latency c) (websocket c).

Definition with_running (c : t) (b : bool) : t :=
  mk b (connected c) (game_started c) (my_player_id c) (players c) (coins c)
    (game_mode c) (winner c) (winner_name c) (keys c) (last_input_sent c)
    (simulated_latency c) (websocket c).

Definition with_last_input (c : t) (v : Z * Z) : t :=
  mk (running c) (connected c) (game_started c) (my_player_id c) (players c) (coins c)
    (game_mode c) (winner c) (winner_name c) (keys c) v
    (simulated_latency c) (websocket c).

(** The entity of lines 138-144 and 198-205: a new [InterpolatedEntity]
    with the score and colour assigned afterwards. *)
Definition new_entity (snap : player_snapshot) (score : Z) : InterpolatedEntity.t :=
  let e := InterpolatedEntity.init (snap_id snap)
             (float_of_Z (snap_x snap)) (float_of_Z (snap_y snap)) (snap_name snap) in
  InterpolatedEntity.mk (InterpolatedEntity.id e) (InterpolatedEntity.name e)
    (InterpolatedEntity.server_x e) (InterpolatedEntity.server_y e)
    (InterpolatedEntity.display_x e) (InterpolatedEntity.display_y e)
    (InterpolatedEntity.target_x e) (InterpolatedEntity.target_y e)
    score (snap_color snap).

(** Lines 183-189: a known entity gets the new target, score, colour and
    name; its display position stays. *)
Definition refresh_entity (entity : InterpolatedEntity.t) (snap : player_snapshot)
  : InterpolatedEntity.t :=
  let e := InterpolatedEntity.update_server_position entity
             (float_of_Z (snap_x snap)) (float_of_Z (snap_y snap)) in
  InterpolatedEntity.mk (InterpolatedEntity.id e) (snap_name snap)
    (InterpolatedEntity.server_x e) (InterpolatedEntity.server_y e)
    (InterpolatedEntity.display_x e) (InterpolatedEntity.display_y e)
    (InterpolatedEntity.target_x e) (InterpolatedEntity.target_y e)
    (snap_score snap) (snap_color snap).

(** One round of the loop over [data.get('players', [])]. *)
Definition upsert (ps : dict string InterpolatedEntity.t) (snap : player_snapshot)
  : dict string InterpolatedEntity.t :=
  match dict_get (snap_id snap) ps with
  | Some entity => dict_set (snap_id snap) (refresh_entity entity snap) ps
  | None => dict_set (snap_id snap) (new_entity snap (snap_score snap)) ps
  end.

(** [update_game_state].  The players of the message are merged in, then
    the entities whose id is not in the message are deleted (the order in
    which the set difference is walked does not matter to the result),
    then coins and flags are replaced. *)
Definition update_game_state (snapshots : list player_snapshot) (coin_list : list json)
  (started : bool) (mode : string) (c : t) : t :=
  let merged := fold_left upsert snapshots (players c) in
  let server_player_ids := map snap_id snapshots in
  let gone_ids :=
    filter (fun k => negb (existsb (String.eqb k) server_player_ids)) (map fst merged) in
  let kept := fold_left (fun ps k => dict_del k ps) gone_ids merged in
  mk (running c) (connected c) started (my_player_id c) kept coin_list
    (Some mode) (winner c) (winner_name c) (keys c) (last_input_sent c)
    (simulated_latency c) (websocket c).

(** [handle_server_message] on a decoded message; [None] is the
    [JSONDecodeError] branch. *)
Definition handle_server_message (m : option server_message) (c : t) : t :=
  match m with
  | None => c
  | Some (SWelcome pid ms snap) =>
      let entity :=
        new_entity (mkSnapshot pid (snap_name snap) (snap_x snap) (snap_y snap)
                      (snap_score snap) (snap_color snap)) 0 in
      mk (running c) (connected c) (game_started c) (Some pid)
        (dict_set pid entity (players c)) (coins c)
        (game_mode c) (winner c) (winner_name c) (keys c) (last_input_sent c)
        ms (websocket c)
  | Some (SLobbyReady _) => c
  | Some (SGameStart mode) =>
      mk (running c) (connected c) true (my_player_id c) (players c) (coins c)
        (Some mode) None "" (keys c) (last_input_sent c)
        (simulated_latency c) (websocket c)
  | Some (SStateUpdate snapshots coin_list started mode) =>
      update_game_state snapshots coin_list started mode c
  | Some (SGameOver w n) =>
      mk (running c) (connected c) false (my_player_id c) (players c) (coins c)
        (game_mode c) (Some w) n (keys c) (last_input_sent c)
        (simulated_latency c) (websocket c)
  | Some SOther => c
  end.

(** The intent vector of [send_input], lines 227-237. *)
Definition intent (k : key_state) : Z * Z :=
  let dx := 0 in
  let dy := 0 in
  let dx := if left k then dx - 1 else dx in
  let dx := if right k then dx + 1 else dx in
  let dy := if up k then dy - 1 else dy in
  let dy := if down k then dy + 1 else dy in
  (dx, dy).

(** [send_input]: the state afterwards and the message sent, if any. *)
Definition send_input (c : t) : t * option (list (string * json)) :=
  if negb (connected c) || negb (websocket c) then (c, None)
  else
    let '(dx, dy) := intent (keys c) in
    if negb (dx =? fst (last_input_sent c)) || negb (dy =? snd (last_input_sent c))
    then (with_last_input c (dx, dy),
          Some [ ("type", JStr "input"); ("dx", JInt dx); ("dy", JInt dy) ])
    else (c, None).

(** [send_game_start] *)
Definition send_game_start (mode : string) (c : t) : option (list (string * json)) :=
  if negb (connected c) || negb (websocket c) then None
  else Some [ ("type", JStr "start_game"); ("mode", JStr mode) ].

(** The keys [handle_events] tells apart. *)
Inductive key : Type :=
| K_LEFT | K_a | K_RIGHT | K_d | K_UP | K_w | K_DOWN | K_s
| K_1 | K_2 | K_ESCAPE | K_other.

Inductive pygame_event : Type :=
| QUIT
| KEYDOWN (k : key)
| KEYUP (k : key)
| OTHER_EVENT.

Definition set_left (k : key_state) (b : bool) := mkKeys b (right k) (up k) (down k).
Definition set_right (k : key_state) (b : bool) := mkKeys (left k) b (up k) (down k).
Definition set_up (k : key_state) (b : bool) := mkKeys (left k) (right k) b (down k).
Definition set_down (k : key_state) (b : bool) := mkKeys (left k) (right k) (up k) b.

(** One round of the loop of [handle_events]: the state afterwards and the
    mode of the [send_game_start] task it creates, if any. *)
Definition handle_event (ev : pygame_event) (c : t) : t * option string :=
  match ev with
  | QUIT => (with_running c false, None)
  | KEYDOWN k =>
      match k with
      | K_LEFT | K_a => (with_keys c (set_left (keys c) true), None)
      | K_RIGHT | K_d => (with_keys c (set_right (keys c) true), None)
      | K_UP | K_w => (with_keys c (set_up (keys c) true), None)
      | K_DOWN | K_s => (with_keys c (set_down (keys c) true), None)
      | K_1 => if negb (game_started c) then (c, Some "sprint") else (c, None)
      | K_2 => if negb (game_started c) then (c, Some "endless") else (c, None)
      | K_ESCAPE => (with_running c false, None)
      | K_other => (c, None)
      end
  | KEYUP k =>
      match k with
      | K_LEFT | K_a => (with_keys c (set_left (keys c) false), None)
      | K_RIGHT | K_d => (with_keys c (set_right (keys c) false), None)
      | K_UP | K_w => (with_keys c (set_up (keys c) false), None)
      | K_DOWN | K_s => (with_keys c (set_down (keys c) false), None)
      | _ => (c, None)
      end
  | OTHER_EVENT => (c, None)
  end.

(** [handle_events] over the events of a frame, with the start requests in
    the order they were made. *)
Fixpoint handle_events (evs : list pygame_event) (c : t) : t * list string :=
  match evs with
  | [] => (c, [])
  | ev :: rest =>
      let '(c1, req) := handle_event ev c in
      let '(c2, reqs) := handle_events rest c1 in
      (c2, match req with Some m => m :: reqs | None => reqs end)
  end.
End Client.

(** * Vocabulary of the properties *)

(** What one hit does to the server (lines 217 and 227-228). *)
Definition hit (player_id : string) (player : Player.t) (s : GameServer) : GameServer :=
  let player' := Player.with_score player (Player.score player + 1) in
  let s := with_players s (dict_set player_id player' (players s)) in
  if (game_mode s =? "sprint")%string && (SPRINT_WIN_SCORE <=? Player.score player')
  then with_winner s (Some player_id) else s.

(** The first player, in iteration order, that touches the coin. *)
Fixpoint first_hit (coin : Coin.t) (todo : list (string * Player.t))
  : option (string * Player.t) :=
  match todo with
  | [] => None
  | (player_id, player) :: rest =>
      if collides player coin then Some (player_id, player)
      else first_hit coin rest
  end.

(** The player's centre is at least half a hit-box away from every wall. *)
Definition in_arena (p : Player.t) : Prop :=
  PLAYER_SIZE / 2 <= Player.x p <= SCREEN_WIDTH - PLAYER_SIZE / 2 /\
  PLAYER_SIZE / 2 <= Player.y p <= SCREEN_HEIGHT - PLAYER_SIZE / 2.

(** The intents with which [update_position] never raises: the product with
    [PLAYER_SPEED] converts to a double.  A larger product is an
    [OverflowError] as soon as the position it is added to is a float, that
    is once the position has been clamped. *)
Definition intent_fits (p : Player.t) : Prop :=
  Z.abs (Player.velocity_x p * PLAYER_SPEED) < 2 ^ 1023 /\
  Z.abs (Player.velocity_y p * PLAYER_SPEED) < 2 ^ 1023.

Definition intents_fit (s : GameServer) : Prop :=
  Forall (fun kv => intent_fits (snd kv)) (players s).

(** What holds of every state a server can be in: both dictionaries have
    distinct keys, every coin in play was logged, the log is increasing and
    below the counter, the players are inside the arena, there are no coins
    outside a game, and only a sprint has a winner. *)
Record invariant (s : GameServer) : Prop := {
  inv_players_nodup : NoDup (keys (players s));
  inv_coins_nodup : NoDup (keys (coins s));
  inv_coins_logged : incl (keys (coins s)) (spawn_log s);
  inv_log_sorted : StronglySorted Z.lt (spawn_log s);
  inv_log_below : Forall (fun k => k < next_coin_id s) (spawn_log s);
  inv_arena : Forall (fun kv => in_arena (snd kv)) (players s);
  inv_idle : game_started s = false -> coins s = [];
  inv_endless : game_mode s <> "sprint" -> winner s = None
}.

(** Two dictionary entries with the same key whose players differ at most
    in the score, which is zero in the second. *)
Definition score_zeroed (kv kv' : string * Player.t) : Prop :=
  fst kv' = fst kv /\
  Player.score (snd kv') = 0 /\
  Player.id (snd kv') = Player.id (snd kv) /\
  Player.name (snd kv') = Player.name (snd kv) /\
  Player.color (snd kv') = Player.color (snd kv) /\
  Player.x (snd kv') = Player.x (snd kv) /\
  Player.y (snd kv') = Player.y (snd kv) /\
  Player.velocity_x (snd kv') = Player.velocity_x (snd kv) /\
  Player.velocity_y (snd kv') = Player.velocity_y (snd kv).

(** The log after is the log before followed by the ids handed out since. *)
Definition extends (l l' : list Z) : Prop := exists new, l' = (l ++ new)%list.

(** A state whose log extends that of another and whose counter is not
    below the other's. *)
Definition later (s s' : GameServer) : Prop :=
  extends (spawn_log s) (spawn_log s') /\ next_coin_id s <= next_coin_id s'.

(** A game that runs in a mode other than sprint. *)
Definition playing_without_win (s : GameServer) : Prop :=
  game_started s = true /\ game_mode s <> "sprint" /\ winner s = None.

(** One pickup: the coin, the key of the player that collected it and that
    player's score after the pickup. *)
Record pickup : Type := mkPickup {
  pickup_coin : Z;
  pickup_player : string;
  pickup_score : Z
}.

(** The pickups of a pass over the coins [todo], in the order in which the
    pass makes them, when it starts with the players [ps]. *)
Fixpoint pickups (todo : list (Z * Coin.t)) (ps : dict string Player.t) : list pickup :=
  match todo with
  | [] => []
  | (coin_id, coin) :: rest =>
      match first_hit coin ps with
      | Some (player_id, player) =>
          let player' := Player.with_score player (Player.score player + 1) in
          mkPickup coin_id player_id (Player.score player')
            :: pickups rest (dict_set player_id player' ps)
      | None => pickups rest ps
      end
  end.

(** How many pickups of a log are the player's. *)
Definition pickups_of (player_id : string) (log : list pickup) : Z :=
  Z.of_nat (List.length (filter (fun e => (pickup_player e =? player_id)%string) log)).

(** The winner after the pickups of a log in sprint mode. *)
Definition winner_after (log : list pickup) (w : option string) : option string :=
  fold_left
    (fun w e => if SPRINT_WIN_SCORE <=? pickup_score e then Some (pickup_player e) else w)
    log w.

(** Euclidean distance between a player and a coin. *)
Definition distance (player : Player.t) (coin : Coin.t) : R :=
  R_sqrt.sqrt
    (IZR ((Player.x player - Coin.x coin) * (Player.x player - Coin.x coin)
          + (Player.y player - Coin.y coin) * (Player.y player - Coin.y coin))).

(** Where a dictionary entry stands: its key and its position. *)
Definition place (kv : string * Player.t) : string * Z * Z :=
  (fst kv, Player.x (snd kv), Player.y (snd kv)).

(** The (coin, player) pairs of a pass, read off the players it starts with. *)
Definition collected (todo : list (Z * Coin.t)) (ps : dict string Player.t)
  : list (Z * string) :=
  flat_map
    (fun kv =>
       match first_hit (snd kv) ps with
       | Some (player_id, _) => [(fst kv, player_id)]
       | None => []
       end)
    todo.

(** A coin id that was handed out and is not in play. *)
Definition gone (coin_id : Z) (s : GameServer) : Prop :=
  coin_id < next_coin_id s /\ ~ In coin_id (keys (coins s)).

(** What identifies a player to the others: its key, id, name and colour. *)
Definition badge (kv : string * Player.t) : string * string * string * list Z :=
  (fst kv, Player.id (snd kv), Player.name (snd kv), Player.color (snd kv)).

Definition badges (s : GameServer) : list (string * string * string * list Z) :=
  map badge (players s).

Definition is_alice (b : string * string * string * list Z) : bool :=
  (snd (fst b) =? "Alice")%string.

(** A badge as [handle_client] hands it out. *)
Definition badge_ok (b : string * string * string * list Z) : Prop :=
  let '(key, id, name, color) := b in
  id = key /\
  ((name = "Alice" /\ color = [255; 100; 100]) \/
   (name = "Bob" /\ color = [100; 100; 255])).

Record roster_ok (s : GameServer) : Prop := {
  roster_badges : Forall badge_ok (badges s);
  roster_count : len (players s) <= player_count s;
  roster_alice : (List.length (filter is_alice (badges s)) <= 1)%nat
}.

(** A coin as [spawn_coin] stores it: under its own id, inside the margins. *)
Definition coin_ok (kv : Z * Coin.t) : Prop :=
  Coin.id (snd kv) = fst kv /\
  COIN_SIZE <= Coin.x (snd kv) <= SCREEN_WIDTH - COIN_SIZE /\
  COIN_SIZE <= Coin.y (snd kv) <= SCREEN_HEIGHT - COIN_SIZE.

Record coins_ok (s : GameServer) : Prop := {
  coins_bound : len (coins s) <= MAX_COINS;
  coins_each : Forall coin_ok (coins s)
}.

(** The sum of the scores of the players. *)
Definition total_score (ps : dict string Player.t) : Z :=
  fold_right (fun kv acc => Player.score (snd kv) + acc) 0 ps.

(** What a snapshot of a server player holds. *)
Definition snapshot_of (p : Player.t) : player_snapshot :=
  mkSnapshot (Player.id p) (Player.name p) (Player.x p) (Player.y p)
    (Player.score p) (Player.color p).

(** What the client holds of a server player it is told about: [known] is
    the entity it had for that player, if any. *)
Definition in_sync (known : option InterpolatedEntity.t) (p : Player.t)
  (e : InterpolatedEntity.t) : Prop :=
  InterpolatedEntity.target_x e = float_of_Z (Player.x p) /\
  InterpolatedEntity.target_y e = float_of_Z (Player.y p) /\
  InterpolatedEntity.score e = Player.score p /\
  InterpolatedEntity.name e = Player.name p /\
  InterpolatedEntity.color e = Player.color p /\
  match known with
  | Some e0 =>
      InterpolatedEntity.display_x e = InterpolatedEntity.display_x e0 /\
      InterpolatedEntity.display_y e = InterpolatedEntity.display_y e0
  | None =>
      InterpolatedEntity.display_x e = float_of_Z (Player.x p) /\
      InterpolatedEntity.display_y e = float_of_Z (Player.y p)
  end.

(** Scores are never negative, and outside a game they are all zero. *)
Record scores_ok (s : GameServer) : Prop := {
  scores_nonneg : Forall (fun kv => 0 <= Player.score (snd kv)) (players s);
  scores_idle : game_started s = false ->
                Forall (fun kv => Player.score (snd kv) = 0) (players s)
}.

(** *** Exact values of doubles *)





(** *** Checking the steps with machine integers *)









(** *** The keyboard *)

Inductive direction : Type := Leftward | Rightward | Upward | Downward.

(** The direction a key steers: an arrow key and its letter steer the same. *)
Definition direction_of (k : Client.key) : option direction :=
  match k with
  | Client.K_LEFT | Client.K_a => Some Leftward
  | Client.K_RIGHT | Client.K_d => Some Rightward
  | Client.K_UP | Client.K_w => Some Upward
  | Client.K_DOWN | Client.K_s => Some Downward
  | _ => None
  end.

Definition direction_eqb (a b : direction) : bool :=
  match a, b with
  | Leftward, Leftward | Rightward, Rightward
  | Upward, Upward | Downward, Downward => true
  | _, _ => false
  end.

Definition held (d : direction) (ks : Client.key_state) : bool :=
  match d with
  | Leftward => Client.left ks
  | Rightward => Client.right ks
  | Upward => Client.up ks
  | Downward => Client.down ks
  end.

(** What an event says about a direction: pressed ([Some true]), released
    ([Some false]) or nothing. *)
Definition says (d : direction) (ev : Client.pygame_event) : option bool :=
  match ev with
  | Client.KEYDOWN k =>
      match direction_of k with
      | Some d' => if direction_eqb d d' then Some true else None
      | None => None
      end
  | Client.KEYUP k =>
      match direction_of k with
      | Some d' => if direction_eqb d d' then Some false else None
      | None => None
      end
  | _ => None
  end.

(** The last thing the events of a frame say about a direction. *)
Fixpoint last_word (d : direction) (evs : list Client.pygame_event) : option bool :=
  match evs with
  | [] => None
  | ev :: rest =>
      match last_word d rest with
      | Some b => Some b
      | None => says d ev
      end
  end.

(** The game mode an event asks for: key 1 is a sprint, key 2 an endless game. *)
Definition request_of (ev : Client.pygame_event) : list string :=
  match ev with
  | Client.KEYDOWN Client.K_1 => ["sprint"]
  | Client.KEYDOWN Client.K_2 => ["endless"]
  | _ => []
  end.

(** Closing the window and the escape key end the client. *)
Definition quits (ev : Client.pygame_event) : bool :=
  match ev with
  | Client.QUIT | Client.KEYDOWN Client.K_ESCAPE => true
  | _ => false
  end.

(** * Scenarios *)

(** One, two and three players connected to a server started at time 0. *)
Definition lobby_of_one : GameServer :=
  fst (handle_client_accept "140230" 30 370 (init_server 0%Q)).

Definition lobby_of_two : GameServer :=
  fst (handle_client_accept "140231" 570 30 lobby_of_one).

Definition lobby_of_three : GameServer :=
  fst (handle_client_accept "140232" 300 200 lobby_of_two).

(** A sprint game started in the two-player lobby with three coins. *)
Definition sprint_of_two : GameServer :=
  handle_message "140230" (MStartGame (Some "sprint"))
    [(100, 100); (200, 200); (300, 300)] lobby_of_two.

(** The opening of a sprint: both players connect, the game starts with a
    coin under each of them, and in each of nine ticks, three seconds
    apart, both collect their coin and a new one is spawned under each. *)
Definition under_both : list (Z * Z) := [(30, 370); (570, 30)].

Definition neck_and_neck_events : list event :=
  [ Connect "140230" 30 370;
    Connect "140231" 570 30;
    Receive "140231" (MStartGame (Some "sprint")) ((300, 200) :: under_both);
    Tick 3%Q under_both all_open all_open; Tick 6%Q under_both all_open all_open;
    Tick 9%Q under_both all_open all_open; Tick 12%Q under_both all_open all_open;
    Tick 15%Q under_both all_open all_open; Tick 18%Q under_both all_open all_open;
    Tick 21%Q under_both all_open all_open; Tick 24%Q under_both all_open all_open;
    Tick 27%Q under_both all_open all_open ].

(** The state these events lead to: Alice and Bob at 9 points each, coin 19
    under Alice and coin 20 under Bob. *)
Definition neck_and_neck : GameServer :=
  mkGameServer
    [("140230", Player.mk "140230" "Alice" 30 370 9 [255; 100; 100] 0 0);
     ("140231", Player.mk "140231" "Bob" 570 30 9 [100; 100; 255] 0 0)]
    [(0, Coin.mk 0 300 200); (19, Coin.mk 19 30 370); (20, Coin.mk 20 570 30)]
    21 true "sprint" None 27%Q 2
    [0; 1; 2; 3; 4; 5; 6; 7; 8; 9; 10; 11; 12; 13; 14; 15; 16; 17; 18; 19; 20].

(** A sprint that starts with both players within reach of coin 0. *)
Definition crowded_events : list event :=
  [ Connect "140230" 100 100;
    Connect "140231" 110 100;
    Receive "140230" (MStartGame (Some "sprint")) [(105, 100); (300, 300); (400, 300)] ].

Definition crowded : GameServer :=
  mkGameServer
    [("140230", Player.mk "140230" "Alice" 100 100 0 [255; 100; 100] 0 0);
     ("140231", Player.mk "140231" "Bob" 110 100 0 [100; 100; 255] 0 0)]
    [(0, Coin.mk 0 105 100); (1, Coin.mk 1 300 300); (2, Coin.mk 2 400 300)]
    3 true "sprint" None 0%Q 2 [0; 1; 2].



(** * Properties *)

(** ** Dictionary lemmas *)

Section DictFacts.
Context {K V : Type} `{EqKey K}.
Implicit Types (d : dict K V) (k : K) (v : V).

Lemma keyb_refl k : keyb k k = true.
Proof. now apply keyb_eq. Qed.

Lemma keyb_neq k k' : k <> k' -> keyb k k' = false.
Proof.
  intros Hne. destruct (keyb k k') eqn:E; [|reflexivity].
  apply keyb_eq in E. contradiction.
Qed.

Lemma keyb_false k k' : keyb k k' = false -> k <> k'.
Proof. intros E ->. rewrite keyb_refl in E. discriminate. Qed.

Lemma key_eq_dec k k' : {k = k'} + {k <> k'}.
Proof.
  destruct (keyb k k') eqn:E.
  - left. now apply keyb_eq.
  - right. now apply keyb_false.
Qed.

Lemma dict_get_In k v d : dict_get k d = Some v -> In (k, v) d.
Proof.
  induction d as [|[k' v'] d IH]; simpl; [discriminate|].
  destruct (keyb k k') eqn:E.
  - intros [= ->]. apply keyb_eq in E. subst. now left.
  - intros Hg. right. now apply IH.
Qed.

Lemma dict_get_None k d : dict_get k d = None <-> ~ In k (keys d).
Proof.
  induction d as [|[k' v'] d IH]; simpl.
  - tauto.
  - destruct (keyb k k') eqn:E.
    + apply keyb_eq in E. subst. split; [discriminate|]. intros Hn. exfalso. auto.
    + apply keyb_false in E. rewrite IH. split.
      * intros Hn [Heq|Hin]; [congruence|auto].
      * intros Hn Hin. auto.
Qed.

Lemma In_dict_get k v d : NoDup (keys d) -> In (k, v) d -> dict_get k d = Some v.
Proof.
  induction d as [|[k' v'] d IH]; simpl; [tauto|].
  intros Hnd [Heq|Hin].
  - injection Heq as -> ->. now rewrite keyb_refl.
  - inversion Hnd as [|? ? Hni Hnd']; subst.
    rewrite keyb_neq.
    + now apply IH.
    + intros ->. apply Hni. change k' with (fst (k', v)). now apply in_map.
Qed.

Lemma dict_mem_In k d : dict_mem k d = true <-> In k (keys d).
Proof.
  unfold dict_mem. destruct (dict_get k d) eqn:E.
  - split; [intros _|reflexivity].
    apply dict_get_In in E. change k with (fst (k, v)). now apply in_map.
  - split; [discriminate|]. intros Hin. now apply dict_get_None in E.
Qed.

Lemma dict_mem_false k d : dict_mem k d = false <-> ~ In k (keys d).
Proof.
  rewrite <- dict_mem_In. destruct (dict_mem k d); split; congruence.
Qed.

Lemma In_dict_set k v d : In (k, v) (dict_set k v d).
Proof.
  induction d as [|[k' v'] d IH]; simpl; [now left|].
  destruct (keyb k k') eqn:E.
  - apply keyb_eq in E. subst. now left.
  - now right.
Qed.

Lemma In_dict_set_inv k v d kv :
  In kv (dict_set k v d) -> kv = (k, v) \/ In kv d.
Proof.
  induction d as [|[k' v'] d IH]; simpl.
  - intros [<-|[]]. now left.
  - destruct (keyb k k') eqn:E; simpl.
    + apply keyb_eq in E. subst. intros [<-|Hin]; auto.
    + intros [<-|Hin]; auto. destruct (IH Hin); auto.
Qed.

Lemma keys_dict_set_mem k v d :
  In k (keys d) -> keys (dict_set k v d) = keys d.
Proof.
  induction d as [|[k' v'] d IH]; simpl; [tauto|].
  destruct (keyb k k') eqn:E; simpl; [reflexivity|].
  apply keyb_false in E. intros [Heq|Hin]; [congruence|].
  f_equal. now apply IH.
Qed.

Lemma keys_dict_set_new k v d :
  ~ In k (keys d) -> dict_set k v d = (d ++ [(k, v)])%list.
Proof.
  induction d as [|[k' v'] d IH]; simpl; [reflexivity|].
  intros Hn. rewrite keyb_neq by (intros ->; auto).
  f_equal. apply IH. auto.
Qed.

Lemma NoDup_keys_dict_set k v d :
  NoDup (keys d) -> NoDup (keys (dict_set k v d)).
Proof.
  intros Hnd. destruct (in_dec key_eq_dec k (keys d)) as [Hin|Hni].
  - now rewrite keys_dict_set_mem.
  - rewrite keys_dict_set_new by assumption. unfold keys. rewrite map_app. simpl.
    apply NoDup_app; [assumption|repeat constructor; simpl; tauto|].
    intros a Ha [<-|[]]. contradiction.
Qed.

Lemma dict_get_set_same k v d : NoDup (keys d) -> dict_get k (dict_set k v d) = Some v.
Proof.
  intros Hnd. apply In_dict_get.
  - now apply NoDup_keys_dict_set.
  - apply In_dict_set.
Qed.

Lemma dict_get_set_other k k' v d :
  k' <> k -> dict_get k' (dict_set k v d) = dict_get k' d.
Proof.
  intros Hne. induction d as [|[k2 v2] d IH]; simpl.
  - now rewrite keyb_neq.
  - destruct (keyb k k2) eqn:E; simpl.
    + apply keyb_eq in E. subst. now rewrite keyb_neq.
    + now rewrite IH.
Qed.

Lemma In_dict_del k d kv : In kv (dict_del k d) -> In kv d.
Proof.
  induction d as [|[k' v'] d IH]; simpl; [tauto|].
  destruct (keyb k k'); simpl; [auto|]. intros [<-|Hin]; auto.
Qed.

Lemma In_keys_dict_del k k' d : In k' (keys (dict_del k d)) -> In k' (keys d).
Proof.
  unfold keys. rewrite !in_map_iff. intros [kv [<- Hin]].
  exists kv. split; [reflexivity|]. eapply In_dict_del; eauto.
Qed.

Lemma NoDup_keys_dict_del k d : NoDup (keys d) -> NoDup (keys (dict_del k d)).
Proof.
  induction d as [|[k' v'] d IH]; simpl; [auto|].
  intros Hnd. inversion Hnd as [|? ? Hni Hnd']; subst.
  destruct (keyb k k'); simpl; [assumption|].
  constructor; [|now apply IH]. intros Hin. apply Hni.
  eapply In_keys_dict_del; eauto.
Qed.

Lemma Forall_dict_set (P : K * V -> Prop) k v d :
  P (k, v) -> Forall P d -> Forall P (dict_set k v d).
Proof.
  intros Hp Hall. apply Forall_forall. intros kv Hin.
  destruct (In_dict_set_inv _ _ _ _ Hin) as [->|Hin']; [assumption|].
  rewrite Forall_forall in Hall. auto.
Qed.

Lemma Forall_dict_del (P : K * V -> Prop) k d :
  Forall P d -> Forall P (dict_del k d).
Proof.
  rewrite !Forall_forall. intros Hall kv Hin. apply Hall.
  eapply In_dict_del; eauto.
Qed.
End DictFacts.

(** ** The collision pass as a sequence of elementary updates *)

Lemma scan_players_first_hit coin_id coin todo s l :
  scan_players coin_id coin todo (s, l) =
  match first_hit coin todo with
  | Some (player_id, player) => (hit player_id player s, (l ++ [coin_id])%list)
  | None => (s, l)
  end.
Proof.
  induction todo as [|[pid p] rest IH]; simpl; [reflexivity|].
  destruct (collides p coin); [reflexivity|apply IH].
Qed.

Lemma first_hit_In coin todo player_id player :
  first_hit coin todo = Some (player_id, player) ->
  In (player_id, player) todo /\ collides player coin = true.
Proof.
  induction todo as [|[pid p] rest IH]; simpl; [discriminate|].
  destruct (collides p coin) eqn:E.
  - intros [= <- <-]. auto.
  - intros Hf. destruct (IH Hf). auto.
Qed.

Section PassInduction.
Variable I : GameServer -> Prop.

Hypothesis I_score :
  forall s player_id player,
    I s -> In (player_id, player) (players s) ->
    I (with_players s
         (dict_set player_id
            (Player.with_score player (Player.score player + 1)) (players s))).

Hypothesis I_winner :
  forall s player_id player,
    I s -> game_mode s = "sprint" -> In (player_id, player) (players s) ->
    SPRINT_WIN_SCORE <= Player.score player ->
    I (with_winner s (Some player_id)).

Hypothesis I_remove :
  forall s coin_id, I s -> I (with_coins s (dict_del coin_id (coins s))).

Lemma hit_ind s player_id player :
  I s -> In (player_id, player) (players s) -> I (hit player_id player s).
Proof.
  intros Hs Hin. unfold hit.
  set (p' := Player.with_score player (Player.score player + 1)).
  set (s1 := with_players s (dict_set player_id p' (players s))).
  assert (H1 : I s1) by now apply I_score.
  destruct ((game_mode s1 =? "sprint")%string && (SPRINT_WIN_SCORE <=? Player.score p')) eqn:E;
    [|assumption].
  apply andb_prop in E. destruct E as [Em Es].
  apply String.eqb_eq in Em. apply Z.leb_le in Es.
  apply I_winner with (player := p'); auto.
  subst s1. simpl. apply In_dict_set.
Qed.

Lemma scan_coins_ind todo s l : I s -> I (fst (scan_coins todo (s, l))).
Proof.
  revert s l. induction todo as [|[cid c] rest IH]; intros s l Hs; simpl; [assumption|].
  rewrite scan_players_first_hit.
  destruct (first_hit c (players s)) as [[pid p]|] eqn:E.
  - apply IH. apply hit_ind; [assumption|]. now apply first_hit_In in E.
  - now apply IH.
Qed.

Lemma remove_coins_ind l s : I s -> I (remove_coins l s).
Proof.
  revert s. induction l as [|cid l IH]; intros s Hs; simpl; [assumption|].
  apply IH. destruct (dict_mem cid (coins s)); [now apply I_remove|assumption].
Qed.

Lemma check_collisions_ind s : I s -> I (check_collisions s).
Proof.
  intros Hs. unfold check_collisions.
  pose proof (scan_coins_ind (coins s) s [] Hs) as H1.
  destruct (scan_coins (coins s) (s, [])) as [s' l]. simpl in H1.
  now apply remove_coins_ind.
Qed.
End PassInduction.

(** ** A broadcast as a sequence of deletions *)

Lemma broadcast_unfold closed s :
  broadcast closed s =
  fold_left
    (fun s player_id =>
       if dict_mem player_id (players s)
       then with_players s (dict_del player_id (players s)) else s)
    (filter closed (keys (players s))) s.
Proof. unfold broadcast. destruct (players s); reflexivity. Qed.

Lemma broadcast_ind (I : GameServer -> Prop) closed s :
  (forall s0 player_id,
     I s0 -> dict_mem player_id (players s0) = true ->
     I (with_players s0 (dict_del player_id (players s0)))) ->
  I s -> I (broadcast closed s).
Proof.
  intros Hdel. rewrite broadcast_unfold.
  generalize (filter closed (keys (players s))). intros l. revert s.
  induction l as [|pid l IH]; intros s Hs; simpl; [assumption|].
  apply IH. destruct (dict_mem pid (players s)) eqn:E; [now apply Hdel|assumption].
Qed.

(** A broadcast changes the players only. *)
Lemma broadcast_frame closed s : with_players (broadcast closed s) (players s) = s.
Proof.
  apply (broadcast_ind (fun s' => with_players s' (players s) = s)).
  - intros s0 pid H _. rewrite <- H at 2. now destruct s0.
  - now destruct s.
Qed.

Lemma broadcast_fields closed s :
  coins (broadcast closed s) = coins s /\
  next_coin_id (broadcast closed s) = next_coin_id s /\
  game_started (broadcast closed s) = game_started s /\
  game_mode (broadcast closed s) = game_mode s /\
  winner (broadcast closed s) = winner s /\
  last_coin_spawn (broadcast closed s) = last_coin_spawn s /\
  player_count (broadcast closed s) = player_count s /\
  spawn_log (broadcast closed s) = spawn_log s.
Proof.
  pose proof (broadcast_frame closed s) as H.
  repeat split.
  - now apply (f_equal coins) in H.
  - now apply (f_equal next_coin_id) in H.
  - now apply (f_equal game_started) in H.
  - now apply (f_equal game_mode) in H.
  - now apply (f_equal winner) in H.
  - now apply (f_equal last_coin_spawn) in H.
  - now apply (f_equal player_count) in H.
  - now apply (f_equal spawn_log) in H.
Qed.

Lemma game_over_check_cases closed_over s s' :
  game_over_check closed_over s = Some s' ->
  (truthy (winner s) = false /\ s' = s) \/
  (exists w winner_player,
      winner s = Some w /\ truthy (winner s) = true /\
      dict_get w (players s) = Some winner_player /\
      s' = reset_game (broadcast closed_over s)).
Proof.
  unfold game_over_check. destruct (truthy (winner s)) eqn:Ht.
  - destruct (winner s) as [w|]; [|discriminate Ht].
    destruct (dict_get w (players s)) as [wp|] eqn:Hg; [|discriminate].
    intros [= <-]. right. exists w, wp. auto.
  - intros [= <-]. now left.
Qed.

(** ** Invariants of reachable states *)

Lemma StronglySorted_snoc (l : list Z) (n : Z) :
  StronglySorted Z.lt l -> Forall (fun k => k < n) l ->
  StronglySorted Z.lt (l ++ [n]).
Proof.
  induction 1 as [|a l Hs IH Ha]; intros Hall; simpl.
  - repeat constructor.
  - inversion Hall as [|? ? Han Hall']; subst.
    constructor; [now apply IH|].
    apply Forall_app. split; [assumption|]. now repeat constructor.
Qed.

Lemma invariant_init t0 : invariant (init_server t0).
Proof.
  constructor; simpl; try constructor; try easy.
Qed.

Lemma update_position_in_arena p : in_arena (fst (Player.update_position p)).
Proof.
  unfold in_arena, Player.update_position. simpl.
  unfold PLAYER_SIZE, SCREEN_WIDTH, SCREEN_HEIGHT, PLAYER_SPEED.
  change (30 / 2) with 15. lia.
Qed.

Lemma init_in_arena player_id name color rx ry :
  in_range PLAYER_SIZE (SCREEN_WIDTH - PLAYER_SIZE) rx = true ->
  in_range PLAYER_SIZE (SCREEN_HEIGHT - PLAYER_SIZE) ry = true ->
  in_arena (Player.init player_id name color rx ry).
Proof.
  unfold in_range, in_arena, PLAYER_SIZE, SCREEN_WIDTH, SCREEN_HEIGHT. simpl.
  change (30 / 2) with 15. lia.
Qed.

Lemma invariant_accept player_id rx ry s :
  in_range PLAYER_SIZE (SCREEN_WIDTH - PLAYER_SIZE) rx = true ->
  in_range PLAYER_SIZE (SCREEN_HEIGHT - PLAYER_SIZE) ry = true ->
  invariant s -> invariant (fst (handle_client_accept player_id rx ry s)).
Proof.
  intros Hx Hy [].
  unfold handle_client_accept.
  destruct (player_count s =? 0); simpl;
    (constructor; simpl; auto;
     [ now apply NoDup_keys_dict_set
     | apply Forall_dict_set; [now apply init_in_arena | assumption] ]).
Qed.

Lemma invariant_finally player_id s :
  invariant s -> invariant (handle_client_finally player_id s).
Proof.
  intros Hi. pose proof Hi as [].
  unfold handle_client_finally.
  destruct (dict_mem player_id (players s)); [|assumption].
  constructor; simpl; auto.
  - now apply NoDup_keys_dict_del.
  - now apply Forall_dict_del.
Qed.

Lemma invariant_drop player_id s :
  invariant s -> invariant (broadcast_drop player_id s).
Proof.
  intros Hi. pose proof Hi as [].
  unfold broadcast_drop.
  destruct (dict_mem player_id (players s)); [|assumption].
  constructor; simpl; auto.
  - now apply NoDup_keys_dict_del.
  - now apply Forall_dict_del.
Qed.

Lemma invariant_spawn_coin draw s :
  game_started s = true -> invariant s -> invariant (spawn_coin draw s).
Proof.
  intros Hst [].
  assert (Hfresh : ~ In (next_coin_id s) (keys (coins s))).
  { intros Hin. apply inv_coins_logged0 in Hin.
    rewrite Forall_forall in inv_log_below0. specialize (inv_log_below0 _ Hin). lia. }
  constructor; simpl; auto.
  - now apply NoDup_keys_dict_set.
  - rewrite keys_dict_set_new by assumption. unfold keys. rewrite map_app. simpl.
    apply incl_app.
    + apply incl_appl. assumption.
    + apply incl_appr. apply incl_refl.
  - now apply StronglySorted_snoc.
  - apply Forall_app. split.
    + eapply Forall_impl; [|eassumption]. simpl. intros. lia.
    + repeat constructor. lia.
  - congruence.
Qed.

Lemma invariant_spawn_coins (draws : list (Z * Z)) s :
  game_started s = true -> invariant s ->
  invariant (fold_left (fun s d => spawn_coin d s) draws s).
Proof.
  revert s. induction draws as [|d draws IH]; intros s Hst Hi; simpl; [assumption|].
  apply IH; [assumption|now apply invariant_spawn_coin].
Qed.

Lemma invariant_start_game mode draws s :
  invariant s -> invariant (start_game mode draws s).
Proof.
  intros []. unfold start_game. apply invariant_spawn_coins; [reflexivity|].
  constructor; simpl; auto. discriminate.
Qed.

Lemma invariant_handle_message player_id m draws s :
  invariant s -> invariant (handle_message player_id m draws s).
Proof.
  intros Hi. destruct m as [|dx dy|mode|]; simpl; try assumption.
  - destruct (dict_get player_id (players s)) as [p|] eqn:E; [|assumption].
    pose proof Hi as []. constructor; simpl; auto.
    + now apply NoDup_keys_dict_set.
    + apply Forall_dict_set; [|assumption].
      apply dict_get_In in E. rewrite Forall_forall in inv_arena0.
      apply (inv_arena0 _ E).
  - destruct (negb (game_started s) && (2 <=? len (players s))); [|assumption].
    now apply invariant_start_game.
Qed.

Lemma keys_update_players s : keys (players (update_players s)) = keys (players s).
Proof. unfold update_players, keys. simpl. rewrite map_map. reflexivity. Qed.

Lemma keys_reset_game s : keys (players (reset_game s)) = keys (players s).
Proof. unfold reset_game, keys. simpl. rewrite map_map. reflexivity. Qed.

Lemma invariant_update_players s : invariant s -> invariant (update_players s).
Proof.
  intros []. constructor; try (simpl; auto; fail).
  - now rewrite keys_update_players.
  - simpl. apply Forall_forall. intros kv Hin. apply in_map_iff in Hin.
    destruct Hin as [kv' [<- _]]. simpl. apply update_position_in_arena.
Qed.

Lemma invariant_check_collisions s : invariant s -> invariant (check_collisions s).
Proof.
  apply check_collisions_ind.
  - intros s0 pid p [] Hin. constructor; simpl; auto.
    + now apply NoDup_keys_dict_set.
    + apply Forall_dict_set; [|assumption].
      rewrite Forall_forall in inv_arena0. apply (inv_arena0 _ Hin).
  - intros s0 pid p [] Hm _ _. constructor; simpl; auto. congruence.
  - intros s0 cid []. constructor; simpl; auto.
    + now apply NoDup_keys_dict_del.
    + intros k Hk. apply inv_coins_logged0. eapply In_keys_dict_del; eauto.
    + intros Hst. rewrite (inv_idle0 Hst). reflexivity.
Qed.

Lemma invariant_spawn_phase current_time draws s :
  game_started s = true -> invariant s ->
  invariant (spawn_phase current_time draws s).
Proof.
  intros Hst Hi. unfold spawn_phase.
  destruct (negb (Qle_bool (current_time - last_coin_spawn s) COIN_SPAWN_INTERVAL));
    [|assumption].
  assert (Hloop :
    forall s0, game_started s0 = true -> invariant s0 ->
      game_started
        (fold_left (fun s d => if len (coins s) <? MAX_COINS then spawn_coin d s else s)
           draws s0) = true /\
      invariant
        (fold_left (fun s d => if len (coins s) <? MAX_COINS then spawn_coin d s else s)
           draws s0)).
  { induction draws as [|d draws IH]; intros s0 Hst0 Hi0; simpl; [auto|].
    apply IH; destruct (len (coins s0) <? MAX_COINS); auto.
    now apply invariant_spawn_coin. }
  assert (Hlast : forall s0, invariant s0 -> invariant (with_last_spawn s0 current_time)).
  { intros s0 []. constructor; simpl; auto. }
  apply Hlast. destruct (len (coins s) <? MAX_COINS); [|assumption].
  now apply Hloop.
Qed.

Lemma invariant_reset_game s : invariant s -> invariant (reset_game s).
Proof.
  intros []. constructor; try (simpl; auto; fail).
  - now rewrite keys_reset_game.
  - constructor.
  - intros k [].
  - simpl. apply Forall_forall. intros kv Hin. apply in_map_iff in Hin.
    destruct Hin as [kv' [<- Hin]]. simpl.
    rewrite Forall_forall in inv_arena0. apply (inv_arena0 _ Hin).
Qed.

Lemma check_collisions_started s : game_started (check_collisions s) = game_started s.
Proof.
  apply (check_collisions_ind (fun s' => game_started s' = game_started s));
    intros; simpl; auto.
Qed.

Lemma invariant_game_loop_body current_time draws s :
  game_started s = true -> invariant s ->
  invariant (game_loop_body current_time draws s).
Proof.
  intros Hst Hi. unfold game_loop_body. apply invariant_spawn_phase.
  - now rewrite check_collisions_started.
  - now apply invariant_check_collisions, invariant_update_players.
Qed.

Lemma invariant_broadcast closed s : invariant s -> invariant (broadcast closed s).
Proof.
  apply broadcast_ind. intros s0 pid [] _. constructor; simpl; auto.
  - now apply NoDup_keys_dict_del.
  - now apply Forall_dict_del.
Qed.

Lemma invariant_game_over_check closed_over s s' :
  invariant s -> game_over_check closed_over s = Some s' -> invariant s'.
Proof.
  intros Hi. unfold game_over_check.
  destruct (truthy (winner s)); [|now intros [= <-]].
  destruct (winner s) as [w|]; [|now intros [= <-]].
  destruct (dict_get w (players s)); [|discriminate].
  intros [= <-]. now apply invariant_reset_game, invariant_broadcast.
Qed.

Lemma invariant_step s e s' :
  event_ok e = true -> invariant s -> step s e = Some s' -> invariant s'.
Proof.
  intros Hok Hi. destruct e as [pid rx ry|pid|pid|pid m draws|now draws cs co]; simpl.
  - intros [= <-]. simpl in Hok. apply andb_prop in Hok. destruct Hok.
    now apply invariant_accept.
  - intros [= <-]. now apply invariant_finally.
  - intros [= <-]. now apply invariant_drop.
  - intros [= <-]. now apply invariant_handle_message.
  - unfold game_loop_tick. destruct (game_started s) eqn:Hst; simpl.
    + apply invariant_game_over_check.
      now apply invariant_broadcast, invariant_game_loop_body.
    + now intros [= <-].
Qed.

Lemma reachable_invariant t0 s : reachable t0 s -> invariant s.
Proof.
  induction 1 as [|s e s' _ IH Hok Hstep].
  - apply invariant_init.
  - eapply invariant_step; eauto.
Qed.

(** ** Positions stay inside the arena *)

(** C4.  [update_position] leaves the player with [15 <= x <= 585] and
    [15 <= y <= 385] whatever its position and velocity were; a player
    created by [Player.__init__] from draws in the [randint] ranges lies in
    the same box; and so does every player of every reachable state. *)
Theorem C4_position_in_arena :
  (forall p, in_arena p <->
     15 <= Player.x p <= 585 /\ 15 <= Player.y p <= 385) /\
  (forall p, in_arena (fst (Player.update_position p))) /\
  (forall player_id name color rx ry,
     in_range PLAYER_SIZE (SCREEN_WIDTH - PLAYER_SIZE) rx = true ->
     in_range PLAYER_SIZE (SCREEN_HEIGHT - PLAYER_SIZE) ry = true ->
     in_arena (Player.init player_id name color rx ry)) /\
  (forall t0 s player_id p,
     reachable t0 s -> dict_get player_id (players s) = Some p -> in_arena p).
Proof.
  split; [|split; [|split]].
  - intros p. unfold in_arena, PLAYER_SIZE, SCREEN_WIDTH, SCREEN_HEIGHT.
    change (30 / 2) with 15. lia.
  - apply update_position_in_arena.
  - apply init_in_arena.
  - intros t0 s pid p Hr Hg. apply reachable_invariant in Hr.
    destruct Hr as [_ _ _ _ _ Harena _ _]. rewrite Forall_forall in Harena.
    apply dict_get_In in Hg. apply (Harena _ Hg).
Qed.

(** The first player of a fresh server, created in a corner of the draw range. *)
Lemma C4_position_in_arena_witness :
  in_arena (Player.init "140230" "Alice" [255; 100; 100] 30 370).
Proof.
  apply (proj2 (proj2 (proj2 C4_position_in_arena)) 0%Q
           (fst (handle_client_accept "140230" 30 370 (init_server 0%Q)))
           "140230").
  - apply (reach_step 0%Q (init_server 0%Q) (Connect "140230" 30 370)).
    + apply reach_init.
    + reflexivity.
    + reflexivity.
  - reflexivity.
Defined.

(** ** The reset after a game-over *)

Lemma reset_game_players s : Forall2 score_zeroed (players s) (players (reset_game s)).
Proof.
  unfold reset_game. simpl. induction (players s) as [|kv ps IH]; simpl.
  - constructor.
  - constructor; [|exact IH]. unfold score_zeroed. simpl. tauto.
Qed.

(** C10.  The reset of lines 284-288, in whatever state it is run: afterwards
    [game_started] is false, the winner is [None] and the coin set is
    empty; the players are the same, in the same order, each with its key,
    id, name, colour, position and velocity and with score 0; and the game
    mode, the coin-id counter, the spawn timer and the player counter are
    left as they were. *)
Theorem C10_game_over_reset_frame s :
  game_started (reset_game s) = false /\
  winner (reset_game s) = None /\
  coins (reset_game s) = [] /\
  Forall2 score_zeroed (players s) (players (reset_game s)) /\
  game_mode (reset_game s) = game_mode s /\
  next_coin_id (reset_game s) = next_coin_id s /\
  last_coin_spawn (reset_game s) = last_coin_spawn s /\
  player_count (reset_game s) = player_count s.
Proof.
  repeat split; try reflexivity. apply reset_game_players.
Qed.

(** ** The welcome message *)

(** C8.  The welcome message of an accepted connection has exactly the keys
    [type], [player_id] and [player_data]: the assigned id and the snapshot
    of the player just stored; it carries no [simulated_latency] entry. *)
Theorem C8_welcome_message_fields :
  forall player_id rx ry s,
    let s' := fst (handle_client_accept player_id rx ry s) in
    let msg := snd (handle_client_accept player_id rx ry s) in
    keys msg = ["type"; "player_id"; "player_data"] /\
    dict_get "type" msg = Some (JStr "welcome") /\
    dict_get "player_id" msg = Some (JStr player_id) /\
    (exists player,
        In (player_id, player) (players s') /\
        dict_get "player_data" msg = Some (JDict (Player.to_dict player))) /\
    dict_get "simulated_latency" msg = None.
Proof.
  intros pid rx ry s. unfold handle_client_accept.
  destruct (player_count s =? 0); simpl;
    (repeat split; try reflexivity;
     eexists; split; [apply In_dict_set|reflexivity]).
Qed.

(** ** Session capacity *)

Lemma len_dict_set_new {V : Type} (k : string) (v : V) (d : dict string V) :
  ~ In k (keys d) -> len (dict_set k v d) = len d + 1.
Proof.
  intros Hn. rewrite keys_dict_set_new by assumption.
  unfold len. rewrite length_app. simpl. lia.
Qed.

Lemma lobby_of_two_reachable : reachable 0%Q lobby_of_two.
Proof.
  apply (reach_step 0%Q lobby_of_one (Connect "140231" 570 30) lobby_of_two);
    [|reflexivity|reflexivity].
  apply (reach_step 0%Q (init_server 0%Q) (Connect "140230" 30 370) lobby_of_one);
    [apply reach_init|reflexivity|reflexivity].
Qed.

Lemma lobby_of_three_reachable : reachable 0%Q lobby_of_three.
Proof.
  apply (reach_step 0%Q lobby_of_two (Connect "140232" 300 200) lobby_of_three);
    [apply lobby_of_two_reachable|reflexivity|reflexivity].
Qed.

(** A third connection to a full lobby is accepted and stored. *)
Lemma C2_third_connection_counterexample :
  reachable 0%Q lobby_of_two /\
  len (players lobby_of_two) = 2 /\
  step lobby_of_two (Connect "140232" 300 200) = Some lobby_of_three /\
  reachable 0%Q lobby_of_three /\
  len (players lobby_of_three) = 3 /\
  keys (players lobby_of_three) = ["140230"; "140231"; "140232"].
Proof.
  split; [apply lobby_of_two_reachable|].
  split; [reflexivity|]. split; [reflexivity|].
  split; [apply lobby_of_three_reachable|split; reflexivity].
Qed.

(** C2, amended.  [handle_client] has no capacity test: a connection whose
    id is not in use is stored as a new player whatever the number of
    players already connected, so the number of players grows by one; the
    players already there are kept, and from the second connection on the
    newcomer is named Bob. *)
Theorem C2_every_connection_is_accepted player_id rx ry s :
  ~ In player_id (keys (players s)) ->
  let s' := fst (handle_client_accept player_id rx ry s) in
  len (players s') = len (players s) + 1 /\
  player_count s' = player_count s + 1 /\
  players s' =
    (players s ++
     [(player_id,
       Player.init player_id
         (if player_count s =? 0 then "Alice" else "Bob")
         (if player_count s =? 0 then [255; 100; 100] else [100; 100; 255])
         rx ry)])%list.
Proof.
  intros Hfresh. unfold handle_client_accept.
  destruct (player_count s =? 0); simpl;
    (split; [now apply len_dict_set_new|]; split; [reflexivity|];
     now apply keys_dict_set_new).
Qed.

Lemma C2_every_connection_is_accepted_witness :
  len (players lobby_of_three) = len (players lobby_of_two) + 1.
Proof.
  apply (C2_every_connection_is_accepted "140232" 300 200 lobby_of_two).
  vm_compute. intros [H|[H|[]]]; discriminate H.
Defined.

(** ** Starting a game *)


Lemma spawn_coins_frame (draws : list (Z * Z)) s :
  let s' := fold_left (fun s d => spawn_coin d s) draws s in
  players s' = players s /\ game_started s' = game_started s /\
  game_mode s' = game_mode s /\ winner s' = winner s.
Proof.
  revert s. induction draws as [|d draws IH]; intros s; simpl; [tauto|].
  apply (IH (spawn_coin d s)).
Qed.




(** ** Coin identifiers *)

(** What the collision pass leaves alone. *)
Lemma check_collisions_frame s :
  next_coin_id (check_collisions s) = next_coin_id s /\
  spawn_log (check_collisions s) = spawn_log s /\
  game_mode (check_collisions s) = game_mode s /\
  last_coin_spawn (check_collisions s) = last_coin_spawn s /\
  player_count (check_collisions s) = player_count s.
Proof.
  apply (check_collisions_ind
           (fun s' => next_coin_id s' = next_coin_id s /\
                      spawn_log s' = spawn_log s /\
                      game_mode s' = game_mode s /\
                      last_coin_spawn s' = last_coin_spawn s /\
                      player_count s' = player_count s));
    intros; simpl; tauto.
Qed.

Lemma extends_refl l : extends l l.
Proof. exists []. now rewrite app_nil_r. Qed.

Lemma extends_trans l1 l2 l3 : extends l1 l2 -> extends l2 l3 -> extends l1 l3.
Proof. intros [a ->] [b ->]. exists (a ++ b)%list. now rewrite app_assoc. Qed.

Lemma later_refl s : later s s.
Proof. split; [apply extends_refl|lia]. Qed.

Lemma later_same s s' :
  spawn_log s' = spawn_log s -> next_coin_id s' = next_coin_id s -> later s s'.
Proof. intros Hl Hn. unfold later. rewrite Hl, Hn. split; [apply extends_refl|lia]. Qed.

Lemma later_trans s1 s2 s3 : later s1 s2 -> later s2 s3 -> later s1 s3.
Proof.
  intros [H1 H2] [H3 H4]. split; [eapply extends_trans; eauto|lia].
Qed.

Lemma spawn_coin_later draw s : later s (spawn_coin draw s).
Proof. split; simpl; [now exists [next_coin_id s]|lia]. Qed.

Lemma fold_later {A : Type} (f : GameServer -> A -> GameServer) (l : list A) s :
  (forall s a, later s (f s a)) -> later s (fold_left f l s).
Proof.
  intros Hf. revert s. induction l as [|a l IH]; intros s; simpl.
  - apply later_refl.
  - eapply later_trans; [apply Hf|apply IH].
Qed.

Lemma start_game_later mode draws s : later s (start_game mode draws s).
Proof.
  unfold start_game.
  apply (later_trans s (with_winner (with_started (with_mode s mode) true) None)).
  - now apply later_same.
  - apply (fold_later (fun s d => spawn_coin d s)). intros. apply spawn_coin_later.
Qed.

Lemma spawn_phase_later current_time draws s :
  later s (spawn_phase current_time draws s).
Proof.
  unfold spawn_phase.
  destruct (negb (Qle_bool (current_time - last_coin_spawn s) COIN_SPAWN_INTERVAL));
    [|apply later_refl].
  set (s1 := if len (coins s) <? MAX_COINS
             then fold_left
                    (fun s d => if len (coins s) <? MAX_COINS then spawn_coin d s else s)
                    draws s
             else s).
  apply (later_trans s s1); [|now apply later_same].
  subst s1. destruct (len (coins s) <? MAX_COINS); [|apply later_refl].
  apply fold_later. intros s0 d.
  destruct (len (coins s0) <? MAX_COINS); [apply spawn_coin_later|apply later_refl].
Qed.

Lemma broadcast_later closed s : later s (broadcast closed s).
Proof.
  destruct (broadcast_fields closed s) as (_ & Hn & _ & _ & _ & _ & _ & Hl).
  now apply later_same.
Qed.

Lemma game_over_check_later closed_over s s' :
  game_over_check closed_over s = Some s' -> later s s'.
Proof.
  unfold game_over_check. destruct (truthy (winner s)); [|intros [= <-]; apply later_refl].
  destruct (winner s) as [w|]; [|intros [= <-]; apply later_refl].
  destruct (dict_get w (players s)); [|discriminate].
  intros [= <-]. apply (later_trans s (broadcast closed_over s)).
  - apply broadcast_later.
  - now apply later_same.
Qed.

Lemma step_later s e s' : step s e = Some s' -> later s s'.
Proof.
  destruct e as [pid rx ry|pid|pid|pid m draws|now draws cs co]; simpl.
  - intros [= <-]. unfold handle_client_accept.
    destruct (player_count s =? 0); now apply later_same.
  - intros [= <-]. unfold handle_client_finally.
    destruct (dict_mem pid (players s)); now apply later_same.
  - intros [= <-]. unfold broadcast_drop.
    destruct (dict_mem pid (players s)); now apply later_same.
  - intros [= <-]. destruct m as [|dx dy|mode|]; simpl; try apply later_refl.
    + destruct (dict_get pid (players s)); now apply later_same.
    + destruct (negb (game_started s) && (2 <=? len (players s)));
        [apply start_game_later|apply later_refl].
  - unfold game_loop_tick. destruct (game_started s); simpl; [|intros [= <-]; apply later_refl].
    intros Hgo. apply game_over_check_later in Hgo.
    eapply later_trans; [|exact Hgo].
    eapply later_trans; [|apply broadcast_later]. unfold game_loop_body.
    eapply later_trans; [|apply spawn_phase_later].
    destruct (check_collisions_frame (update_players s)) as (Hn & Hl & _).
    now apply later_same.
Qed.

(** C5.  In every reachable state the ids handed out so far, in the order
    [spawn_coin] handed them out, are strictly increasing and all below the
    counter; every coin in play carries one of them, so its id is below the
    counter too.  [spawn_coin] stores its coin under the current counter,
    logs that id and moves the counter up by one.  Every event only appends
    to the log and never lowers the counter, and the game-over reset keeps
    both, so an id once handed out is never handed out again, whether or
    not its coin is still there. *)
Theorem C5_coin_ids_strictly_increasing t0 s :
  reachable t0 s ->
  StronglySorted Z.lt (spawn_log s) /\
  NoDup (spawn_log s) /\
  Forall (fun k => k < next_coin_id s) (spawn_log s) /\
  incl (keys (coins s)) (spawn_log s) /\
  (forall draw,
     In (next_coin_id s, Coin.init (next_coin_id s) (fst draw) (snd draw))
        (coins (spawn_coin draw s)) /\
     spawn_log (spawn_coin draw s) = (spawn_log s ++ [next_coin_id s])%list /\
     next_coin_id (spawn_coin draw s) = next_coin_id s + 1) /\
  Forall (fun k => k < next_coin_id s) (keys (coins s)) /\
  (forall e s',
     step s e = Some s' ->
     extends (spawn_log s) (spawn_log s') /\ next_coin_id s <= next_coin_id s') /\
  next_coin_id (reset_game s) = next_coin_id s /\
  spawn_log (reset_game s) = spawn_log s.
Proof.
  intros Hr. apply reachable_invariant in Hr.
  destruct Hr as [_ _ Hlogged Hsorted Hbelow _ _ _].
  split; [assumption|]. split.
  { clear Hbelow Hlogged. induction Hsorted as [|a l _ IH Ha]; constructor; [|assumption].
    intros Hin. rewrite Forall_forall in Ha. specialize (Ha _ Hin). lia. }
  split; [assumption|]. split; [assumption|]. split.
  { intros draw. split; [apply In_dict_set|]. split; reflexivity. }
  split.
  { apply Forall_forall. intros k Hk. apply Hlogged in Hk.
    rewrite Forall_forall in Hbelow. now apply Hbelow. }
  split; [intros e s'; apply step_later|]. split; reflexivity.
Qed.

Lemma sprint_of_two_reachable : reachable 0%Q sprint_of_two.
Proof.
  apply (reach_step 0%Q lobby_of_two
           (Receive "140230" (MStartGame (Some "sprint"))
              [(100, 100); (200, 200); (300, 300)])
           sprint_of_two);
    [apply lobby_of_two_reachable|reflexivity|reflexivity].
Qed.

Lemma C5_coin_ids_strictly_increasing_witness :
  StronglySorted Z.lt (spawn_log sprint_of_two) /\ spawn_log sprint_of_two = [0; 1; 2].
Proof.
  split; [|reflexivity].
  apply (C5_coin_ids_strictly_increasing 0%Q sprint_of_two sprint_of_two_reachable).
Defined.

(** ** When a winner is set *)

Lemma check_collisions_winner_cases s :
  NoDup (keys (players s)) ->
  winner (check_collisions s) = winner s \/
  (game_mode s = "sprint" /\
   exists player_id player,
     winner (check_collisions s) = Some player_id /\
     dict_get player_id (players (check_collisions s)) = Some player /\
     SPRINT_WIN_SCORE <= Player.score player).
Proof.
  intros Hnd.
  assert (Hgoal :
    NoDup (keys (players (check_collisions s))) /\
    game_mode (check_collisions s) = game_mode s /\
    (winner (check_collisions s) = winner s \/
     (game_mode s = "sprint" /\
      exists player_id player,
        winner (check_collisions s) = Some player_id /\
        dict_get player_id (players (check_collisions s)) = Some player /\
        SPRINT_WIN_SCORE <= Player.score player)));
    [|tauto].
  apply (check_collisions_ind
           (fun s' =>
              NoDup (keys (players s')) /\
              game_mode s' = game_mode s /\
              (winner s' = winner s \/
               (game_mode s = "sprint" /\
                exists player_id player,
                  winner s' = Some player_id /\
                  dict_get player_id (players s') = Some player /\
                  SPRINT_WIN_SCORE <= Player.score player)))).
  - intros s0 pid p (Hnd0 & Hm & Hw) Hin. simpl.
    split; [now apply NoDup_keys_dict_set|]. split; [assumption|].
    destruct Hw as [Hw|(Hs & w & pw & Hw & Hget & Hsc)]; [now left|right].
    split; [assumption|].
    destruct (string_dec w pid) as [->|Hne].
    + exists pid, (Player.with_score p (Player.score p + 1)).
      split; [assumption|]. split; [now apply dict_get_set_same|].
      apply (In_dict_get _ _ _ Hnd0) in Hin. rewrite Hin in Hget.
      injection Hget as <-. simpl. lia.
    + exists w, pw. split; [assumption|]. split; [|assumption].
      now rewrite dict_get_set_other.
  - intros s0 pid p (Hnd0 & Hm & _) Hmode Hin Hsc. simpl.
    split; [assumption|]. split; [assumption|]. right.
    split; [congruence|]. exists pid, p.
    split; [reflexivity|]. split; [now apply In_dict_get|assumption].
  - intros s0 cid H0. exact H0.
  - auto.
Qed.

Lemma check_collisions_not_sprint s :
  game_mode s <> "sprint" -> winner (check_collisions s) = winner s.
Proof.
  intros Hm.
  apply (check_collisions_ind
           (fun s' => game_mode s' = game_mode s /\ winner s' = winner s)).
  - intros; simpl; tauto.
  - intros s0 pid p [Hm0 _] Hs. congruence.
  - intros; simpl; tauto.
  - auto.
Qed.

Lemma spawn_phase_frame current_time draws s :
  players (spawn_phase current_time draws s) = players s /\
  winner (spawn_phase current_time draws s) = winner s /\
  game_mode (spawn_phase current_time draws s) = game_mode s /\
  game_started (spawn_phase current_time draws s) = game_started s.
Proof.
  unfold spawn_phase.
  destruct (negb (Qle_bool (current_time - last_coin_spawn s) COIN_SPAWN_INTERVAL));
    [|tauto].
  destruct (len (coins s) <? MAX_COINS); simpl; [|tauto].
  generalize s. induction draws as [|d draws IH]; intros s0; simpl; [tauto|].
  destruct (len (coins s0) <? MAX_COINS); [|apply IH].
  destruct (IH (spawn_coin d s0)) as (-> & -> & -> & ->). tauto.
Qed.

Lemma game_loop_body_not_sprint current_time draws s :
  game_mode s <> "sprint" ->
  winner (game_loop_body current_time draws s) = winner s /\
  game_mode (game_loop_body current_time draws s) = game_mode s /\
  game_started (game_loop_body current_time draws s) = game_started s.
Proof.
  intros Hm. unfold game_loop_body.
  destruct (spawn_phase_frame current_time draws (check_collisions (update_players s)))
    as (_ & -> & -> & ->).
  rewrite check_collisions_not_sprint by exact Hm.
  destruct (check_collisions_frame (update_players s)) as (_ & _ & -> & _).
  rewrite check_collisions_started. tauto.
Qed.

Lemma playing_without_win_step s e s' :
  playing_without_win s -> step s e = Some s' ->
  playing_without_win s' /\ game_mode s' = game_mode s.
Proof.
  intros (Hst & Hm & Hw). unfold playing_without_win.
  destruct e as [pid rx ry|pid|pid|pid m draws|now draws cs co]; simpl.
  - intros [= <-]. unfold handle_client_accept.
    destruct (player_count s =? 0); simpl; tauto.
  - intros [= <-]. unfold handle_client_finally.
    destruct (dict_mem pid (players s)); simpl; tauto.
  - intros [= <-]. unfold broadcast_drop.
    destruct (dict_mem pid (players s)); simpl; tauto.
  - intros [= <-]. destruct m as [|dx dy|mode|]; simpl; try tauto.
    + destruct (dict_get pid (players s)); simpl; tauto.
    + rewrite Hst. simpl. tauto.
  - unfold game_loop_tick. rewrite Hst. simpl.
    destruct (game_loop_body_not_sprint now draws s Hm) as (Hw' & Hm' & Hst').
    destruct (broadcast_fields cs (game_loop_body now draws s))
      as (_ & _ & Hbs & Hbm & Hbw & _).
    unfold game_over_check. rewrite Hbw, Hw', Hw. simpl.
    intros [= <-]. rewrite Hbw, Hbm, Hbs, Hw', Hm', Hst'. tauto.
Qed.

Lemma playing_without_win_run es : forall s s',
  playing_without_win s -> run s es = Some s' ->
  playing_without_win s' /\ game_mode s' = game_mode s.
Proof.
  induction es as [|e es IH]; intros s s' Hp; simpl.
  - intros [= <-]. tauto.
  - destruct (step s e) as [s1|] eqn:E; [|discriminate].
    intros Hrun. destruct (playing_without_win_step s e s1 Hp E) as [Hp1 Hm1].
    destruct (IH s1 s' Hp1 Hrun) as [Hp' Hm']. split; [assumption|congruence].
Qed.

(** C6.  A collision pass changes the winner only in sprint mode, and then
    the new winner is a player whose score is at least [SPRINT_WIN_SCORE]
    (10).  In any other mode the pass leaves the winner as it was; a
    reachable state whose mode is not sprint has no winner; and a running
    game whose mode is not sprint stays running, in that mode and without a
    winner, through every sequence of events, whatever the scores. *)
Theorem C6_winner_only_in_sprint :
  SPRINT_WIN_SCORE = 10 /\
  (forall s,
     NoDup (keys (players s)) ->
     winner (check_collisions s) <> winner s ->
     game_mode s = "sprint" /\
     exists player_id player,
       winner (check_collisions s) = Some player_id /\
       dict_get player_id (players (check_collisions s)) = Some player /\
       SPRINT_WIN_SCORE <= Player.score player) /\
  (forall s,
     game_mode s <> "sprint" -> winner (check_collisions s) = winner s) /\
  (forall t0 s,
     reachable t0 s -> game_mode s <> "sprint" -> winner s = None) /\
  (forall s es s',
     game_started s = true -> game_mode s <> "sprint" -> winner s = None ->
     run s es = Some s' ->
     game_started s' = true /\ game_mode s' = game_mode s /\ winner s' = None).
Proof.
  split; [reflexivity|]. split; [|split; [|split]].
  - intros s Hnd Hne.
    destruct (check_collisions_winner_cases s Hnd) as [Heq|H]; [contradiction|exact H].
  - apply check_collisions_not_sprint.
  - intros t0 s Hr. apply reachable_invariant in Hr.
    destruct Hr as [_ _ _ _ _ _ _ Hendless]. exact Hendless.
  - intros s es s' Hst Hm Hw Hrun.
    destruct (playing_without_win_run es s s' (conj Hst (conj Hm Hw)) Hrun)
      as [(? & ? & ?) ?].
    tauto.
Qed.

(** With both players one point short in a sprint, the pass sets a winner
    whose score is 10. *)
Lemma C6_winner_only_in_sprint_witness :
  game_mode (update_players neck_and_neck) = "sprint" /\
  exists player_id player,
    winner (check_collisions (update_players neck_and_neck)) = Some player_id /\
    dict_get player_id (players (check_collisions (update_players neck_and_neck)))
      = Some player /\
    SPRINT_WIN_SCORE <= Player.score player.
Proof.
  apply (proj1 (proj2 C6_winner_only_in_sprint) (update_players neck_and_neck)).
  - vm_compute. repeat constructor; intros H; repeat (destruct H as [H|H]; try discriminate H); exact H.
  - vm_compute. discriminate.
Defined.

(** ** The pickups of a collision pass *)

Lemma with_score_same p : Player.with_score p (Player.score p) = p.
Proof. now destruct p. Qed.

Lemma with_score_twice p a b :
  Player.with_score (Player.with_score p a) b = Player.with_score p b.
Proof. reflexivity. Qed.

Lemma hit_fields player_id player s :
  players (hit player_id player s) =
    dict_set player_id (Player.with_score player (Player.score player + 1)) (players s) /\
  coins (hit player_id player s) = coins s /\
  game_mode (hit player_id player s) = game_mode s /\
  next_coin_id (hit player_id player s) = next_coin_id s /\
  winner (hit player_id player s) =
    if (game_mode s =? "sprint")%string
       && (SPRINT_WIN_SCORE <=? Player.score player + 1)
    then Some player_id else winner s.
Proof.
  unfold hit. simpl.
  destruct ((game_mode s =? "sprint")%string && (SPRINT_WIN_SCORE <=? Player.score player + 1));
    simpl; tauto.
Qed.

(** The scanning loops against the log. *)
Lemma scan_coins_log todo : forall s l,
  NoDup (keys (players s)) ->
  let log := pickups todo (players s) in
  let r := scan_coins todo (s, l) in
  snd r = (l ++ map pickup_coin log)%list /\
  coins (fst r) = coins s /\
  game_mode (fst r) = game_mode s /\
  next_coin_id (fst r) = next_coin_id s /\
  NoDup (keys (players (fst r))) /\
  winner (fst r) =
    (if (game_mode s =? "sprint")%string then winner_after log (winner s) else winner s) /\
  (forall player_id p,
     dict_get player_id (players s) = Some p ->
     dict_get player_id (players (fst r)) =
       Some (Player.with_score p (Player.score p + pickups_of player_id log))).
Proof.
  induction todo as [|[cid c] rest IH]; intros s l Hnd.
  - simpl. rewrite app_nil_r. repeat split; try assumption.
    + now destruct (game_mode s =? "sprint")%string.
    + intros pid p Hg. unfold pickups_of. simpl.
      now rewrite Z.add_0_r, with_score_same.
  - cbn [scan_coins fold_left fst snd pickups]. rewrite scan_players_first_hit.
    destruct (first_hit c (players s)) as [[pid p]|] eqn:E.
    + destruct (first_hit_In _ _ _ _ E) as [Hin _].
      destruct (hit_fields pid p s) as (Hp & Hc & Hm & Hn & Hw).
      assert (Hnd1 : NoDup (keys (players (hit pid p s)))).
      { rewrite Hp. now apply NoDup_keys_dict_set. }
      specialize (IH (hit pid p s) (l ++ [cid])%list Hnd1).
      cbv zeta in IH. fold (scan_coins rest (hit pid p s, (l ++ [cid])%list)) in *.
      rewrite Hp in IH.
      destruct IH as (I1 & I2 & I3 & I4 & I5 & I6 & I7).
      cbv zeta. split; [|split; [|split; [|split; [|split; [|split]]]]].
      * rewrite I1. simpl. now rewrite <- app_assoc.
      * congruence.
      * congruence.
      * congruence.
      * assumption.
      * rewrite I6, Hm, Hw. unfold winner_after. simpl.
        destruct (game_mode s =? "sprint")%string; reflexivity.
      * intros pid0 p0 Hg. unfold pickups_of. simpl.
        destruct (string_dec pid pid0) as [->|Hne].
        -- rewrite String.eqb_refl. simpl.
           apply (In_dict_get _ _ _ Hnd) in Hin. rewrite Hin in Hg. injection Hg as <-.
           rewrite (I7 pid0 (Player.with_score p (Player.score p + 1))).
           ++ rewrite with_score_twice. simpl. unfold pickups_of. f_equal. f_equal. lia.
           ++ now apply dict_get_set_same.
        -- apply String.eqb_neq in Hne. rewrite Hne.
           apply I7. rewrite dict_get_set_other; [assumption|].
           apply String.eqb_neq in Hne. congruence.
    + apply (IH s l Hnd).
Qed.

Lemma dict_del_filter {V : Type} (k : Z) (d : dict Z V) :
  NoDup (keys d) -> dict_del k d = filter (fun kv => negb (fst kv =? k)) d.
Proof.
  induction d as [|[k' v'] d IH]; intros Hnd; simpl; [reflexivity|].
  inversion Hnd as [|? ? Hni Hnd']; subst.
  rewrite (Z.eqb_sym k' k). destruct (k =? k') eqn:E; simpl.
  - apply Z.eqb_eq in E. subst k'. symmetry. apply forallb_filter_id.
    apply forallb_forall. intros [k2 v2] Hin. simpl.
    destruct (k2 =? k) eqn:E2; [|reflexivity].
    apply Z.eqb_eq in E2. subst k2. exfalso. apply Hni.
    change k with (fst (k, v2)). now apply in_map.
  - f_equal. now apply IH.
Qed.

Lemma NoDup_keys_filter {K V : Type} (f : K * V -> bool) (d : list (K * V)) :
  NoDup (map fst d) -> NoDup (map fst (filter f d)).
Proof.
  induction d as [|kv d IH]; intros Hnd; simpl; [constructor|].
  inversion Hnd as [|? ? Hni Hnd']; subst.
  destruct (f kv); simpl; [|now apply IH].
  constructor; [|now apply IH]. intros Hin. apply Hni.
  apply in_map_iff in Hin. destruct Hin as [kv' [Heq Hin]].
  apply filter_In in Hin. rewrite <- Heq. apply in_map. tauto.
Qed.

Lemma remove_coins_spec l : forall s,
  NoDup (keys (coins s)) ->
  coins (remove_coins l s) =
    filter (fun kv => negb (existsb (Z.eqb (fst kv)) l)) (coins s) /\
  players (remove_coins l s) = players s /\
  winner (remove_coins l s) = winner s /\
  game_mode (remove_coins l s) = game_mode s /\
  next_coin_id (remove_coins l s) = next_coin_id s.
Proof.
  induction l as [|cid l IH]; intros s Hnd.
  - simpl. repeat split. symmetry. apply forallb_filter_id.
    apply forallb_forall. reflexivity.
  - cbn [remove_coins fold_left].
    fold (remove_coins l
            (if dict_mem cid (coins s)
             then with_coins s (dict_del cid (coins s)) else s)).
    set (s1 := if dict_mem cid (coins s)
               then with_coins s (dict_del cid (coins s)) else s).
    assert (H1 : coins s1 = filter (fun kv => negb (fst kv =? cid)) (coins s) /\
                 players s1 = players s /\ winner s1 = winner s /\
                 game_mode s1 = game_mode s /\ next_coin_id s1 = next_coin_id s).
    { subst s1. destruct (dict_mem cid (coins s)) eqn:E; simpl.
      - split; [now apply dict_del_filter|tauto].
      - split; [|tauto]. symmetry. apply forallb_filter_id.
        apply forallb_forall. intros [k v] Hin. simpl.
        destruct (k =? cid) eqn:E2; [|reflexivity].
        apply Z.eqb_eq in E2. subst k. apply dict_mem_false in E.
        exfalso. apply E. change cid with (fst (cid, v)). now apply in_map. }
    destruct H1 as (Hc & Hp & Hw & Hm & Hn).
    assert (Hnd1 : NoDup (keys (coins s1))).
    { rewrite Hc. now apply NoDup_keys_filter. }
    destruct (IH s1 Hnd1) as (Ic & Ip & Iw & Im & In').
    split; [|repeat split; congruence].
    rewrite Ic, Hc. clear. induction (coins s) as [|[k v] d IHd]; simpl; [reflexivity|].
    destruct (k =? cid); simpl; [assumption|].
    destruct (existsb (Z.eqb k) l); simpl; [assumption|]. now f_equal.
Qed.

(** The collision pass against its log. *)
Lemma check_collisions_log s :
  NoDup (keys (players s)) -> NoDup (keys (coins s)) ->
  let log := pickups (coins s) (players s) in
  coins (check_collisions s) =
    filter (fun kv => negb (existsb (Z.eqb (fst kv)) (map pickup_coin log))) (coins s) /\
  winner (check_collisions s) =
    (if (game_mode s =? "sprint")%string then winner_after log (winner s) else winner s) /\
  next_coin_id (check_collisions s) = next_coin_id s /\
  (forall player_id p,
     dict_get player_id (players s) = Some p ->
     dict_get player_id (players (check_collisions s)) =
       Some (Player.with_score p (Player.score p + pickups_of player_id log))).
Proof.
  intros Hndp Hndc log. unfold check_collisions.
  pose proof (scan_coins_log (coins s) s [] Hndp) as Hscan. cbv zeta in Hscan.
  fold log in Hscan.
  destruct (scan_coins (coins s) (s, [])) as [s1 l1]. simpl in Hscan.
  destruct Hscan as (-> & Hc & Hm & Hn & Hnd1 & Hw & Hsc).
  assert (Hndc1 : NoDup (keys (coins s1))) by now rewrite Hc.
  destruct (remove_coins_spec (map pickup_coin log) s1 Hndc1) as (Rc & Rp & Rw & Rm & Rn).
  rewrite Rc, Rp, Rw, Rn, Hc, Hw, Hn. repeat split. assumption.
Qed.

Lemma run_reachable t0 es : forall s s',
  reachable t0 s -> forallb event_ok es = true -> run s es = Some s' ->
  reachable t0 s'.
Proof.
  induction es as [|e es IH]; intros s s' Hr Hok; simpl.
  - now intros [= <-].
  - simpl in Hok. apply andb_prop in Hok. destruct Hok as [Hok1 Hok2].
    destruct (step s e) as [s1|] eqn:E; [|discriminate].
    apply IH; [|assumption]. eapply reach_step; eauto.
Qed.

Lemma winner_after_app l1 l2 w :
  winner_after (l1 ++ l2) w = winner_after l2 (winner_after l1 w).
Proof. unfold winner_after. apply fold_left_app. Qed.

Lemma winner_after_below log w :
  Forall (fun e => pickup_score e < SPRINT_WIN_SCORE) log -> winner_after log w = w.
Proof.
  revert w. induction log as [|e log IH]; intros w Hall; [reflexivity|].
  inversion Hall as [|? ? He Hall']; subst. unfold winner_after. simpl.
  apply Z.leb_gt in He. rewrite He. now apply IH.
Qed.

Lemma winner_after_last before e after w :
  SPRINT_WIN_SCORE <= pickup_score e ->
  Forall (fun e' => pickup_score e' < SPRINT_WIN_SCORE) after ->
  winner_after (before ++ e :: after) w = Some (pickup_player e).
Proof.
  intros He Hall. rewrite winner_after_app.
  change (e :: after) with ([e] ++ after)%list. rewrite winner_after_app.
  rewrite winner_after_below by assumption.
  unfold winner_after. simpl. apply Z.leb_le in He. now rewrite He.
Qed.

Lemma removed_coin_absent (ids : list Z) {V : Type} (d : dict Z V) cid :
  In cid ids ->
  ~ In cid (keys (filter (fun kv => negb (existsb (Z.eqb (fst kv)) ids)) d)).
Proof.
  intros Hin Hk. unfold keys in Hk. apply in_map_iff in Hk.
  destruct Hk as [kv [<- Hf]]. apply filter_In in Hf. destruct Hf as [_ Hf].
  apply negb_true_iff in Hf.
  assert (Ht : existsb (Z.eqb (fst kv)) ids = true).
  { apply existsb_exists. exists (fst kv). split; [assumption|apply Z.eqb_refl]. }
  congruence.
Qed.

(** ** Who wins a sprint *)

Lemma neck_and_neck_run :
  run (init_server 0%Q) neck_and_neck_events = Some neck_and_neck.
Proof. vm_compute. reflexivity. Qed.

Lemma neck_and_neck_reachable : reachable 0%Q neck_and_neck.
Proof.
  apply (run_reachable 0%Q neck_and_neck_events (init_server 0%Q)).
  - apply reach_init.
  - reflexivity.
  - apply neck_and_neck_run.
Qed.

(** In the next pass Alice, first in iteration order, reaches 10 on coin 19
    and is made the winner; the pass goes on, Bob collects coin 20, reaches
    10 as well and replaces her. *)
Lemma C1_later_pickup_replaces_winner_counterexample :
  let s := update_players neck_and_neck in
  reachable 0%Q neck_and_neck /\
  game_mode s = "sprint" /\
  keys (players s) = ["140230"; "140231"] /\
  winner (fst (scan_coins [(0, Coin.mk 0 300 200); (19, Coin.mk 19 30 370)] (s, [])))
    = Some "140230" /\
  winner (check_collisions s) = Some "140231" /\
  pickups (coins s) (players s)
    = [mkPickup 19 "140230" 10; mkPickup 20 "140231" 10] /\
  option_map Player.score (dict_get "140231" (players (check_collisions s))) = Some 10 /\
  keys (coins (check_collisions s)) = [0].
Proof.
  cbv zeta. split; [apply neck_and_neck_reachable|].
  vm_compute. repeat split; reflexivity.
Qed.

(** C1, amended.  In sprint mode the winner after a pass is the winner
    before it, updated by each pickup of the pass in turn: a pickup that
    brings its collector to [SPRINT_WIN_SCORE] or more makes that player the
    winner.  Setting the winner does not end the pass: every pickup of the
    log is carried out (its collector's score is raised, its coin removed),
    so the winner after the pass is the collector of the last pickup, in
    coin iteration order, that reached the threshold, and the winner is
    unchanged when no pickup reached it. *)
Theorem C1_last_threshold_pickup_wins s :
  NoDup (keys (players s)) ->
  NoDup (keys (coins s)) ->
  game_mode s = "sprint" ->
  let log := pickups (coins s) (players s) in
  let s' := check_collisions s in
  winner s' = winner_after log (winner s) /\
  (forall before e after,
      log = (before ++ e :: after)%list ->
      SPRINT_WIN_SCORE <= pickup_score e ->
      Forall (fun e' => pickup_score e' < SPRINT_WIN_SCORE) after ->
      winner s' = Some (pickup_player e)) /\
  (Forall (fun e => pickup_score e < SPRINT_WIN_SCORE) log -> winner s' = winner s) /\
  (forall player_id p,
      dict_get player_id (players s) = Some p ->
      dict_get player_id (players s') =
        Some (Player.with_score p (Player.score p + pickups_of player_id log))) /\
  (forall e, In e log -> ~ In (pickup_coin e) (keys (coins s'))).
Proof.
  intros Hndp Hndc Hmode log s'.
  destruct (check_collisions_log s Hndp Hndc) as (Hc & Hw & _ & Hsc).
  fold log in Hc, Hw, Hsc. fold s' in Hc, Hw, Hsc.
  rewrite Hmode in Hw. simpl in Hw.
  split; [assumption|]. split; [|split; [|split]].
  - intros before e after Hlog He Hafter. rewrite Hw, Hlog.
    now apply winner_after_last.
  - intros Hall. rewrite Hw. now apply winner_after_below.
  - assumption.
  - intros e Hin. rewrite Hc. apply removed_coin_absent.
    now apply in_map.
Qed.

Lemma NoDup_two_players :
  NoDup ["140230"; "140231"].
Proof.
  constructor; [|constructor; [|constructor]]; simpl.
  - intros [H|[]]. discriminate H.
  - tauto.
Qed.

Lemma C1_last_threshold_pickup_wins_witness :
  winner (check_collisions (update_players neck_and_neck)) = Some "140231".
Proof.
  assert (Hnd : NoDup (keys (coins (update_players neck_and_neck)))).
  { change (NoDup [0; 19; 20]).
    constructor; [|constructor; [|constructor; [|constructor]]]; simpl; lia. }
  apply (proj1 (proj2 (C1_last_threshold_pickup_wins (update_players neck_and_neck)
                         NoDup_two_players Hnd eq_refl))
           [mkPickup 19 "140230" 10] (mkPickup 20 "140231" 10) []).
  - reflexivity.
  - vm_compute. discriminate.
  - constructor.
Defined.

(** ** Pickups, scores and removed coins *)

Lemma collides_distance player coin :
  collides player coin = true <-> (distance player coin < 25)%R.
Proof.
  unfold collides, distance, COLLISION_DISTANCE, PLAYER_SIZE, COIN_SIZE.
  set (n := (Player.x player - Coin.x coin) * (Player.x player - Coin.x coin)
            + (Player.y player - Coin.y coin) * (Player.y player - Coin.y coin)).
  change ((30 + 20) / 2 * ((30 + 20) / 2)) with 625.
  assert (Hn : 0 <= n).
  { subst n.
    pose proof (Z.square_nonneg (Player.x player - Coin.x coin)).
    pose proof (Z.square_nonneg (Player.y player - Coin.y coin)). lia. }
  assert (H25 : R_sqrt.sqrt 625 = 25%R).
  { replace 625%R with (25 * 25)%R by lra. apply R_sqrt.sqrt_square. lra. }
  rewrite Z.ltb_lt. split.
  - intros Hlt. rewrite <- H25. apply R_sqrt.sqrt_lt_1_alt. split.
    + apply IZR_le. assumption.
    + apply IZR_lt. assumption.
  - intros Hlt. rewrite <- H25 in Hlt. apply R_sqrt.sqrt_lt_0_alt in Hlt.
    now apply lt_IZR.
Qed.

Lemma first_hit_spec coin ps player_id player :
  first_hit coin ps = Some (player_id, player) <->
  exists before after,
    ps = (before ++ (player_id, player) :: after)%list /\
    collides player coin = true /\
    Forall (fun kv => collides (snd kv) coin = false) before.
Proof.
  induction ps as [|[k v] ps IH]; simpl.
  - split; [discriminate|]. intros (before & after & Heq & _).
    destruct before; discriminate.
  - destruct (collides v coin) eqn:E.
    + split.
      * intros [= <- <-]. exists [], ps. repeat split; [assumption|constructor].
      * intros (before & after & Heq & Hc & Hall).
        destruct before as [|[k' v'] before]; simpl in Heq.
        -- now injection Heq as -> ->.
        -- injection Heq as -> -> _. inversion Hall as [|? ? Hf _]; subst.
           simpl in Hf. congruence.
    + rewrite IH. split.
      * intros (before & after & -> & Hc & Hall).
        exists ((k, v) :: before), after. repeat split; [assumption|].
        constructor; assumption.
      * intros (before & after & Heq & Hc & Hall).
        destruct before as [|[k' v'] before]; simpl in Heq.
        -- injection Heq as -> ->. congruence.
        -- injection Heq as -> -> ->. inversion Hall; subst.
           exists before, after. repeat split; assumption.
Qed.

Lemma first_hit_places coin : forall ps ps',
  map place ps = map place ps' ->
  option_map fst (first_hit coin ps) = option_map fst (first_hit coin ps').
Proof.
  induction ps as [|[k v] ps IH]; intros [|[k' v'] ps'] Heq; try discriminate;
    [reflexivity|].
  simpl in Heq. injection Heq as Hk Hx Hy Hrest. simpl.
  assert (Hc : collides v coin = collides v' coin).
  { unfold collides. now rewrite Hx, Hy. }
  rewrite Hc. destruct (collides v' coin); simpl; [now subst|now apply IH].
Qed.

Lemma places_dict_set player_id p n : forall ps,
  NoDup (keys ps) -> In (player_id, p) ps ->
  map place (dict_set player_id (Player.with_score p n) ps) = map place ps.
Proof.
  induction ps as [|[k v] ps IH]; intros Hnd Hin; [destruct Hin|].
  inversion Hnd as [|? ? Hni Hnd']; subst. simpl.
  destruct (player_id =? k)%string eqn:E.
  - apply String.eqb_eq in E. subst k. simpl. f_equal.
    destruct Hin as [Heq|Hin].
    + now injection Heq as ->.
    + exfalso. apply Hni. change player_id with (fst (player_id, p)). now apply in_map.
  - simpl. f_equal. apply IH; [assumption|].
    destruct Hin as [Heq|Hin]; [|assumption].
    injection Heq as -> _. now rewrite String.eqb_refl in E.
Qed.

Lemma pickups_collected todo : forall ps ps0,
  NoDup (keys ps) -> map place ps = map place ps0 ->
  map (fun e => (pickup_coin e, pickup_player e)) (pickups todo ps) = collected todo ps0.
Proof.
  induction todo as [|[cid c] rest IH]; intros ps ps0 Hnd Hpl; [reflexivity|].
  simpl. pose proof (first_hit_places c ps ps0 Hpl) as Hsame.
  destruct (first_hit c ps) as [[pid p]|] eqn:E;
    destruct (first_hit c ps0) as [[pid0 p0]|] eqn:E0; simpl in Hsame; try discriminate.
  - injection Hsame as <-. simpl. f_equal. apply IH.
    + now apply NoDup_keys_dict_set.
    + rewrite places_dict_set; [assumption|assumption|].
      now apply first_hit_In in E.
  - now apply IH.
Qed.

Lemma collected_coin_In todo ps coin_id player_id :
  In (coin_id, player_id) (collected todo ps) <->
  exists coin p, In (coin_id, coin) todo /\ first_hit coin ps = Some (player_id, p).
Proof.
  unfold collected. rewrite in_flat_map. split.
  - intros ([k c] & Hin & Hm). simpl in Hm.
    destruct (first_hit c ps) as [[pid p]|] eqn:E; [|destruct Hm].
    destruct Hm as [Heq|[]]. injection Heq as -> ->. eauto.
  - intros (c & p & Hin & Hf). exists (coin_id, c). split; [assumption|].
    simpl. rewrite Hf. now left.
Qed.

Lemma NoDup_collected todo ps :
  NoDup (map fst todo) -> NoDup (map fst (collected todo ps)).
Proof.
  induction todo as [|[cid c] rest IH]; intros Hnd; simpl; [constructor|].
  inversion Hnd as [|? ? Hni Hnd']; subst.
  destruct (first_hit c ps) as [[pid p]|]; simpl; [|now apply IH].
  constructor; [|now apply IH].
  intros Hin. apply Hni. apply in_map_iff in Hin.
  destruct Hin as [[k q] [Hk Hin]]. simpl in Hk. subst k.
  apply collected_coin_In in Hin. destruct Hin as (c' & p' & Hin & _).
  change cid with (fst (cid, c')). now apply in_map.
Qed.

Lemma gone_spawn_coin coin_id draw s : gone coin_id s -> gone coin_id (spawn_coin draw s).
Proof.
  intros [Hlt Hni]. split; simpl; [lia|].
  intros Hin. unfold keys in Hin. apply in_map_iff in Hin.
  destruct Hin as [kv [Hk Hin]]. apply In_dict_set_inv in Hin.
  destruct Hin as [->|Hin].
  - simpl in Hk. lia.
  - apply Hni. rewrite <- Hk. now apply in_map.
Qed.

Lemma gone_fold {A : Type} coin_id (f : GameServer -> A -> GameServer) (l : list A) :
  (forall s a, gone coin_id s -> gone coin_id (f s a)) ->
  forall s, gone coin_id s -> gone coin_id (fold_left f l s).
Proof.
  intros Hf. induction l as [|a l IH]; intros s Hs; simpl; [assumption|].
  apply IH. now apply Hf.
Qed.

Lemma gone_check_collisions coin_id s :
  gone coin_id s -> gone coin_id (check_collisions s).
Proof.
  apply check_collisions_ind.
  - intros s0 pid p H0 _. exact H0.
  - intros s0 pid p H0 _ _ _. exact H0.
  - intros s0 cid [Hlt Hni]. split; simpl; [assumption|].
    intros Hin. apply Hni. eapply In_keys_dict_del; eauto.
Qed.

Lemma gone_spawn_phase coin_id current_time draws s :
  gone coin_id s -> gone coin_id (spawn_phase current_time draws s).
Proof.
  intros Hg. unfold spawn_phase.
  destruct (negb (Qle_bool (current_time - last_coin_spawn s) COIN_SPAWN_INTERVAL));
    [|assumption].
  assert (Hlast : forall s0, gone coin_id s0 -> gone coin_id (with_last_spawn s0 current_time))
    by (intros s0 H0; exact H0).
  apply Hlast. destruct (len (coins s) <? MAX_COINS); [|assumption].
  apply gone_fold; [|assumption].
  intros s0 d H0. destruct (len (coins s0) <? MAX_COINS); [|assumption].
  now apply gone_spawn_coin.
Qed.

Lemma gone_broadcast coin_id closed s :
  gone coin_id s -> gone coin_id (broadcast closed s).
Proof.
  destruct (broadcast_fields closed s) as (Hc & Hn & _).
  unfold gone. now rewrite Hc, Hn.
Qed.

Lemma gone_game_over_check coin_id closed_over s s' :
  gone coin_id s -> game_over_check closed_over s = Some s' -> gone coin_id s'.
Proof.
  intros Hg. unfold game_over_check.
  destruct (truthy (winner s)); [|now intros [= <-]].
  destruct (winner s) as [w|]; [|now intros [= <-]].
  destruct (dict_get w (players s)); [|discriminate].
  intros [= <-]. apply (gone_broadcast coin_id closed_over) in Hg.
  destruct Hg as [Hlt _]. split; simpl; [assumption|tauto].
Qed.

Lemma gone_step coin_id s e s' :
  gone coin_id s -> step s e = Some s' -> gone coin_id s'.
Proof.
  intros Hg. destruct e as [pid rx ry|pid|pid|pid m draws|now draws cs co]; simpl.
  - intros [= <-]. unfold handle_client_accept.
    destruct (player_count s =? 0); exact Hg.
  - intros [= <-]. unfold handle_client_finally.
    destruct (dict_mem pid (players s)); exact Hg.
  - intros [= <-]. unfold broadcast_drop.
    destruct (dict_mem pid (players s)); exact Hg.
  - intros [= <-]. destruct m as [|dx dy|mode|]; simpl; try exact Hg.
    + destruct (dict_get pid (players s)); exact Hg.
    + destruct (negb (game_started s) && (2 <=? len (players s))); [|exact Hg].
      unfold start_game. apply gone_fold; [|exact Hg].
      intros s0 d. apply gone_spawn_coin.
  - unfold game_loop_tick. destruct (game_started s); simpl; [|now intros [= <-]].
    apply gone_game_over_check. apply gone_broadcast. unfold game_loop_body.
    apply gone_spawn_phase, gone_check_collisions. exact Hg.
Qed.

Lemma gone_run coin_id es : forall s s',
  gone coin_id s -> run s es = Some s' -> gone coin_id s'.
Proof.
  induction es as [|e es IH]; intros s s' Hg; simpl.
  - now intros [= <-].
  - destruct (step s e) as [s1|] eqn:E; [|discriminate].
    apply IH. eapply gone_step; eauto.
Qed.

Lemma crowded_reachable : reachable 0%Q crowded.
Proof.
  apply (run_reachable 0%Q crowded_events (init_server 0%Q));
    [apply reach_init|reflexivity|reflexivity].
Qed.

(** Bob is 5 away from coin 0, yet the pair (Bob, coin 0) produces no
    pickup: Alice, iterated first, took the coin. *)
Lemma C3_second_player_in_reach_counterexample :
  let s := update_players crowded in
  let bob := Player.mk "140231" "Bob" 110 100 0 [100; 100; 255] 0 0 in
  let coin := Coin.mk 0 105 100 in
  reachable 0%Q crowded /\
  In (0, coin) (coins s) /\
  dict_get "140231" (players s) = Some bob /\
  (distance bob coin < 25)%R /\
  pickups (coins s) (players s) = [mkPickup 0 "140230" 1] /\
  dict_get "140231" (players (check_collisions s)) = Some bob.
Proof.
  cbv zeta. split; [apply crowded_reachable|].
  split; [now left|]. split; [reflexivity|].
  split; [now apply collides_distance|]. split; reflexivity.
Qed.

(** C3, amended.  In a pass over a well-formed state, the pair (player,
    coin) produces a pickup exactly when the player is strictly closer than
    25 to the coin and no player iterated before it is; the score of every
    player after the pass is the score before plus the number of its
    pickups; no coin is picked up twice; the coins left are the coins that
    were not picked up, in their order; and the id of a coin picked up is
    absent after the pass, below the counter, and absent from every state
    the session can reach afterwards. *)
Theorem C3_collision_pass s :
  NoDup (keys (players s)) ->
  NoDup (keys (coins s)) ->
  Forall (fun k => k < next_coin_id s) (keys (coins s)) ->
  let log := pickups (coins s) (players s) in
  let s' := check_collisions s in
  (forall player coin,
      collides player coin = true <-> (distance player coin < 25)%R) /\
  (forall coin_id player_id,
      (exists e, In e log /\ pickup_coin e = coin_id /\ pickup_player e = player_id) <->
      (exists coin before player after,
          In (coin_id, coin) (coins s) /\
          players s = (before ++ (player_id, player) :: after)%list /\
          (distance player coin < 25)%R /\
          Forall (fun kv => ~ (distance (snd kv) coin < 25)%R) before)) /\
  (forall player_id p,
      dict_get player_id (players s) = Some p ->
      dict_get player_id (players s') =
        Some (Player.with_score p (Player.score p + pickups_of player_id log))) /\
  NoDup (map pickup_coin log) /\
  coins s' =
    filter (fun kv => negb (existsb (Z.eqb (fst kv)) (map pickup_coin log))) (coins s) /\
  (forall e, In e log -> gone (pickup_coin e) s') /\
  (forall e current_time draws closed_state closed_over s1 es s2,
      In e log ->
      game_over_check closed_over
        (broadcast closed_state (spawn_phase current_time draws s')) = Some s1 ->
      run s1 es = Some s2 ->
      gone (pickup_coin e) s2).
Proof.
  intros Hndp Hndc Hbelow log s'.
  destruct (check_collisions_log s Hndp Hndc) as (Hc & _ & Hn & Hsc).
  fold log in Hc, Hsc. fold s' in Hc, Hn, Hsc.
  pose proof (pickups_collected (coins s) (players s) (players s) Hndp eq_refl) as Hcol.
  fold log in Hcol.
  assert (Hpairs : forall cid pid,
             (exists e, In e log /\ pickup_coin e = cid /\ pickup_player e = pid) <->
             In (cid, pid) (collected (coins s) (players s))).
  { intros cid pid. rewrite <- Hcol, in_map_iff. split.
    - intros (e & Hin & <- & <-). exists e. auto.
    - intros (e & Heq & Hin). injection Heq as <- <-. exists e. auto. }
  assert (Hgone : forall e, In e log -> gone (pickup_coin e) s').
  { intros e Hin. split.
    - rewrite Hn. rewrite Forall_forall in Hbelow. apply Hbelow.
      assert (Hp : In (pickup_coin e, pickup_player e) (collected (coins s) (players s))).
      { apply Hpairs. exists e. auto. }
      apply collected_coin_In in Hp. destruct Hp as (c & p & Hp & _).
      change (pickup_coin e) with (fst (pickup_coin e, c)). now apply in_map.
    - rewrite Hc. apply removed_coin_absent. now apply in_map. }
  split; [apply collides_distance|]. split; [|split; [|split; [|split; [|split]]]].
  - intros cid pid. rewrite Hpairs, collected_coin_In. split.
    + intros (c & p & Hin & Hf). apply first_hit_spec in Hf.
      destruct Hf as (before & after & Heq & Hcl & Hall).
      exists c, before, p, after. split; [assumption|]. split; [assumption|].
      split; [now apply collides_distance|].
      eapply Forall_impl; [|exact Hall]. simpl. intros kv Hf Hd.
      apply collides_distance in Hd. congruence.
    + intros (c & before & p & after & Hin & Heq & Hd & Hall).
      exists c, p. split; [assumption|]. apply first_hit_spec.
      exists before, after. split; [assumption|].
      split; [now apply collides_distance|].
      eapply Forall_impl; [|exact Hall]. simpl. intros kv Hf.
      destruct (collides (snd kv) c) eqn:E; [|reflexivity].
      exfalso. apply Hf. now apply collides_distance.
  - assumption.
  - replace (map pickup_coin log)
      with (map fst (map (fun e => (pickup_coin e, pickup_player e)) log))
      by (rewrite map_map; reflexivity).
    rewrite Hcol. now apply NoDup_collected.
  - assumption.
  - assumption.
  - intros e now draws cs co s1 es s2 Hin Hgo Hrun.
    apply (gone_run (pickup_coin e) es s1 s2); [|assumption].
    apply (gone_game_over_check _ co (broadcast cs (spawn_phase now draws s')) s1);
      [|assumption].
    apply gone_broadcast, gone_spawn_phase. now apply Hgone.
Qed.

Lemma C3_collision_pass_witness :
  dict_get "140230" (players (check_collisions (update_players crowded))) =
  Some (Player.mk "140230" "Alice" 100 100 1 [255; 100; 100] 0 0).
Proof.
  assert (Hndc : NoDup (keys (coins (update_players crowded)))).
  { change (NoDup [0; 1; 2]).
    constructor; [|constructor; [|constructor; [|constructor]]]; simpl; lia. }
  assert (Hbelow : Forall (fun k => k < next_coin_id (update_players crowded))
                     (keys (coins (update_players crowded)))).
  { change (Forall (fun k => k < 3) [0; 1; 2]). repeat constructor. }
  apply (proj1 (proj2 (proj2 (C3_collision_pass (update_players crowded)
                                NoDup_two_players Hndc Hbelow)))
           "140230" (Player.mk "140230" "Alice" 100 100 0 [255; 100; 100] 0 0)).
  reflexivity.
Defined.

(** ** Smoothing towards a fixed target *)


(** *** Thirteen steps on one axis, by computation *)










(** *** From the axes to the distance *)







(** * Further properties of the server *)

(** ** More dictionary lemmas *)

Section DictMore.
Context {K V : Type} `{EqKey K}.
Implicit Types (d : dict K V) (k : K) (v : V).

Lemma dict_get_set_present k v0 v d :
  dict_get k d = Some v0 -> dict_get k (dict_set k v d) = Some v.
Proof.
  induction d as [|[k' v'] d IH]; simpl; [discriminate|].
  destruct (keyb k k') eqn:E; simpl; rewrite E; [reflexivity|exact IH].
Qed.

Lemma dict_set_twice k v1 v2 d :
  dict_set k v2 (dict_set k v1 d) = dict_set k v2 d.
Proof.
  induction d as [|[k' v'] d IH]; simpl.
  - now rewrite keyb_refl.
  - destruct (keyb k k') eqn:E; simpl; rewrite E; [reflexivity|now rewrite IH].
Qed.

Lemma keys_dict_set_present k v0 v d :
  dict_get k d = Some v0 -> keys (dict_set k v d) = keys d.
Proof.
  intros Hg. apply keys_dict_set_mem. apply dict_get_In in Hg.
  change k with (fst (k, v0)). now apply in_map.
Qed.

Lemma dict_get_del_other k k' d :
  k' <> k -> dict_get k' (dict_del k d) = dict_get k' d.
Proof.
  intros Hne. induction d as [|[k2 v2] d IH]; simpl; [reflexivity|].
  destruct (keyb k k2) eqn:E; simpl.
  - apply keyb_eq in E. subst k2. now rewrite keyb_neq.
  - now rewrite IH.
Qed.

Lemma dict_get_del_same k d : NoDup (keys d) -> dict_get k (dict_del k d) = None.
Proof.
  induction d as [|[k' v'] d IH]; intros Hnd; simpl; [reflexivity|].
  inversion Hnd as [|? ? Hni Hnd']; subst.
  destruct (keyb k k') eqn:E; simpl.
  - apply keyb_eq in E. subst k'. now apply dict_get_None.
  - rewrite E. now apply IH.
Qed.

Lemma dict_del_absent_id k d : dict_get k d = None -> dict_del k d = d.
Proof.
  induction d as [|[k' v'] d IH]; simpl; [reflexivity|].
  destruct (keyb k k'); [discriminate|]. intros Hg. now rewrite IH.
Qed.

Lemma length_dict_del k v d :
  dict_get k d = Some v -> S (List.length (dict_del k d)) = List.length d.
Proof.
  induction d as [|[k' v'] d IH]; simpl; [discriminate|].
  destruct (keyb k k'); simpl; [reflexivity|]. intros Hg. now rewrite IH.
Qed.

Lemma dict_del_as_filter k d :
  NoDup (keys d) -> dict_del k d = filter (fun kv => negb (keyb k (fst kv))) d.
Proof.
  induction d as [|[k' v'] d IH]; intros Hnd; simpl; [reflexivity|].
  inversion Hnd as [|? ? Hni Hnd']; subst.
  destruct (keyb k k') eqn:E; simpl.
  - apply keyb_eq in E. subst k'. symmetry. apply forallb_filter_id.
    apply forallb_forall. intros [k2 v2] Hin. simpl.
    destruct (keyb k k2) eqn:E2; [|reflexivity].
    apply keyb_eq in E2. subst k2. exfalso. apply Hni.
    change k with (fst (k, v2)). now apply in_map.
  - f_equal. now apply IH.
Qed.
End DictMore.

(** ** Movement intents *)

(** X1.  An [input] message from a connected player replaces that player's
    velocity by the vector sent and changes nothing else: the player keeps
    its place in the dictionary and all its other fields, every other
    player, the coins and the session flags are as before; and of two
    inputs in a row only the second counts. *)
Theorem X1_input_replaces_velocity s player_id p dx dy draws :
  dict_get player_id (players s) = Some p ->
  let s' := handle_message player_id (MInput dx dy) draws s in
  dict_get player_id (players s') = Some (Player.with_velocity p dx dy) /\
  keys (players s') = keys (players s) /\
  (forall k, k <> player_id -> dict_get k (players s') = dict_get k (players s)) /\
  with_players s' (players s) = s /\
  (forall dx2 dy2,
      handle_message player_id (MInput dx2 dy2) draws s' =
      handle_message player_id (MInput dx2 dy2) draws s).
Proof.
  intros Hg s'. subst s'. cbn [handle_message]. rewrite Hg.
  cbn [players with_players].
  split; [now apply (dict_get_set_present _ p)|].
  split; [now apply (keys_dict_set_present _ p)|].
  split; [intros k Hk; now apply dict_get_set_other|].
  split; [now destruct s|].
  intros dx2 dy2. cbn [players with_players].
  rewrite (dict_get_set_present _ p) by assumption.
  unfold with_players. cbn. now rewrite dict_set_twice.
Qed.

Lemma X1_input_replaces_velocity_witness :
  dict_get "140230"
    (players (handle_message "140230" (MInput (-1) 1) [] lobby_of_two)) =
  Some (Player.mk "140230" "Alice" 30 370 0 [255; 100; 100] (-1) 1).
Proof.
  apply (X1_input_replaces_velocity lobby_of_two "140230"
           (Player.mk "140230" "Alice" 30 370 0 [255; 100; 100] 0 0) (-1) 1 []).
  reflexivity.
Defined.

(** ** Leaving the session *)



(** ** Who is in the session *)

Lemma map_dict_set_get {A : Type} (f : string * Player.t -> A) k p p' :
  forall d, dict_get k d = Some p -> f (k, p') = f (k, p) ->
  map f (dict_set k p' d) = map f d.
Proof.
  induction d as [|[k' v'] d IH]; simpl; [discriminate|].
  destruct (k =? k')%string eqn:E; simpl.
  - apply String.eqb_eq in E. subst k'. intros [= ->] Hf. now rewrite Hf.
  - intros Hg Hf. f_equal. now apply IH.
Qed.

Lemma length_dict_set_le {K V : Type} `{EqKey K} (k : K) (v : V) (d : dict K V) :
  (List.length (dict_set k v d) <= S (List.length d))%nat.
Proof.
  induction d as [|[k' v'] d IH]; simpl; [lia|].
  destruct (keyb k k'); simpl; lia.
Qed.

Lemma length_dict_del_le {K V : Type} `{EqKey K} (k : K) (d : dict K V) :
  (List.length (dict_del k d) <= List.length d)%nat.
Proof.
  induction d as [|[k' v'] d IH]; simpl; [lia|].
  destruct (keyb k k'); simpl; lia.
Qed.

Lemma alice_dict_set_bob k p : forall d,
  is_alice (badge (k, p)) = false ->
  (List.length (filter is_alice (map badge (dict_set k p d)))
   <= List.length (filter is_alice (map badge d)))%nat.
Proof.
  intros d Hb. induction d as [|[k' v'] d IH]; simpl.
  - rewrite Hb. simpl. lia.
  - destruct (k =? k')%string eqn:E; simpl.
    + apply String.eqb_eq in E. subst k'. rewrite Hb.
      destruct (is_alice (badge (k, v'))); simpl; lia.
    + destruct (is_alice (badge (k', v'))); simpl; lia.
Qed.

Lemma alice_dict_del k : forall d : dict string Player.t,
  (List.length (filter is_alice (map badge (dict_del k d)))
   <= List.length (filter is_alice (map badge d)))%nat.
Proof.
  induction d as [|[k' v'] d IH]; simpl; [lia|].
  destruct (k =? k')%string; simpl;
    destruct (is_alice (badge (k', v'))); simpl; lia.
Qed.

Lemma Forall_badges_del k (d : dict string Player.t) :
  Forall badge_ok (map badge d) -> Forall badge_ok (map badge (dict_del k d)).
Proof.
  rewrite !Forall_forall. intros Hall b Hin. apply Hall.
  apply in_map_iff in Hin. destruct Hin as [kv [<- Hin]].
  apply in_map. eapply In_dict_del; eauto.
Qed.

Lemma roster_ok_del s k :
  roster_ok s -> dict_mem k (players s) = true ->
  roster_ok (with_players s (dict_del k (players s))) /\
  len (dict_del k (players s)) = len (players s) - 1.
Proof.
  intros [Hb Hc Ha] Hm. unfold dict_mem in Hm.
  destruct (dict_get k (players s)) as [p|] eqn:E; [|discriminate].
  pose proof (length_dict_del _ _ _ E) as Hl.
  assert (Hlen : len (dict_del k (players s)) = len (players s) - 1)
    by (unfold len; lia).
  split; [|assumption]. constructor; unfold badges; simpl.
  - now apply Forall_badges_del.
  - lia.
  - pose proof (alice_dict_del k (players s)). unfold badges in Ha. lia.
Qed.

Lemma badges_check_collisions s :
  NoDup (keys (players s)) ->
  badges (check_collisions s) = badges s /\
  player_count (check_collisions s) = player_count s.
Proof.
  intros Hnd.
  assert (Hgoal : NoDup (keys (players (check_collisions s))) /\
                  badges (check_collisions s) = badges s /\
                  player_count (check_collisions s) = player_count s); [|tauto].
  apply (check_collisions_ind
           (fun s' => NoDup (keys (players s')) /\ badges s' = badges s /\
                      player_count s' = player_count s)).
  - intros s0 pid p (Hnd0 & Hb & Hc) Hin. unfold badges in *. simpl.
    split; [now apply NoDup_keys_dict_set|]. split; [|assumption].
    rewrite <- Hb. apply (map_dict_set_get badge pid p); [|reflexivity].
    now apply In_dict_get.
  - intros s0 pid p H0 _ _ _. exact H0.
  - intros s0 cid H0. exact H0.
  - auto.
Qed.

Lemma badges_length s : len (players s) = Z.of_nat (List.length (badges s)).
Proof. unfold len, badges. now rewrite length_map. Qed.

Lemma roster_ok_same s s' :
  badges s' = badges s -> player_count s' = player_count s ->
  roster_ok s -> roster_ok s'.
Proof.
  intros Hb Hc [H1 H2 H3]. constructor.
  - now rewrite Hb.
  - rewrite badges_length, Hb, <- badges_length, Hc. assumption.
  - now rewrite Hb.
Qed.

Lemma spawn_coins_roster {A : Type} (f : GameServer -> A -> GameServer) (l : list A) :
  (forall s a, badges (f s a) = badges s /\ player_count (f s a) = player_count s) ->
  forall s, badges (fold_left f l s) = badges s /\
            player_count (fold_left f l s) = player_count s.
Proof.
  intros Hf. induction l as [|a l IH]; intros s; simpl; [tauto|].
  destruct (IH (f s a)) as [-> ->]. apply Hf.
Qed.

Lemma roster_ok_broadcast closed s : roster_ok s -> roster_ok (broadcast closed s).
Proof.
  apply broadcast_ind. intros s0 pid Hr E. now destruct (roster_ok_del s0 pid Hr E).
Qed.

Lemma roster_ok_reset_game s : roster_ok s -> roster_ok (reset_game s).
Proof.
  apply roster_ok_same; [|reflexivity].
  unfold badges, reset_game. simpl. rewrite map_map. reflexivity.
Qed.

Lemma roster_ok_step s e s' :
  invariant s -> roster_ok s -> step s e = Some s' -> roster_ok s'.
Proof.
  intros Hi Hr. destruct e as [pid rx ry|pid|pid|pid m draws|now draws cs co]; simpl.
  - intros [= <-]. destruct Hr as [Hb Hc Ha]. unfold handle_client_accept.
    destruct (player_count s =? 0) eqn:E; simpl.
    + apply Z.eqb_eq in E.
      assert (Hempty : players s = []).
      { unfold len in Hc. destruct (players s); [reflexivity|]. simpl in Hc. lia. }
      constructor; unfold badges; simpl; rewrite Hempty; simpl.
      * repeat constructor.
      * unfold len. simpl. lia.
      * lia.
    + apply Z.eqb_neq in E. constructor; unfold badges; simpl.
      * apply Forall_forall. intros b Hin. apply in_map_iff in Hin.
        destruct Hin as [kv [<- Hin]]. apply In_dict_set_inv in Hin.
        destruct Hin as [->|Hin].
        -- simpl. split; [reflexivity|]. right. split; reflexivity.
        -- unfold badges in Hb. rewrite Forall_forall in Hb.
           apply Hb. now apply in_map.
      * pose proof (length_dict_set_le pid
                      (Player.init pid "Bob" [100; 100; 255] rx ry) (players s)).
        unfold len in *. lia.
      * etransitivity; [apply alice_dict_set_bob; reflexivity|exact Ha].
  - intros [= <-]. unfold handle_client_finally.
    destruct (dict_mem pid (players s)) eqn:E; [|assumption].
    destruct (roster_ok_del s pid Hr E) as [[Hb Hc Ha] Hlen].
    constructor; unfold badges in *; simpl in *; [assumption| |assumption].
    destruct Hr as [_ Hc0 _]. lia.
  - intros [= <-]. unfold broadcast_drop.
    destruct (dict_mem pid (players s)) eqn:E; [|assumption].
    now destruct (roster_ok_del s pid Hr E).
  - intros [= <-]. destruct m as [|dx dy|mode|]; simpl; try assumption.
    + destruct (dict_get pid (players s)) as [p|] eqn:E; [|assumption].
      apply (roster_ok_same s); [|reflexivity|assumption].
      unfold badges. simpl. now apply (map_dict_set_get badge pid p).
    + destruct (negb (game_started s) && (2 <=? len (players s))); [|assumption].
      unfold start_game.
      destruct (spawn_coins_roster (fun s d => spawn_coin d s) draws
                  (fun s a => conj eq_refl eq_refl)
                  (with_winner (with_started
                     (with_mode s match mode with Some m => m | None => "endless" end)
                     true) None)) as [Hb Hc].
      apply (roster_ok_same s); assumption.
  - unfold game_loop_tick. destruct (game_started s); simpl; [|now intros [= <-]].
    assert (Hbody : badges (game_loop_body now draws s) = badges s /\
                    player_count (game_loop_body now draws s) = player_count s).
    { unfold game_loop_body.
      assert (Hsp : forall s0, badges (spawn_phase now draws s0) = badges s0 /\
                               player_count (spawn_phase now draws s0) = player_count s0).
      { intros s0. unfold spawn_phase.
        destruct (negb (Qle_bool (now - last_coin_spawn s0) COIN_SPAWN_INTERVAL));
          [|tauto].
        destruct (len (coins s0) <? MAX_COINS); simpl; [|tauto].
        apply (spawn_coins_roster
                 (fun s d => if len (coins s) <? MAX_COINS then spawn_coin d s else s)).
        intros s1 a. destruct (len (coins s1) <? MAX_COINS); split; reflexivity. }
      destruct (Hsp (check_collisions (update_players s))) as [-> ->].
      destruct (badges_check_collisions (update_players s)) as [-> ->].
      - rewrite keys_update_players. now destruct Hi.
      - split; [|reflexivity]. unfold badges, update_players. simpl.
        rewrite map_map. reflexivity. }
    destruct Hbody as [Hb Hc].
    assert (Hrb : roster_ok (game_loop_body now draws s))
      by (apply (roster_ok_same s); assumption).
    apply (roster_ok_broadcast cs) in Hrb.
    intros Hgo. apply game_over_check_cases in Hgo.
    destruct Hgo as [[_ ->]|(w & wp & _ & _ & _ & ->)]; [assumption|].
    now apply roster_ok_reset_game, roster_ok_broadcast.
Qed.

Lemma reachable_roster_ok t0 s : reachable t0 s -> roster_ok s.
Proof.
  induction 1 as [|s e s' Hr IH Hok Hstep].
  - constructor; simpl; [constructor|unfold len; simpl; lia|lia].
  - eapply roster_ok_step; eauto. eapply reachable_invariant; eauto.
Qed.

Lemma filter_at_most_one {A : Type} (f : A -> bool) (l : list A) a b :
  (List.length (filter f l) <= 1)%nat ->
  In a l -> In b l -> f a = true -> f b = true -> a = b.
Proof.
  intros Hlen Ha Hb Hfa Hfb.
  assert (Hina : In a (filter f l)) by (apply filter_In; auto).
  assert (Hinb : In b (filter f l)) by (apply filter_In; auto).
  destruct (filter f l) as [|x [|y rest]]; simpl in *.
  - destruct Hina.
  - destruct Hina as [<-|[]]. destruct Hinb as [<-|[]]. reflexivity.
  - lia.
Qed.

(** X3.  In every reachable state each player is stored under its own id
    and is either Alice in red or Bob in blue; the number of players never
    exceeds [player_count], so that Alice is handed out only to a joiner of
    an empty session; and at most one connected player is named Alice. *)
Theorem X3_roster_of_reachable_states t0 s :
  reachable t0 s ->
  (forall k p,
      dict_get k (players s) = Some p ->
      Player.id p = k /\
      ((Player.name p = "Alice" /\ Player.color p = [255; 100; 100]) \/
       (Player.name p = "Bob" /\ Player.color p = [100; 100; 255]))) /\
  len (players s) <= player_count s /\
  (player_count s = 0 -> players s = []) /\
  (forall k1 p1 k2 p2,
      dict_get k1 (players s) = Some p1 ->
      dict_get k2 (players s) = Some p2 ->
      Player.name p1 = "Alice" -> Player.name p2 = "Alice" -> k1 = k2).
Proof.
  intros Hr. destruct (reachable_roster_ok t0 s Hr) as [Hb Hc Ha].
  split; [|split; [assumption|split]].
  - intros k p Hg. apply dict_get_In in Hg.
    unfold badges in Hb. rewrite Forall_forall in Hb.
    apply (Hb (badge (k, p))). now apply in_map.
  - intros H0. unfold len in Hc. destruct (players s); [reflexivity|].
    simpl in Hc. lia.
  - intros k1 p1 k2 p2 H1 H2 Hn1 Hn2.
    apply dict_get_In in H1. apply dict_get_In in H2.
    assert (Heq : badge (k1, p1) = badge (k2, p2)).
    { apply (filter_at_most_one is_alice (badges s)); try assumption.
      - unfold badges. now apply in_map.
      - unfold badges. now apply in_map.
      - unfold is_alice. simpl. now apply String.eqb_eq.
      - unfold is_alice. simpl. now apply String.eqb_eq. }
    now injection Heq.
Qed.

Lemma X3_roster_of_reachable_states_witness :
  len (players lobby_of_three) <= player_count lobby_of_three.
Proof.
  apply (X3_roster_of_reachable_states 0%Q lobby_of_three lobby_of_three_reachable).
Defined.

(** ** The coin population *)

Lemma coin_draw_ok_spec d :
  coin_draw_ok d = true ->
  COIN_SIZE <= fst d <= SCREEN_WIDTH - COIN_SIZE /\
  COIN_SIZE <= snd d <= SCREEN_HEIGHT - COIN_SIZE.
Proof.
  unfold coin_draw_ok, in_range. intros H.
  apply andb_prop in H. destruct H as [H1 H2].
  apply andb_prop in H1. apply andb_prop in H2. lia.
Qed.

Lemma coins_each_spawn_coin d s :
  coin_draw_ok d = true -> Forall coin_ok (coins s) ->
  Forall coin_ok (coins (spawn_coin d s)).
Proof.
  intros Hd Hall. simpl. apply Forall_dict_set; [|assumption].
  unfold coin_ok. simpl. split; [reflexivity|]. now apply coin_draw_ok_spec.
Qed.

Lemma len_spawn_coin_le d s : len (coins (spawn_coin d s)) <= len (coins s) + 1.
Proof.
  simpl. unfold len.
  pose proof (length_dict_set_le (next_coin_id s)
                (Coin.init (next_coin_id s) (fst d) (snd d)) (coins s)). lia.
Qed.

Lemma coins_ok_start_game mode draws s :
  coins s = [] ->
  Z.of_nat (List.length draws) <= MAX_COINS ->
  forallb coin_draw_ok draws = true ->
  coins_ok (start_game mode draws s).
Proof.
  intros Hempty Hlen Hall. unfold start_game.
  set (s1 := with_winner (with_started (with_mode s mode) true) None).
  assert (Hgen : forall draws s0,
             forallb coin_draw_ok draws = true -> Forall coin_ok (coins s0) ->
             Forall coin_ok (coins (fold_left (fun s d => spawn_coin d s) draws s0)) /\
             len (coins (fold_left (fun s d => spawn_coin d s) draws s0))
               <= len (coins s0) + Z.of_nat (List.length draws)).
  { clear. induction draws as [|d draws IH]; intros s0 Hall Hc.
    - simpl. split; [assumption|lia].
    - simpl in Hall. apply andb_prop in Hall. destruct Hall as [Hd Hall].
      cbn [fold_left].
      destruct (IH (spawn_coin d s0) Hall (coins_each_spawn_coin d s0 Hd Hc)) as [H1 H2].
      split; [assumption|]. pose proof (len_spawn_coin_le d s0).
      cbn [List.length]. lia. }
  assert (Hc1 : coins s1 = []) by exact Hempty.
  destruct (Hgen draws s1 Hall) as [H1 H2].
  - rewrite Hc1. constructor.
  - rewrite Hc1 in H2. change (len []) with 0 in H2. constructor; [lia|assumption].
Qed.

Lemma coins_ok_spawn_phase current_time draws s :
  forallb coin_draw_ok draws = true ->
  coins_ok s -> coins_ok (spawn_phase current_time draws s).
Proof.
  intros Hall Hok. unfold spawn_phase.
  destruct (negb (Qle_bool (current_time - last_coin_spawn s) COIN_SPAWN_INTERVAL));
    [|assumption].
  assert (Hlast : forall s0, coins_ok s0 -> coins_ok (with_last_spawn s0 current_time))
    by (intros s0 []; constructor; assumption).
  apply Hlast. destruct (len (coins s) <? MAX_COINS); [|assumption].
  revert s Hok. induction draws as [|d draws IH]; intros s Hok; simpl; [assumption|].
  simpl in Hall. apply andb_prop in Hall. destruct Hall as [Hd Hall].
  apply IH; [assumption|].
  destruct (len (coins s) <? MAX_COINS) eqn:E; [|assumption].
  apply Z.ltb_lt in E. destruct Hok as [Hb He]. constructor.
  - pose proof (len_spawn_coin_le d s). lia.
  - now apply coins_each_spawn_coin.
Qed.

Lemma coins_ok_check_collisions s : coins_ok s -> coins_ok (check_collisions s).
Proof.
  apply check_collisions_ind.
  - intros s0 pid p H0 _. destruct H0. constructor; assumption.
  - intros s0 pid p H0 _ _ _. destruct H0. constructor; assumption.
  - intros s0 cid [Hb He]. constructor; simpl.
    + pose proof (length_dict_del_le cid (coins s0)). unfold len in *. lia.
    + now apply Forall_dict_del.
Qed.

Lemma coins_ok_same s s' : coins s' = coins s -> coins_ok s -> coins_ok s'.
Proof. intros Hc [H1 H2]. constructor; now rewrite Hc. Qed.

Lemma coins_ok_step s e s' :
  event_ok e = true -> invariant s -> coins_ok s -> step s e = Some s' -> coins_ok s'.
Proof.
  intros Hok Hi Hc. destruct e as [pid rx ry|pid|pid|pid m draws|now draws cs co]; simpl.
  - intros [= <-]. apply (coins_ok_same s); [|assumption].
    unfold handle_client_accept. now destruct (player_count s =? 0).
  - intros [= <-]. apply (coins_ok_same s); [|assumption].
    unfold handle_client_finally. now destruct (dict_mem pid (players s)).
  - intros [= <-]. apply (coins_ok_same s); [|assumption].
    unfold broadcast_drop. now destruct (dict_mem pid (players s)).
  - intros [= <-]. destruct m as [|dx dy|mode|]; simpl; try assumption.
    + apply (coins_ok_same s); [|assumption].
      now destruct (dict_get pid (players s)).
    + destruct (negb (game_started s) && (2 <=? len (players s))) eqn:E; [|assumption].
      apply andb_prop in E. destruct E as [E _]. apply negb_true_iff in E.
      simpl in Hok. apply andb_prop in Hok. destruct Hok as [Hn Hall].
      unfold in_range in Hn. apply andb_prop in Hn.
      apply coins_ok_start_game; [|lia|assumption].
      destruct Hi as [_ _ _ _ _ _ Hidle _]. now apply Hidle.
  - simpl in Hok. apply andb_prop in Hok. destruct Hok as [_ Hall].
    unfold game_loop_tick. destruct (game_started s); simpl; [|now intros [= <-]].
    assert (Hbody : coins_ok (game_loop_body now draws s)).
    { unfold game_loop_body. apply coins_ok_spawn_phase; [assumption|].
      apply coins_ok_check_collisions. now apply (coins_ok_same s). }
    apply (coins_ok_same _ (broadcast cs (game_loop_body now draws s))) in Hbody;
      [|apply broadcast_fields].
    intros Hgo. apply game_over_check_cases in Hgo.
    destruct Hgo as [[_ ->]|(w & wp & _ & _ & _ & ->)]; [assumption|].
    constructor; simpl; [unfold len, MAX_COINS; simpl; lia|constructor].
Qed.

Lemma reachable_coins_ok t0 s : reachable t0 s -> coins_ok s.
Proof.
  induction 1 as [|s e s' Hr IH Hok Hstep].
  - constructor; simpl; [unfold len, MAX_COINS; simpl; lia|constructor].
  - eapply coins_ok_step; eauto. eapply reachable_invariant; eauto.
Qed.

(** X4.  In every reachable state there are at most [MAX_COINS] = 5 coins,
    and each coin is stored under its own id at a position at least
    [COIN_SIZE] = 20 away from every wall. *)
Theorem X4_coin_population_bounded t0 s :
  reachable t0 s ->
  len (coins s) <= 5 /\
  (forall coin_id coin,
      dict_get coin_id (coins s) = Some coin ->
      Coin.id coin = coin_id /\
      20 <= Coin.x coin <= 580 /\ 20 <= Coin.y coin <= 380).
Proof.
  intros Hr. destruct (reachable_coins_ok t0 s Hr) as [Hb He].
  split; [exact Hb|]. intros cid c Hg. apply dict_get_In in Hg.
  rewrite Forall_forall in He. apply (He _ Hg).
Qed.

Lemma X4_coin_population_bounded_witness : len (coins neck_and_neck) <= 5.
Proof.
  apply (X4_coin_population_bounded 0%Q neck_and_neck neck_and_neck_reachable).
Defined.

(** X5.  The spawn step of a tick does nothing before [COIN_SPAWN_INTERVAL]
    has passed since the last spawn.  Once it has passed, it restarts the
    timer at the current time, also when it spawns nothing, and in a
    running game it brings the number of coins to the smaller of
    [MAX_COINS] and the old number plus the number of coins requested,
    leaving the coins already there in place. *)
Theorem X5_spawn_phase current_time draws s :
  invariant s -> game_started s = true -> len (coins s) <= MAX_COINS ->
  let s' := spawn_phase current_time draws s in
  (Qle_bool (current_time - last_coin_spawn s) COIN_SPAWN_INTERVAL = true -> s' = s) /\
  (Qle_bool (current_time - last_coin_spawn s) COIN_SPAWN_INTERVAL = false ->
     last_coin_spawn s' = current_time /\
     len (coins s') = Z.min MAX_COINS (len (coins s) + Z.of_nat (List.length draws)) /\
     exists new, coins s' = (coins s ++ new)%list).
Proof.
  intros Hi Hst Hle s'. subst s'. unfold spawn_phase. split.
  - intros ->. reflexivity.
  - intros ->. cbn [negb]. split; [reflexivity|].
    cbn [coins with_last_spawn].
    assert (Hloop : forall draws s0,
               invariant s0 -> game_started s0 = true -> len (coins s0) <= MAX_COINS ->
               let r := fold_left
                          (fun s d => if len (coins s) <? MAX_COINS then spawn_coin d s else s)
                          draws s0 in
               len (coins r) = Z.min MAX_COINS (len (coins s0) + Z.of_nat (List.length draws)) /\
               exists new, coins r = (coins s0 ++ new)%list).
    { clear. induction draws as [|d draws IH]; intros s0 Hi Hst Hle.
      - simpl. split; [lia|]. exists []. now rewrite app_nil_r.
      - cbn [fold_left]. destruct (len (coins s0) <? MAX_COINS) eqn:E.
        + apply Z.ltb_lt in E.
          assert (Hfresh : ~ In (next_coin_id s0) (keys (coins s0))).
          { destruct Hi as [_ _ Hlog _ Hbelow _ _ _]. intros Hin. apply Hlog in Hin.
            rewrite Forall_forall in Hbelow. specialize (Hbelow _ Hin). lia. }
          assert (Hc : coins (spawn_coin d s0) =
                       (coins s0 ++ [(next_coin_id s0,
                                      Coin.init (next_coin_id s0) (fst d) (snd d))])%list).
          { simpl. now apply keys_dict_set_new. }
          assert (Hl : len (coins (spawn_coin d s0)) = len (coins s0) + 1).
          { rewrite Hc. unfold len. rewrite length_app. simpl. lia. }
          destruct (IH (spawn_coin d s0)) as [H1 [new H2]].
          * now apply invariant_spawn_coin.
          * exact Hst.
          * lia.
          * split.
            -- rewrite H1, Hl. cbn [List.length]. lia.
            -- rewrite H2, Hc. rewrite <- app_assoc. eauto.
        + apply Z.ltb_ge in E. destruct (IH s0 Hi Hst Hle) as [H1 H2].
          split; [|assumption]. rewrite H1. cbn [List.length]. lia. }
    destruct (len (coins s) <? MAX_COINS) eqn:E.
    + now apply Hloop.
    + apply Z.ltb_ge in E. split; [lia|]. exists []. now rewrite app_nil_r.
Qed.

Lemma X5_spawn_phase_witness :
  len (coins (spawn_phase 30%Q under_both neck_and_neck)) = 5.
Proof.
  assert (Hi : invariant neck_and_neck)
    by exact (reachable_invariant 0%Q neck_and_neck neck_and_neck_reachable).
  assert (Hle : len (coins neck_and_neck) <= MAX_COINS) by (vm_compute; discriminate).
  apply (proj2 (X5_spawn_phase 30%Q under_both neck_and_neck Hi eq_refl Hle)).
  reflexivity.
Defined.

(** ** One step of a player *)

(** X6.  For a player whose intent fits a double, [update_position] changes
    the position only: id, name, score, colour and velocity are kept.  A
    player inside the arena moves by
    [PLAYER_SPEED] times its velocity on each axis when that stays inside
    the arena and stops at the wall otherwise, so it never moves further
    than that on either axis; the flag returned tells whether the position
    changed, and a player inside the arena with zero velocity stays where
    it is. *)
Theorem X6_update_position_step p :
  in_arena p -> intent_fits p ->
  let p' := fst (Player.update_position p) in
  let changed := snd (Player.update_position p) in
  p' = Player.with_pos p (Player.x p') (Player.y p') /\
  (15 <= Player.x p + 5 * Player.velocity_x p <= 585 ->
     Player.x p' = Player.x p + 5 * Player.velocity_x p) /\
  (Player.x p + 5 * Player.velocity_x p < 15 -> Player.x p' = 15) /\
  (585 < Player.x p + 5 * Player.velocity_x p -> Player.x p' = 585) /\
  (15 <= Player.y p + 5 * Player.velocity_y p <= 385 ->
     Player.y p' = Player.y p + 5 * Player.velocity_y p) /\
  (Player.y p + 5 * Player.velocity_y p < 15 -> Player.y p' = 15) /\
  (385 < Player.y p + 5 * Player.velocity_y p -> Player.y p' = 385) /\
  Z.abs (Player.x p' - Player.x p) <= 5 * Z.abs (Player.velocity_x p) /\
  Z.abs (Player.y p' - Player.y p) <= 5 * Z.abs (Player.velocity_y p) /\
  (changed = false <-> Player.x p' = Player.x p /\ Player.y p' = Player.y p) /\
  (Player.velocity_x p = 0 -> Player.velocity_y p = 0 -> p' = p).
Proof.
  unfold in_arena, Player.update_position, PLAYER_SIZE, SCREEN_WIDTH, SCREEN_HEIGHT,
    PLAYER_SPEED.
  change (30 / 2) with 15. intros [Hx Hy] _.
  cbn [fst snd Player.with_pos Player.x Player.y].
  split; [reflexivity|].
  do 8 (split; [lia|]).
  split.
  - rewrite orb_false_iff, !negb_false_iff, !Z.eqb_eq.
    split; intros [H1 H2]; split; congruence.
  - intros Hvx Hvy. destruct p as [i n x y sc col vx vy]. simpl in *. subst vx vy.
    unfold Player.with_pos. simpl. f_equal; lia.
Qed.

Lemma X6_update_position_step_witness :
  Player.x (fst (Player.update_position
                   (Player.mk "140230" "Alice" 583 200 0 [255; 100; 100] 1 0))) = 585.
Proof.
  apply (X6_update_position_step
           (Player.mk "140230" "Alice" 583 200 0 [255; 100; 100] 1 0)).
  - vm_compute. repeat split; discriminate.
  - split; vm_compute; reflexivity.
  - vm_compute. reflexivity.
Defined.

(** ** Passes without a pickup and the score balance *)

Lemma first_hit_none coin ps :
  Forall (fun kv => collides (snd kv) coin = false) ps -> first_hit coin ps = None.
Proof.
  induction 1 as [|[k p] ps Hp _ IH]; simpl; [reflexivity|].
  simpl in Hp. now rewrite Hp.
Qed.

(** X7.  A pass in which no player is within reach of any coin changes
    nothing; in particular a pass without players or without coins. *)
Theorem X7_pass_without_collision s :
  Forall (fun ckv => Forall (fun pkv => collides (snd pkv) (snd ckv) = false) (players s))
    (coins s) ->
  check_collisions s = s.
Proof.
  intros Hall. unfold check_collisions.
  assert (Hscan : forall todo,
             Forall (fun ckv => Forall (fun pkv => collides (snd pkv) (snd ckv) = false)
                                  (players s)) todo ->
             scan_coins todo (s, []) = (s, [])).
  { induction todo as [|[cid c] rest IH]; intros Hrest; [reflexivity|].
    inversion Hrest as [|? ? Hc Hrest']; subst.
    cbn [scan_coins fold_left fst snd]. rewrite scan_players_first_hit.
    rewrite (first_hit_none c (players s) Hc). now apply IH. }
  rewrite (Hscan (coins s) Hall). reflexivity.
Qed.

Lemma X7_pass_without_collision_witness :
  check_collisions lobby_of_two = lobby_of_two /\
  check_collisions (with_players sprint_of_two []) = with_players sprint_of_two [].
Proof.
  split.
  - apply (X7_pass_without_collision lobby_of_two). constructor.
  - apply (X7_pass_without_collision (with_players sprint_of_two [])).
    repeat constructor.
Defined.

Lemma total_score_dict_set k p p' : forall ps,
  dict_get k ps = Some p ->
  total_score (dict_set k p' ps) = total_score ps + Player.score p' - Player.score p.
Proof.
  induction ps as [|[k' v'] ps IH]; simpl; [discriminate|].
  destruct (k =? k')%string; simpl.
  - intros [= ->]. lia.
  - intros Hg. rewrite IH by assumption. lia.
Qed.

Lemma scan_coins_balance todo : forall s l,
  NoDup (keys (players s)) ->
  total_score (players (fst (scan_coins todo (s, l)))) =
    total_score (players s) + Z.of_nat (List.length (pickups todo (players s))).
Proof.
  induction todo as [|[cid c] rest IH]; intros s l Hnd.
  - simpl. lia.
  - cbn [scan_coins fold_left fst snd pickups]. rewrite scan_players_first_hit.
    destruct (first_hit c (players s)) as [[pid p]|] eqn:E.
    + destruct (first_hit_In _ _ _ _ E) as [Hin _].
      destruct (hit_fields pid p s) as (Hp & _).
      fold (scan_coins rest (hit pid p s, (l ++ [cid])%list)).
      rewrite IH by (rewrite Hp; now apply NoDup_keys_dict_set).
      rewrite Hp. rewrite (total_score_dict_set pid p) by now apply In_dict_get.
      cbn [List.length Player.score Player.with_score]. lia.
    + apply (IH s l Hnd).
Qed.

Lemma length_filter_removed (ids : list Z) : forall (d : dict Z Coin.t),
  NoDup ids -> incl ids (keys d) -> NoDup (keys d) ->
  (List.length (filter (fun kv => negb (existsb (Z.eqb (fst kv)) ids)) d)
   + List.length ids = List.length d)%nat.
Proof.
  intros d. revert ids. induction d as [|[k v] d IH]; intros ids Hnd Hincl Hndk.
  - destruct ids as [|a ids]; [reflexivity|]. exfalso. apply (Hincl a). now left.
  - inversion Hndk as [|? ? Hni Hndk']; subst. simpl.
    destruct (existsb (Z.eqb k) ids) eqn:E; simpl.
    + apply existsb_exists in E. destruct E as [a [Ha Hka]].
      apply Z.eqb_eq in Hka. subst a.
      destruct (in_split _ _ Ha) as (l1 & l2 & ->).
      apply NoDup_remove in Hnd. destruct Hnd as [Hnd' Hnk].
      assert (Hincl' : incl (l1 ++ l2) (keys d)).
      { intros a Hin. assert (Hin' : In a (l1 ++ k :: l2))
          by (apply in_app_iff in Hin; apply in_app_iff; simpl; tauto).
        apply Hincl in Hin'. destruct Hin' as [<-|Hin']; [contradiction|assumption]. }
      specialize (IH (l1 ++ l2)%list Hnd' Hincl' Hndk').
      assert (Hf : filter (fun kv => negb (existsb (Z.eqb (fst kv)) (l1 ++ k :: l2))) d =
                   filter (fun kv => negb (existsb (Z.eqb (fst kv)) (l1 ++ l2))) d).
      { apply filter_ext_in. intros [k2 v2] Hin. simpl. f_equal.
        assert (Hk2 : k2 <> k).
        { intros ->. apply Hni. change k with (fst (k, v2)). now apply in_map. }
        rewrite !existsb_app. simpl. apply Z.eqb_neq in Hk2. now rewrite Hk2. }
      rewrite Hf. rewrite length_app in *. simpl. lia.
    + assert (Hincl' : incl ids (keys d)).
      { intros a Hin. destruct (Hincl a Hin) as [<-|Hin']; [|assumption].
        exfalso. assert (Ht : existsb (Z.eqb k) ids = true).
        { apply existsb_exists. exists k. split; [assumption|apply Z.eqb_refl]. }
        congruence. }
      specialize (IH ids Hnd Hincl' Hndk'). lia.
Qed.

(** X8.  A pass hands out exactly one point per coin it removes: the sum
    of the scores plus the number of coins is the same before and after. *)
Theorem X8_points_match_removed_coins s :
  NoDup (keys (players s)) -> NoDup (keys (coins s)) ->
  total_score (players (check_collisions s)) + len (coins (check_collisions s)) =
  total_score (players s) + len (coins s).
Proof.
  intros Hndp Hndc.
  destruct (check_collisions_log s Hndp Hndc) as (Hc & _).
  pose proof (pickups_collected (coins s) (players s) (players s) Hndp eq_refl) as Hcol.
  set (log := pickups (coins s) (players s)) in *.
  assert (Hids : map pickup_coin log = map fst (collected (coins s) (players s))).
  { rewrite <- Hcol, map_map. reflexivity. }
  assert (Hlen : (List.length (coins (check_collisions s)) + List.length log
                  = List.length (coins s))%nat).
  { rewrite Hc. rewrite <- (length_map pickup_coin log).
    apply length_filter_removed.
    - rewrite Hids. now apply NoDup_collected.
    - rewrite Hids. intros cid Hin. apply in_map_iff in Hin.
      destruct Hin as [[cid' pid] [<- Hin]]. apply collected_coin_In in Hin.
      destruct Hin as (c & p & Hin & _). simpl.
      change cid' with (fst (cid', c)). now apply in_map.
    - assumption. }
  assert (Hscore : total_score (players (check_collisions s)) =
                   total_score (players s) + Z.of_nat (List.length log)).
  { unfold check_collisions.
    pose proof (scan_coins_balance (coins s) s [] Hndp) as Hb.
    pose proof (scan_coins_log (coins s) s [] Hndp) as Hs. cbv zeta in Hs.
    destruct (scan_coins (coins s) (s, [])) as [s1 l1]. simpl in Hb, Hs.
    destruct Hs as (_ & Hc1 & _).
    assert (Hnd1 : NoDup (keys (coins s1))) by now rewrite Hc1.
    destruct (remove_coins_spec l1 s1 Hnd1) as (_ & -> & _). exact Hb. }
  rewrite Hscore. unfold len. lia.
Qed.

Lemma X8_points_match_removed_coins_witness :
  total_score (players (check_collisions (update_players neck_and_neck)))
  + len (coins (check_collisions (update_players neck_and_neck))) = 18 + 3.
Proof.
  assert (Hnd : NoDup (keys (coins (update_players neck_and_neck)))).
  { change (NoDup [0; 19; 20]).
    constructor; [|constructor; [|constructor; [|constructor]]]; simpl; lia. }
  apply (X8_points_match_removed_coins (update_players neck_and_neck)
           NoDup_two_players Hnd).
Defined.

(** ** Dropping closed connections *)

Lemma drop_all_spec (l : list string) : forall s,
  NoDup (keys (players s)) ->
  let s' := fold_left
              (fun s player_id =>
                 if dict_mem player_id (players s)
                 then with_players s (dict_del player_id (players s)) else s)
              l s in
  players s' = filter (fun kv => negb (existsb (String.eqb (fst kv)) l)) (players s) /\
  with_players s' (players s) = s.
Proof.
  induction l as [|pid l IH]; intros s Hnd.
  - simpl. split; [|now destruct s]. symmetry. apply forallb_filter_id.
    apply forallb_forall. reflexivity.
  - cbn [fold_left].
    set (s1 := if dict_mem pid (players s)
               then with_players s (dict_del pid (players s)) else s).
    assert (H1 : players s1 = dict_del pid (players s) /\ with_players s1 (players s) = s).
    { subst s1. unfold dict_mem.
      destruct (dict_get pid (players s)) eqn:E; simpl.
      - split; [reflexivity|now destruct s].
      - split; [now rewrite dict_del_absent_id|now destruct s]. }
    destruct H1 as [Hp Hrest].
    assert (Hnd1 : NoDup (keys (players s1)))
      by (rewrite Hp; now apply NoDup_keys_dict_del).
    destruct (IH s1 Hnd1) as [Ip Irest]. cbv zeta. split.
    + rewrite Ip, Hp. rewrite (dict_del_as_filter pid (players s) Hnd).
      clear. induction (players s) as [|[k v] d IHd]; simpl; [reflexivity|].
      rewrite (String.eqb_sym pid k).
      destruct (k =? pid)%string; simpl; [assumption|].
      destruct (existsb (String.eqb k) l); simpl; [assumption|]. now f_equal.
    + rewrite <- Hrest at 2. rewrite <- Irest at 2.
      now destruct (fold_left _ l s1), s1.
Qed.

Lemma players_broadcast closed s :
  NoDup (keys (players s)) ->
  players (broadcast closed s) =
    filter (fun kv => negb (closed (fst kv))) (players s).
Proof.
  intros Hnd. rewrite broadcast_unfold.
  destruct (drop_all_spec (filter closed (keys (players s))) s Hnd) as [Hp _].
  cbv zeta in Hp. rewrite Hp. apply filter_ext_in. intros [k v] Hin. simpl. f_equal.
  destruct (closed k) eqn:E.
  - apply existsb_exists. exists k. split; [|apply String.eqb_refl].
    apply filter_In. split; [|assumption].
    change k with (fst (k, v)). now apply in_map.
  - destruct (existsb (String.eqb k) (filter closed (keys (players s)))) eqn:E2;
      [|reflexivity].
    apply existsb_exists in E2. destruct E2 as [k' [Hin' Hk']].
    apply String.eqb_eq in Hk'. subst k'. apply filter_In in Hin'.
    destruct Hin' as [_ Hc]. congruence.
Qed.

Lemma dict_get_filter_keys (f : string -> bool) : forall (d : dict string Player.t) k,
  dict_get k (filter (fun kv => f (fst kv)) d) = if f k then dict_get k d else None.
Proof.
  induction d as [|[k' v] d IH]; intros k; simpl.
  - now destruct (f k).
  - destruct (f k') eqn:Ef; simpl.
    + destruct (k =? k')%string eqn:E; [|apply IH].
      apply String.eqb_eq in E. subst k'. now rewrite Ef.
    + destruct (k =? k')%string eqn:E; [|apply IH].
      apply String.eqb_eq in E. subst k'. rewrite IH, Ef. reflexivity.
Qed.

(** After a broadcast a player is there exactly when it was there and its
    connection is open. *)
Lemma dict_get_broadcast closed s k :
  NoDup (keys (players s)) ->
  dict_get k (players (broadcast closed s)) =
    if closed k then None else dict_get k (players s).
Proof.
  intros Hnd. rewrite (players_broadcast closed s Hnd).
  rewrite (dict_get_filter_keys (fun k => negb (closed k))).
  now destruct (closed k).
Qed.

(** X11.  [broadcast] keeps exactly the players whose connection is still
    open, in their order, and changes nothing else: in particular it does
    not lower [player_count] for the players it removes. *)
Theorem X11_broadcast_drops_closed closed s :
  NoDup (keys (players s)) ->
  players (broadcast closed s) =
    filter (fun kv => negb (closed (fst kv))) (players s) /\
  with_players (broadcast closed s) (players s) = s /\
  player_count (broadcast closed s) = player_count s.
Proof.
  intros Hnd. split; [now apply players_broadcast|].
  split; [apply broadcast_frame|apply broadcast_fields].
Qed.

Lemma X11_broadcast_drops_closed_witness :
  keys (players (broadcast (String.eqb "140231") lobby_of_three)) = ["140230"; "140232"].
Proof.
  assert (Hnd : NoDup (keys (players lobby_of_three))).
  { change (NoDup ["140230"; "140231"; "140232"]).
    repeat constructor; simpl; intros H;
      repeat (destruct H as [H|H]; try discriminate H); exact H. }
  rewrite (proj1 (X11_broadcast_drops_closed (String.eqb "140231") lobby_of_three Hnd)).
  reflexivity.
Defined.

(** ** When the loop stops *)

Lemma game_loop_body_winner current_time draws s :
  NoDup (keys (players s)) ->
  let b := game_loop_body current_time draws s in
  winner b = winner s \/
  (game_mode b = "sprint" /\
   exists w wp,
     winner b = Some w /\ dict_get w (players b) = Some wp /\
     SPRINT_WIN_SCORE <= Player.score wp).
Proof.
  intros Hnd b. subst b. unfold game_loop_body.
  destruct (spawn_phase_frame current_time draws (check_collisions (update_players s)))
    as (-> & -> & -> & _).
  destruct (check_collisions_frame (update_players s)) as (_ & _ & -> & _).
  destruct (check_collisions_winner_cases (update_players s)) as [Hw|Hw].
  - now rewrite keys_update_players.
  - left. exact Hw.
  - right. exact Hw.
Qed.

Lemma winner_falsy_step s e s' :
  invariant s -> truthy (winner s) = false -> step s e = Some s' ->
  truthy (winner s') = false.
Proof.
  intros Hi Hw. destruct e as [pid rx ry|pid|pid|pid m draws|now draws cs co]; simpl.
  - intros [= <-]. unfold handle_client_accept. now destruct (player_count s =? 0).
  - intros [= <-]. unfold handle_client_finally. now destruct (dict_mem pid (players s)).
  - intros [= <-]. unfold broadcast_drop. now destruct (dict_mem pid (players s)).
  - intros [= <-]. destruct m as [|dx dy|mode|]; simpl; try assumption.
    + now destruct (dict_get pid (players s)).
    + destruct (negb (game_started s) && (2 <=? len (players s))); [|assumption].
      unfold start_game.
      now destruct (spawn_coins_frame draws
                      (with_winner (with_started
                         (with_mode s match mode with Some m => m | None => "endless" end)
                         true) None)) as (_ & _ & _ & ->).
  - unfold game_loop_tick. destruct (game_started s); simpl; [|now intros [= <-]].
    intros Hgo. apply game_over_check_cases in Hgo.
    destruct Hgo as [[Hf ->]|(w & wp & _ & _ & _ & ->)]; [assumption|reflexivity].
Qed.

Lemma reachable_winner_falsy t0 s : reachable t0 s -> truthy (winner s) = false.
Proof.
  induction 1 as [|s e s' Hr IH Hok Hstep]; [reflexivity|].
  eapply winner_falsy_step; eauto. eapply reachable_invariant; eauto.
Qed.

(** The winner test of a tick from a reachable state: when it succeeds, the
    winner was set in this tick, in a sprint, and was a player with 10
    points or more when the state was broadcast. *)
Lemma winner_test_cases t0 s current_time draws closed_state :
  reachable t0 s ->
  let b := game_loop_body current_time draws s in
  let b1 := broadcast closed_state b in
  NoDup (keys (players b)) /\
  winner b1 = winner b /\
  game_mode b1 = game_mode b /\
  (truthy (winner b1) = true ->
   game_mode b = "sprint" /\
   exists w wp,
     winner b = Some w /\ dict_get w (players b) = Some wp /\
     SPRINT_WIN_SCORE <= Player.score wp).
Proof.
  intros Hr b b1.
  pose proof (reachable_invariant t0 s Hr) as Hi.
  pose proof (reachable_winner_falsy t0 s Hr) as Hw.
  assert (Hnd : NoDup (keys (players b))).
  { subst b. unfold game_loop_body.
    destruct (spawn_phase_frame current_time draws (check_collisions (update_players s)))
      as (-> & _).
    now destruct (invariant_check_collisions _ (invariant_update_players _ Hi)). }
  destruct (broadcast_fields closed_state b) as (_ & _ & _ & Hbm & Hbw & _).
  fold b1 in Hbm, Hbw.
  split; [assumption|]. split; [assumption|]. split; [assumption|].
  rewrite Hbw. intros Ht.
  destruct (game_loop_body_winner current_time draws s) as [Hsame|H].
  - now destruct Hi.
  - fold b in Hsame. rewrite Hsame in Ht. congruence.
  - exact H.
Qed.

(** X9.  When the loop stops.  Take a tick of a running game from a
    reachable state whose intents fit a double.  The lookup
    [self.players[self.winner]] of line 276 raises [KeyError] exactly when
    the pass of this tick set a winner and the send of the state to that
    winner failed at line 272, so that [broadcast] deleted the winner before
    the lookup.  A tick in which the state reaches the winner does not
    raise, and no state reached between two ticks has a true winner: the
    tick that sets a winner also resets it. *)
Theorem X9_game_loop_stops_when_winner_dropped
  t0 s current_time draws closed_state closed_over :
  reachable t0 s -> intents_fit s ->
  let b := game_loop_body current_time draws s in
  truthy (winner s) = false /\
  (game_loop_tick current_time draws closed_state closed_over s = None <->
   game_started s = true /\ truthy (winner b) = true /\
   exists w, winner b = Some w /\ closed_state w = true) /\
  ((forall w, winner b = Some w -> closed_state w = false) ->
   exists s', game_loop_tick current_time draws closed_state closed_over s = Some s') /\
  (forall s',
     game_loop_tick current_time draws closed_state closed_over s = Some s' ->
     truthy (winner s') = false).
Proof.
  intros Hr _ b.
  pose proof (reachable_winner_falsy t0 s Hr) as Hw.
  destruct (winner_test_cases t0 s current_time draws closed_state Hr)
    as (Hnd & Hbw & _ & Hcases).
  fold b in Hnd, Hbw, Hcases.
  assert (Hiff : game_loop_tick current_time draws closed_state closed_over s = None <->
                 game_started s = true /\ truthy (winner b) = true /\
                 exists w, winner b = Some w /\ closed_state w = true).
  { unfold game_loop_tick. fold b.
    destruct (game_started s); simpl.
    - unfold game_over_check. rewrite Hbw.
      destruct (truthy (winner b)) eqn:Ht.
      + rewrite Hbw, Ht in Hcases.
        destruct (Hcases eq_refl) as (_ & w & wp & H1 & H2 & _).
        rewrite H1. rewrite (dict_get_broadcast closed_state b w Hnd), H2.
        destruct (closed_state w) eqn:Hc.
        * split; [intros _|reflexivity].
          split; [reflexivity|]. split; [reflexivity|]. exists w. auto.
        * split; [discriminate|].
          intros (_ & _ & w' & [= <-] & Hc'). congruence.
      + split; [discriminate|]. intros (_ & H & _). discriminate H.
    - split; [discriminate|]. intros (H & _). discriminate H. }
  split; [assumption|]. split; [assumption|]. split.
  - intros Hopen.
    destruct (game_loop_tick current_time draws closed_state closed_over s) as [s'|] eqn:E;
      [eauto|].
    destruct (proj1 Hiff eq_refl) as (_ & _ & w & H1 & Hc).
    rewrite (Hopen w H1) in Hc. discriminate Hc.
  - intros s' Htick.
    unfold game_loop_tick in Htick. destruct (game_started s) eqn:Hst.
    + simpl in Htick. apply game_over_check_cases in Htick.
      destruct Htick as [[Hf ->]|(w & wp & H1 & Ht & H2 & ->)].
      * exact Hf.
      * reflexivity.
    + simpl in Htick. injection Htick as <-. exact Hw.
Qed.

Lemma intents_fit_neck_and_neck : intents_fit neck_and_neck.
Proof. repeat constructor. Qed.

(** In [neck_and_neck] Bob wins the next tick; when the state cannot be sent
    to Bob the loop stops. *)
Lemma X9_game_loop_stops_when_winner_dropped_witness :
  game_loop_tick 30%Q under_both (String.eqb "140231") all_open neck_and_neck = None.
Proof.
  apply (proj1 (proj2 (X9_game_loop_stops_when_winner_dropped 0%Q neck_and_neck
                         30%Q under_both (String.eqb "140231") all_open
                         neck_and_neck_reachable intents_fit_neck_and_neck))).
  split; [reflexivity|]. split; [reflexivity|].
  exists "140231". split; reflexivity.
Defined.

(** ** The game-over report *)

(** X10.  When the winner test of a tick from a reachable state succeeds,
    the mode is sprint and the winner is a player that had at least
    [SPRINT_WIN_SCORE] points when the state was broadcast at line 272.  The
    players the test and the report see are those the state reached.  If
    the winner is among them, the [game_over] message carries its id and
    name and the scores of those players as they stand before the reset,
    and the tick ends in the reset of what the [game_over] broadcast left;
    if the winner is not, no message is built and the loop stops. *)
Theorem X10_game_over_report t0 s current_time draws closed_state closed_over :
  reachable t0 s -> intents_fit s -> game_started s = true ->
  let b := game_loop_body current_time draws s in
  let b1 := broadcast closed_state b in
  truthy (winner b1) = true ->
  exists w wp,
    winner b1 = Some w /\
    game_mode b1 = "sprint" /\
    dict_get w (players b) = Some wp /\
    SPRINT_WIN_SCORE <= Player.score wp /\
    players b1 = filter (fun kv => negb (closed_state (fst kv))) (players b) /\
    (closed_state w = false ->
     dict_get w (players b1) = Some wp /\
     game_over_message b1 =
       Some [ ("type", JStr "game_over");
              ("winner", JStr w);
              ("winner_name", JStr (Player.name wp));
              ("scores",
               JDict (map (fun kv =>
                             (Player.id (snd kv),
                              JDict [ ("name", JStr (Player.name (snd kv)));
                                      ("score", JInt (Player.score (snd kv))) ]))
                        (players b1))) ] /\
     game_loop_tick current_time draws closed_state closed_over s =
       Some (reset_game (broadcast closed_over b1))) /\
    (closed_state w = true ->
     dict_get w (players b1) = None /\
     game_over_message b1 = None /\
     game_loop_tick current_time draws closed_state closed_over s = None).
Proof.
  intros Hr _ Hst b b1 Ht.
  destruct (winner_test_cases t0 s current_time draws closed_state Hr)
    as (Hnd & Hbw & Hbm & Hcases).
  fold b in Hnd, Hbw, Hbm, Hcases. fold b1 in Hbw, Hbm, Hcases.
  destruct (Hcases Ht) as (Hm & w & wp & H1 & H2 & H3).
  pose proof (dict_get_broadcast closed_state b w Hnd) as Hget. fold b1 in Hget.
  assert (Hw1 : winner b1 = Some w) by congruence.
  exists w, wp.
  split; [assumption|]. split; [congruence|]. split; [assumption|].
  split; [assumption|]. split; [now apply players_broadcast|].
  split; intros Hc; rewrite Hc, ?H2 in Hget.
  - split; [assumption|]. split.
    + unfold game_over_message. rewrite Hw1, Hget. reflexivity.
    + unfold game_loop_tick. rewrite Hst. simpl. fold b. fold b1.
      unfold game_over_check. rewrite Ht, Hw1, Hget. reflexivity.
  - split; [assumption|]. split.
    + unfold game_over_message. rewrite Hw1, Hget. reflexivity.
    + unfold game_loop_tick. rewrite Hst. simpl. fold b. fold b1.
      unfold game_over_check. rewrite Ht, Hw1, Hget. reflexivity.
Qed.

(** The tick after [neck_and_neck], with Alice's connection closed: Bob wins
    and the report lists Bob only. *)
Lemma X10_game_over_report_witness :
  exists w wp,
    winner (broadcast (String.eqb "140230")
              (game_loop_body 30%Q under_both neck_and_neck)) = Some w /\
    dict_get w (players (game_loop_body 30%Q under_both neck_and_neck)) = Some wp /\
    SPRINT_WIN_SCORE <= Player.score wp /\
    keys (players (broadcast (String.eqb "140230")
                     (game_loop_body 30%Q under_both neck_and_neck))) = ["140231"].
Proof.
  destruct (X10_game_over_report 0%Q neck_and_neck 30%Q under_both
              (String.eqb "140230") all_open
              neck_and_neck_reachable intents_fit_neck_and_neck eq_refl eq_refl)
    as (w & wp & H1 & _ & H2 & H3 & _).
  exists w, wp. repeat split; assumption || reflexivity.
Defined.

(** * Properties of the protocol and of the client *)

(** ** Snapshots survive the wire *)

Lemma decode_ints_ints l : decode_ints (map JInt l) = Some l.
Proof. induction l as [|n l IH]; simpl; [reflexivity|now rewrite IH]. Qed.

Lemma decode_player_to_dict p :
  decode_player (JDict (Player.to_dict p)) = Some (snapshot_of p).
Proof.
  unfold decode_player, Player.to_dict. simpl. now rewrite decode_ints_ints.
Qed.

Lemma decode_players_to_dict (ps : dict string Player.t) :
  decode_players (map (fun kv => JDict (Player.to_dict (snd kv))) ps) =
  Some (map (fun kv => snapshot_of (snd kv)) ps).
Proof.
  induction ps as [|kv ps IH]; [reflexivity|].
  cbn [map decode_players]. now rewrite decode_player_to_dict, IH.
Qed.

(** X12.  The welcome message the server builds for an accepted connection
    decodes on the client to the assigned id, the latency default of 200 ms
    and the snapshot of the player just stored; handling it makes that id
    the client's own, sets the latency shown to 200 and stores an entity
    with score 0 that is displayed exactly where the server put the
    player. *)
Theorem X12_welcome_reaches_the_client :
  forall player_id rx ry s c,
    let s' := fst (handle_client_accept player_id rx ry s) in
    let msg := snd (handle_client_accept player_id rx ry s) in
    let c' := Client.handle_server_message (decode_server_message msg) c in
    exists p e,
      In (player_id, p) (players s') /\
      decode_server_message msg = Some (SWelcome player_id 200 (snapshot_of p)) /\
      Client.my_player_id c' = Some player_id /\
      Client.simulated_latency c' = 200 /\
      In (player_id, e) (Client.players c') /\
      in_sync None (Player.with_score p 0) e /\
      InterpolatedEntity.id e = player_id /\
      Client.game_started c' = Client.game_started c.
Proof.
  intros pid rx ry s c. unfold handle_client_accept.
  destruct (player_count s =? 0); cbn [fst snd];
    (eexists; eexists; split; [apply In_dict_set|];
     split; [reflexivity|]; split; [reflexivity|]; split; [reflexivity|];
     split; [cbn; apply In_dict_set|];
     split; [repeat split|]; split; reflexivity).
Qed.

(** ** Keeping the client in step with the server *)

Lemma fold_upsert_spec snaps : forall ps,
  NoDup (map snap_id snaps) -> NoDup (keys ps) ->
  let m := fold_left Client.upsert snaps ps in
  NoDup (keys m) /\
  (forall k, In k (keys m) <-> In k (keys ps) \/ In k (map snap_id snaps)) /\
  (forall snap,
      In snap snaps ->
      dict_get (snap_id snap) m =
        Some (match dict_get (snap_id snap) ps with
              | Some e0 => Client.refresh_entity e0 snap
              | None => Client.new_entity snap (snap_score snap)
              end)) /\
  (forall k, ~ In k (map snap_id snaps) -> dict_get k m = dict_get k ps).
Proof.
  induction snaps as [|snap rest IH]; intros ps Hnds Hnd.
  - simpl. split; [assumption|]. split; [tauto|]. split; [tauto|reflexivity].
  - cbn [fold_left map] in *. inversion Hnds as [|? ? Hni Hnds']; subst.
    set (ps1 := Client.upsert ps snap).
    assert (H1 : NoDup (keys ps1) /\
                 (forall k, In k (keys ps1) <-> In k (keys ps) \/ k = snap_id snap) /\
                 dict_get (snap_id snap) ps1 =
                   Some (match dict_get (snap_id snap) ps with
                         | Some e0 => Client.refresh_entity e0 snap
                         | None => Client.new_entity snap (snap_score snap)
                         end) /\
                 (forall k, k <> snap_id snap -> dict_get k ps1 = dict_get k ps)).
    { subst ps1. unfold Client.upsert.
      destruct (dict_get (snap_id snap) ps) as [e0|] eqn:E.
      - split; [now apply NoDup_keys_dict_set|]. split.
        + intros k. rewrite (keys_dict_set_present _ e0) by assumption.
          split; [tauto|]. intros [H | ->]; [assumption|].
          apply dict_get_In in E. change (snap_id snap) with (fst (snap_id snap, e0)).
          now apply in_map.
        + split; [now apply dict_get_set_same|].
          intros k Hk. now apply dict_get_set_other.
      - split; [now apply NoDup_keys_dict_set|]. split.
        + intros k. apply dict_get_None in E.
          rewrite (keys_dict_set_new _ _ _ E). unfold keys. rewrite map_app, in_app_iff.
          simpl. intuition.
        + split; [now apply dict_get_set_same|].
          intros k Hk. now apply dict_get_set_other. }
    destruct H1 as (Hnd1 & Hk1 & Hg1 & Ho1).
    destruct (IH ps1 Hnds' Hnd1) as (I1 & I2 & I3 & I4). cbv zeta.
    split; [assumption|]. split; [|split].
    + intros k. rewrite I2, Hk1. simpl. intuition.
    + intros sn [<-|Hin].
      * rewrite I4 by assumption. exact Hg1.
      * rewrite (I3 sn Hin). rewrite Ho1; [reflexivity|].
        intros Heq. apply Hni. rewrite <- Heq. now apply in_map.
    + intros k Hk. simpl in Hk. rewrite I4 by tauto. apply Ho1. intros ->. tauto.
Qed.

Lemma fold_del_spec (l : list string) : forall (m : dict string InterpolatedEntity.t),
  NoDup (keys m) ->
  let kept := fold_left (fun ps k => dict_del k ps) l m in
  NoDup (keys kept) /\
  forall k, dict_get k kept = if existsb (String.eqb k) l then None else dict_get k m.
Proof.
  induction l as [|a l IH]; intros m Hnd.
  - simpl. split; [assumption|reflexivity].
  - cbn [fold_left].
    destruct (IH (dict_del a m) (NoDup_keys_dict_del a m Hnd)) as [I1 I2].
    cbv zeta. split; [assumption|]. intros k. rewrite I2. simpl.
    destruct (k =? a)%string eqn:E; simpl.
    + apply String.eqb_eq in E. subst a.
      destruct (existsb (String.eqb k) l); [reflexivity|now apply dict_get_del_same].
    + apply String.eqb_neq in E.
      destruct (existsb (String.eqb k) l); [reflexivity|now apply dict_get_del_other].
Qed.

Lemma existsb_eqb_In k (l : list string) : existsb (String.eqb k) l = true <-> In k l.
Proof.
  rewrite existsb_exists. split.
  - intros [a [Hin Ha]]. apply String.eqb_eq in Ha. now subst.
  - intros Hin. exists k. split; [assumption|apply String.eqb_refl].
Qed.

Lemma update_game_state_players snaps coin_list started mode c :
  NoDup (map snap_id snaps) -> NoDup (keys (Client.players c)) ->
  let c' := Client.update_game_state snaps coin_list started mode c in
  NoDup (keys (Client.players c')) /\
  (forall snap,
      In snap snaps ->
      dict_get (snap_id snap) (Client.players c') =
        Some (match dict_get (snap_id snap) (Client.players c) with
              | Some e0 => Client.refresh_entity e0 snap
              | None => Client.new_entity snap (snap_score snap)
              end)) /\
  (forall k, ~ In k (map snap_id snaps) -> dict_get k (Client.players c') = None).
Proof.
  intros Hnds Hnd c'. subst c'. unfold Client.update_game_state. cbn [Client.players].
  destruct (fold_upsert_spec snaps (Client.players c) Hnds Hnd) as (M1 & M2 & M3 & M4).
  cbv zeta in M1, M2, M3, M4.
  set (m := fold_left Client.upsert snaps (Client.players c)) in *.
  set (gone_ids := filter (fun k => negb (existsb (String.eqb k) (map snap_id snaps)))
                     (map fst m)).
  destruct (fold_del_spec gone_ids m M1) as [K1 K2]. cbv zeta in K1, K2.
  split; [assumption|]. split.
  - intros snap Hin. rewrite K2.
    destruct (existsb (String.eqb (snap_id snap)) gone_ids) eqn:E.
    + apply existsb_eqb_In in E. apply filter_In in E. destruct E as [_ E].
      apply negb_true_iff in E.
      assert (Ht : existsb (String.eqb (snap_id snap)) (map snap_id snaps) = true)
        by (apply existsb_eqb_In; now apply in_map).
      congruence.
    + now apply M3.
  - intros k Hk. rewrite K2.
    destruct (existsb (String.eqb k) gone_ids) eqn:E; [reflexivity|].
    apply dict_get_None. intros Hin.
    assert (Ht : existsb (String.eqb k) gone_ids = true).
    { apply existsb_eqb_In. apply filter_In. split; [exact Hin|].
      apply negb_true_iff.
      destruct (existsb (String.eqb k) (map snap_id snaps)) eqn:E2; [|reflexivity].
      apply existsb_eqb_In in E2. contradiction. }
    congruence.
Qed.

Lemma broadcast_state_cases s :
  (players s = [] -> broadcast_state s = None) /\
  (players s <> [] -> broadcast_state s = Some (state_update_message s)).
Proof.
  unfold broadcast_state. destruct (players s); split; congruence.
Qed.

(** X13.  [broadcast_state] sends nothing to an empty session and the
    [state_update] message otherwise.  That message, for a reachable server
    state, decodes on the client to the snapshots of the server's players,
    its coins and its flags.  After handling it, the client tracks exactly
    the players of
    the server; for each of them the target position, score, name and
    colour are the server's, the display position is the one the client had
    for a player it already knew and the server position for a new one;
    and the client's coins, started flag and mode are the server's. *)
Theorem X13_state_update_synchronises t0 s c :
  reachable t0 s ->
  NoDup (keys (Client.players c)) ->
  let msg := state_update_message s in
  let c' := Client.handle_server_message (decode_server_message msg) c in
  (players s = [] -> broadcast_state s = None) /\
  (players s <> [] -> broadcast_state s = Some msg) /\
  decode_server_message msg =
    Some (SStateUpdate (map (fun kv => snapshot_of (snd kv)) (players s))
            (map (fun kv => JDict (Coin.to_dict (snd kv))) (coins s))
            (game_started s) (game_mode s)) /\
  NoDup (keys (Client.players c')) /\
  (forall k, dict_mem k (Client.players c') = dict_mem k (players s)) /\
  (forall k p,
      dict_get k (players s) = Some p ->
      exists e,
        dict_get k (Client.players c') = Some e /\
        in_sync (dict_get k (Client.players c)) p e) /\
  Client.coins c' = map (fun kv => JDict (Coin.to_dict (snd kv))) (coins s) /\
  Client.game_started c' = game_started s /\
  Client.game_mode c' = Some (game_mode s).
Proof.
  intros Hr Hndc msg c'.
  pose proof (reachable_invariant t0 s Hr) as Hi.
  pose proof (reachable_roster_ok t0 s Hr) as [Hb _ _].
  assert (Hndp : NoDup (keys (players s))) by now destruct Hi.
  assert (Hdec : decode_server_message msg =
                 Some (SStateUpdate (map (fun kv => snapshot_of (snd kv)) (players s))
                         (map (fun kv => JDict (Coin.to_dict (snd kv))) (coins s))
                         (game_started s) (game_mode s))).
  { subst msg. unfold decode_server_message, state_update_message.
    cbn [dict_get keyb EqKey_string String.eqb Ascii.eqb Bool.eqb].
    now rewrite decode_players_to_dict. }
  assert (Hids : map snap_id (map (fun kv => snapshot_of (snd kv)) (players s))
                 = keys (players s)).
  { unfold badges in Hb. rewrite map_map. unfold keys.
    apply map_ext_in. intros kv Hin. rewrite Forall_forall in Hb.
    specialize (Hb (badge kv) (in_map badge _ _ Hin)).
    destruct kv as [k p]. simpl in *. tauto. }
  subst c'. rewrite Hdec. cbn [Client.handle_server_message].
  destruct (update_game_state_players
              (map (fun kv => snapshot_of (snd kv)) (players s))
              (map (fun kv => JDict (Coin.to_dict (snd kv))) (coins s))
              (game_started s) (game_mode s) c) as (U1 & U2 & U3).
  { now rewrite Hids. }
  { assumption. }
  cbv zeta in U1, U2, U3. rewrite Hids in U3.
  assert (Hfound : forall k p, dict_get k (players s) = Some p ->
             dict_get k (Client.players
                           (Client.update_game_state
                              (map (fun kv => snapshot_of (snd kv)) (players s))
                              (map (fun kv => JDict (Coin.to_dict (snd kv))) (coins s))
                              (game_started s) (game_mode s) c)) =
             Some (match dict_get k (Client.players c) with
                   | Some e0 => Client.refresh_entity e0 (snapshot_of p)
                   | None => Client.new_entity (snapshot_of p) (Player.score p)
                   end)).
  { intros k p Hg. apply dict_get_In in Hg.
    assert (Hid : Player.id p = k).
    { unfold badges in Hb. rewrite Forall_forall in Hb.
      specialize (Hb (badge (k, p)) (in_map badge _ _ Hg)). simpl in Hb. tauto. }
    specialize (U2 (snapshot_of p)
                  (in_map (fun kv => snapshot_of (snd kv)) _ (k, p) Hg)).
    simpl in U2. rewrite Hid in U2. exact U2. }
  split; [apply broadcast_state_cases|]. split; [apply broadcast_state_cases|].
  split; [reflexivity|]. split; [assumption|]. split; [|split].
  - intros k. unfold dict_mem at 2.
    destruct (dict_get k (players s)) as [p|] eqn:E.
    + unfold dict_mem. now rewrite (Hfound k p E).
    + apply dict_get_None in E. unfold dict_mem. now rewrite (U3 k E).
  - intros k p Hg. rewrite (Hfound k p Hg).
    destruct (dict_get k (Client.players c)) as [e0|]; eexists; split; try reflexivity;
      repeat split.
  - repeat split.
Qed.

Lemma X13_state_update_synchronises_witness :
  Client.game_mode
    (Client.handle_server_message
       (decode_server_message (state_update_message neck_and_neck)) Client.init)
  = Some "sprint".
Proof.
  apply (X13_state_update_synchronises 0%Q neck_and_neck Client.init
           neck_and_neck_reachable).
  constructor.
Defined.

(** ** The end of a game on the client *)

(** X14.  A [game_over] message of the server decodes on the client to the
    id of the server's winner and that player's name; handling it shows
    that winner and name, marks the game as not started and leaves the
    tracked players, with their final scores, as they are. *)
Theorem X14_game_over_reaches_the_client s msg :
  game_over_message s = Some msg ->
  exists w wp,
    winner s = Some w /\
    dict_get w (players s) = Some wp /\
    decode_server_message msg = Some (SGameOver w (Player.name wp)) /\
    forall c,
      let c' := Client.handle_server_message (decode_server_message msg) c in
      Client.winner c' = Some w /\
      Client.winner_name c' = Player.name wp /\
      Client.game_started c' = false /\
      Client.players c' = Client.players c /\
      Client.coins c' = Client.coins c.
Proof.
  unfold game_over_message. intros Hm.
  destruct (winner s) as [w|]; [|discriminate].
  destruct (dict_get w (players s)) as [wp|] eqn:E; [|discriminate].
  injection Hm as <-. exists w, wp.
  split; [reflexivity|]. split; [exact E|]. split; [reflexivity|].
  intros c. repeat split.
Qed.

Lemma X14_game_over_reaches_the_client_witness :
  exists w wp,
    winner (game_loop_body 30%Q under_both neck_and_neck) = Some w /\
    dict_get w (players (game_loop_body 30%Q under_both neck_and_neck)) = Some wp.
Proof.
  destruct (X14_game_over_reaches_the_client
              (game_loop_body 30%Q under_both neck_and_neck)
              [ ("type", JStr "game_over");
                ("winner", JStr "140231");
                ("winner_name", JStr "Bob");
                ("scores",
                 JDict [ ("140230", JDict [("name", JStr "Alice"); ("score", JInt 10)]);
                         ("140231", JDict [("name", JStr "Bob"); ("score", JInt 10)]) ]) ]
              eq_refl)
    as (w & wp & H1 & H2 & _).
  exists w, wp. split; assumption.
Defined.

(** ** Sending intents *)

Lemma intent_range k :
  -1 <= fst (Client.intent k) <= 1 /\ -1 <= snd (Client.intent k) <= 1.
Proof.
  unfold Client.intent.
  destruct (Client.left k), (Client.right k), (Client.up k), (Client.down k);
    simpl; lia.
Qed.

Lemma send_input_cases c :
  (Client.send_input c = (c, None) /\
   (Client.connected c = false \/ Client.websocket c = false \/
    Client.intent (Client.keys c) = Client.last_input_sent c)) \/
  (Client.send_input c =
     (Client.with_last_input c (Client.intent (Client.keys c)),
      Some [ ("type", JStr "input");
             ("dx", JInt (fst (Client.intent (Client.keys c))));
             ("dy", JInt (snd (Client.intent (Client.keys c)))) ]) /\
   Client.connected c = true /\ Client.websocket c = true /\
   Client.intent (Client.keys c) <> Client.last_input_sent c).
Proof.
  unfold Client.send_input.
  destruct (Client.connected c); [|left; auto].
  destruct (Client.websocket c); [|left; auto].
  cbn [negb orb].
  destruct (Client.intent (Client.keys c)) as [dx dy].
  destruct (Client.last_input_sent c) as [lx ly]. cbn [fst snd].
  destruct (negb (dx =? lx) || negb (dy =? ly)) eqn:E.
  - right. split; [reflexivity|]. split; [reflexivity|]. split; [reflexivity|].
    apply orb_true_iff in E. rewrite !negb_true_iff, !Z.eqb_neq in E.
    intros [= -> ->]. destruct E; auto.
  - left. split; [reflexivity|]. right. right.
    apply orb_false_iff in E. rewrite !negb_false_iff, !Z.eqb_eq in E.
    destruct E as [-> ->]. reflexivity.
Qed.

(** X15.  The intent vector has both components in {-1, 0, 1}, and
    opposite keys held together cancel.  [send_input] sends a message
    exactly when the client is connected and the vector differs from the
    one sent last; the message carries the vector, which becomes the one
    sent last, and nothing else in the client changes; called again right
    away it sends nothing. *)
Theorem X15_send_input_on_change_only :
  forall c,
    let c' := fst (Client.send_input c) in
    let sent := snd (Client.send_input c) in
    (-1 <= fst (Client.intent (Client.keys c)) <= 1 /\
     -1 <= snd (Client.intent (Client.keys c)) <= 1) /\
    (Client.left (Client.keys c) = Client.right (Client.keys c) ->
       fst (Client.intent (Client.keys c)) = 0) /\
    (Client.up (Client.keys c) = Client.down (Client.keys c) ->
       snd (Client.intent (Client.keys c)) = 0) /\
    (sent <> None <->
       Client.connected c = true /\ Client.websocket c = true /\
       Client.intent (Client.keys c) <> Client.last_input_sent c) /\
    (sent <> None ->
       sent = Some [ ("type", JStr "input");
                     ("dx", JInt (fst (Client.intent (Client.keys c))));
                     ("dy", JInt (snd (Client.intent (Client.keys c)))) ] /\
       Client.last_input_sent c' = Client.intent (Client.keys c)) /\
    (sent = None -> c' = c) /\
    Client.with_last_input c' (Client.last_input_sent c) = c /\
    Client.send_input c' = (c', None).
Proof.
  intros c. split; [apply intent_range|]. split; [|split].
  - unfold Client.intent.
    destruct (Client.left (Client.keys c)), (Client.right (Client.keys c));
      simpl; intros H; try discriminate; reflexivity.
  - unfold Client.intent.
    destruct (Client.up (Client.keys c)), (Client.down (Client.keys c));
      simpl; intros H; try discriminate; reflexivity.
  - destruct (send_input_cases c) as [[Heq Hwhy]|(Heq & Hc & Hw & Hne)];
      rewrite Heq; cbn [fst snd].
    + split; [split|].
      * intros H. contradiction.
      * intros (Hc & Hw & Hne). destruct Hwhy as [H|[H|H]]; congruence.
      * split; [intros H; contradiction|]. split; [reflexivity|].
        split; [now destruct c|exact Heq].
    + split; [split|].
      * intros _. auto.
      * intros _. discriminate.
      * split; [intros _; split; reflexivity|]. split; [discriminate|].
        split; [now destruct c|].
        destruct (send_input_cases
                    (Client.with_last_input c (Client.intent (Client.keys c))))
          as [[Heq' _]|(_ & _ & _ & Hne')]; [exact Heq'|].
        exfalso. apply Hne'. reflexivity.
Qed.

(** X16.  What the client sends, the server understands: an [input]
    message of [send_input] decodes on the server to the client's intent
    vector, whose components are in {-1, 0, 1}, and a [start_game] message
    of [send_game_start] to a request for the mode given.  After the server
    handled the input of a connected player, that player's velocity is the
    intent vector, and its next step inside the arena moves it by at most
    [PLAYER_SPEED] = 5 on each axis. *)
Theorem X16_client_messages_reach_the_server c msg :
  snd (Client.send_input c) = Some msg ->
  let dx := fst (Client.intent (Client.keys c)) in
  let dy := snd (Client.intent (Client.keys c)) in
  decode_message msg = Some (MInput dx dy) /\
  (-1 <= dx <= 1 /\ -1 <= dy <= 1) /\
  (forall mode request,
      Client.send_game_start mode c = Some request ->
      decode_message request = Some (MStartGame (Some mode))) /\
  (forall s player_id p draws,
      dict_get player_id (players s) = Some p ->
      exists p',
        dict_get player_id (players (handle_message player_id (MInput dx dy) draws s))
          = Some p' /\
        Player.velocity_x p' = dx /\ Player.velocity_y p' = dy /\
        (in_arena p ->
           Z.abs (Player.x (fst (Player.update_position p')) - Player.x p) <= 5 /\
           Z.abs (Player.y (fst (Player.update_position p')) - Player.y p) <= 5)).
Proof.
  intros Hsent dx dy. pose proof (intent_range (Client.keys c)) as Hrange.
  fold dx dy in Hrange.
  split; [|split; [exact Hrange|split]].
  - unfold Client.send_input in Hsent.
    destruct (negb (Client.connected c) || negb (Client.websocket c)); [discriminate|].
    subst dx dy. destruct (Client.intent (Client.keys c)) as [ix iy].
    destruct (negb (ix =? fst (Client.last_input_sent c))
              || negb (iy =? snd (Client.last_input_sent c))); [|discriminate].
    injection Hsent as <-. reflexivity.
  - intros mode request. unfold Client.send_game_start.
    destruct (negb (Client.connected c) || negb (Client.websocket c)); [discriminate|].
    intros [= <-]. reflexivity.
  - intros s pid p draws Hg. exists (Player.with_velocity p dx dy).
    cbn [handle_message]. rewrite Hg. cbn [players with_players].
    split; [now apply (dict_get_set_present _ p)|].
    split; [reflexivity|]. split; [reflexivity|].
    unfold in_arena, Player.update_position, PLAYER_SIZE, SCREEN_WIDTH, SCREEN_HEIGHT,
      PLAYER_SPEED.
    change (30 / 2) with 15. simpl. lia.
Qed.

Lemma X16_client_messages_reach_the_server_witness :
  decode_message [ ("type", JStr "input"); ("dx", JInt (-1)); ("dy", JInt 1) ]
  = Some (MInput (-1) 1).
Proof.
  apply (X16_client_messages_reach_the_server
           (Client.mk true true true (Some "140230") [] [] (Some "sprint") None ""
              (Client.mkKeys true false false true) (0, 0) 200 true)
           [ ("type", JStr "input"); ("dx", JInt (-1)); ("dy", JInt 1) ]).
  reflexivity.
Defined.

(** ** Keyboard events *)

Lemma handle_event_spec ev c :
  let c1 := fst (Client.handle_event ev c) in
  Client.with_keys (Client.with_running c1 (Client.running c)) (Client.keys c) = c /\
  Client.running c1 = Client.running c && negb (quits ev) /\
  match snd (Client.handle_event ev c) with Some m => [m] | None => [] end =
    (if Client.game_started c then [] else request_of ev) /\
  (forall d,
      held d (Client.keys c1) =
      match says d ev with Some b => b | None => held d (Client.keys c) end).
Proof.
  destruct c as [run conn st me ps cs gm w wn ks li lat ws].
  destruct ev as [|k|k|]; [|destruct k|destruct k|]; cbn;
    try (destruct st; cbn);
    (split; [reflexivity|]);
    (split; [now destruct run|]);
    (split; [reflexivity|]);
    intros []; reflexivity.
Qed.

(** X17.  The events of a frame change nothing but the key state and the
    running flag.  The client keeps running exactly when it was running and
    no event closed the window or pressed escape.  While the client knows
    of no running game, each press of key 1 requests a [sprint] and each
    press of key 2 an [endless] game, in the order of the presses; once it
    knows of one, nothing is requested.  A direction is held after the
    frame exactly when the last event about it was a press of its arrow key
    or of its letter, or when no event was about it and it was held
    before. *)
Theorem X17_keyboard_events :
  forall evs c,
    let c' := fst (Client.handle_events evs c) in
    let requests := snd (Client.handle_events evs c) in
    Client.with_keys (Client.with_running c' (Client.running c)) (Client.keys c) = c /\
    Client.running c' = Client.running c && negb (existsb quits evs) /\
    requests = (if Client.game_started c then [] else flat_map request_of evs) /\
    (forall d,
        held d (Client.keys c') =
        match last_word d evs with Some b => b | None => held d (Client.keys c) end).
Proof.
  induction evs as [|ev rest IH]; intros c.
  - cbn. split; [now destruct c|]. split; [now destruct (Client.running c)|].
    split; [now destruct (Client.game_started c)|]. reflexivity.
  - cbn [Client.handle_events].
    pose proof (handle_event_spec ev c) as Hev. cbv zeta in Hev.
    destruct (Client.handle_event ev c) as [c1 req]. cbn [fst snd] in Hev.
    specialize (IH c1). cbv zeta in IH.
    destruct (Client.handle_events rest c1) as [c2 reqs]. cbn [fst snd] in *.
    destruct Hev as (E1 & E2 & E3 & E4). destruct IH as (I1 & I2 & I3 & I4).
    assert (Hst : Client.game_started c1 = Client.game_started c)
      by exact (f_equal Client.game_started E1).
    split; [|split; [|split]].
    + clear - E1 I1. destruct c, c1, c2.
      unfold Client.with_keys, Client.with_running in *. cbn in *. congruence.
    + rewrite I2, E2. cbn [existsb]. rewrite negb_orb. symmetry. apply andb_assoc.
    + rewrite Hst in I3. cbn [flat_map].
      destruct (Client.game_started c).
      * subst reqs. now destruct req.
      * subst reqs. rewrite <- E3. now destruct req.
    + intros d. rewrite (I4 d). cbn [last_word].
      destruct (last_word d rest); [reflexivity|]. apply E4.
Qed.

Lemma X15_send_input_on_change_only_witness :
  fst (Client.intent (Client.mkKeys true true false true)) = 0.
Proof.
  apply (X15_send_input_on_change_only
           (Client.mk true true true (Some "140230") [] [] (Some "sprint") None ""
              (Client.mkKeys true true false true) (0, 0) 200 true)).
  reflexivity.
Defined.

(** A frame in the lobby: [a] pressed and released, both game keys, then
    the window closed. *)
Lemma X17_keyboard_events_witness :
  snd (Client.handle_events
         [Client.KEYDOWN Client.K_a; Client.KEYDOWN Client.K_1; Client.KEYUP Client.K_LEFT;
          Client.KEYDOWN Client.K_2; Client.QUIT]
         (Client.mk true true false (Some "140230") [] [] None None ""
            (Client.mkKeys false false false false) (0, 0) 200 true))
  = ["sprint"; "endless"].
Proof.
  apply (X17_keyboard_events
           [Client.KEYDOWN Client.K_a; Client.KEYDOWN Client.K_1; Client.KEYUP Client.K_LEFT;
            Client.KEYDOWN Client.K_2; Client.QUIT]
           (Client.mk true true false (Some "140230") [] [] None None ""
              (Client.mkKeys false false false false) (0, 0) 200 true)).
Defined.

(** * Further properties of the session *)

(** ** A slot that is never freed *)

(** X19.  When [broadcast] drops a connected player and the [finally]
    block of that connection runs afterwards, the player is gone but
    [player_count] is what it was; the count then exceeds the number of
    players, and whoever joins next is named Bob, even into a session that
    has become empty. *)
Theorem X19_dropped_player_keeps_its_slot t0 s player_id p :
  reachable t0 s ->
  dict_get player_id (players s) = Some p ->
  let s2 := handle_client_finally player_id (broadcast_drop player_id s) in
  dict_get player_id (players s2) = None /\
  len (players s2) = len (players s) - 1 /\
  player_count s2 = player_count s /\
  len (players s2) < player_count s2 /\
  (forall joiner rx ry,
      In (joiner, Player.init joiner "Bob" [100; 100; 255] rx ry)
         (players (fst (handle_client_accept joiner rx ry s2)))).
Proof.
  intros Hr Hg s2.
  pose proof (reachable_invariant t0 s Hr) as Hi.
  pose proof (reachable_roster_ok t0 s Hr) as [_ Hc _].
  assert (Hnd : NoDup (keys (players s))) by now destruct Hi.
  pose proof (dict_get_del_same player_id (players s) Hnd) as Hnone.
  assert (Hs2 : s2 = with_players s (dict_del player_id (players s))).
  { subst s2. unfold handle_client_finally, broadcast_drop, dict_mem.
    rewrite Hg. cbn [players with_players]. now rewrite Hnone. }
  rewrite Hs2. cbn [players with_players player_count].
  pose proof (length_dict_del _ _ _ Hg) as Hl.
  assert (Hlen : len (dict_del player_id (players s)) = len (players s) - 1)
    by (unfold len; lia).
  split; [assumption|]. split; [assumption|]. split; [reflexivity|].
  split; [lia|].
  intros joiner rx ry. unfold handle_client_accept. cbn [player_count with_players].
  destruct (player_count s =? 0) eqn:E.
  - apply Z.eqb_eq in E. unfold len in *. lia.
  - cbn. apply In_dict_set.
Qed.

Lemma X19_dropped_player_keeps_its_slot_witness :
  players (handle_client_finally "140230" (broadcast_drop "140230" lobby_of_one)) = [] /\
  player_count (handle_client_finally "140230" (broadcast_drop "140230" lobby_of_one)) = 1.
Proof.
  assert (Hr : reachable 0%Q lobby_of_one).
  { apply (reach_step 0%Q (init_server 0%Q) (Connect "140230" 30 370) lobby_of_one);
      [apply reach_init|reflexivity|reflexivity]. }
  split; [reflexivity|].
  apply (X19_dropped_player_keeps_its_slot 0%Q lobby_of_one "140230"
           (Player.mk "140230" "Alice" 30 370 0 [255; 100; 100] 0 0) Hr eq_refl).
Defined.

(** ** Scores *)

Lemma scores_ok_same_players s s' :
  players s' = players s -> game_started s' = game_started s ->
  scores_ok s -> scores_ok s'.
Proof. intros Hp Hs [H1 H2]. constructor; rewrite Hp; [|rewrite Hs]; assumption. Qed.

Lemma scores_ok_del s k :
  scores_ok s -> scores_ok (with_players s (dict_del k (players s))).
Proof.
  intros [H1 H2]. constructor; simpl.
  - now apply Forall_dict_del.
  - intros Hst. apply Forall_dict_del. now apply H2.
Qed.

Lemma scores_nonneg_check_collisions s :
  Forall (fun kv => 0 <= Player.score (snd kv)) (players s) ->
  Forall (fun kv => 0 <= Player.score (snd kv)) (players (check_collisions s)).
Proof.
  apply (check_collisions_ind
           (fun s' => Forall (fun kv => 0 <= Player.score (snd kv)) (players s'))).
  - intros s0 pid p H0 Hin. simpl. apply Forall_dict_set; [|assumption].
    rewrite Forall_forall in H0. specialize (H0 _ Hin). simpl in *. lia.
  - intros s0 pid p H0 _ _ _. exact H0.
  - intros s0 cid H0. exact H0.
Qed.

Lemma scores_ok_step s e s' :
  scores_ok s -> step s e = Some s' -> scores_ok s'.
Proof.
  intros Hs. destruct e as [pid rx ry|pid|pid|pid m draws|now draws cs co]; simpl.
  - intros [= <-]. destruct Hs as [H1 H2]. unfold handle_client_accept.
    destruct (player_count s =? 0); constructor; simpl;
      try (apply Forall_dict_set; [simpl; lia|assumption]);
      intros Hst; (apply Forall_dict_set; [reflexivity|now apply H2]).
  - intros [= <-]. unfold handle_client_finally.
    destruct (dict_mem pid (players s)); [|assumption].
    destruct (scores_ok_del s pid Hs) as [H1 H2]. constructor; assumption.
  - intros [= <-]. unfold broadcast_drop.
    destruct (dict_mem pid (players s)); [|assumption]. now apply scores_ok_del.
  - intros [= <-]. destruct m as [|dx dy|mode|]; simpl; try assumption.
    + destruct (dict_get pid (players s)) as [p|] eqn:E; [|assumption].
      apply dict_get_In in E. destruct Hs as [H1 H2]. constructor; simpl.
      * apply Forall_dict_set; [|assumption].
        rewrite Forall_forall in H1. apply (H1 _ E).
      * intros Hst. apply Forall_dict_set; [|now apply H2].
        specialize (H2 Hst). rewrite Forall_forall in H2. apply (H2 _ E).
    + destruct (negb (game_started s) && (2 <=? len (players s))); [|assumption].
      unfold start_game.
      destruct (spawn_coins_frame draws
                  (with_winner (with_started
                     (with_mode s match mode with Some m => m | None => "endless" end)
                     true) None)) as (Hp & Hst & _).
      destruct Hs as [H1 _]. constructor.
      * rewrite Hp. exact H1.
      * rewrite Hst. discriminate.
  - unfold game_loop_tick. destruct (game_started s) eqn:Hst; simpl; [|now intros [= <-]].
    assert (Hbody : scores_ok (game_loop_body now draws s)).
    { unfold game_loop_body.
      destruct (spawn_phase_frame now draws (check_collisions (update_players s)))
        as (Hp & _ & _ & Hs').
      constructor.
      - rewrite Hp. apply scores_nonneg_check_collisions.
        destruct Hs as [H1 _]. unfold update_players. simpl.
        apply Forall_forall. intros kv Hin. apply in_map_iff in Hin.
        destruct Hin as [kv' [<- Hin]]. simpl.
        rewrite Forall_forall in H1. apply (H1 _ Hin).
      - rewrite Hs', check_collisions_started. simpl. rewrite Hst. discriminate. }
    assert (Hb1 : scores_ok (broadcast cs (game_loop_body now draws s))).
    { apply broadcast_ind; [|assumption]. intros s0 k H0 _. now apply scores_ok_del. }
    intros Hgo. apply game_over_check_cases in Hgo.
    destruct Hgo as [[_ ->]|(w & wp & _ & _ & _ & ->)]; [assumption|].
    constructor; simpl.
    + apply Forall_forall. intros kv Hin. apply in_map_iff in Hin.
      destruct Hin as [kv' [<- _]]. simpl. lia.
    + intros _. apply Forall_forall. intros kv Hin. apply in_map_iff in Hin.
      destruct Hin as [kv' [<- _]]. reflexivity.
Qed.

Lemma reachable_scores_ok t0 s : reachable t0 s -> scores_ok s.
Proof.
  induction 1 as [|s e s' Hr IH Hok Hstep].
  - constructor; simpl; [constructor|intros _; constructor].
  - eapply scores_ok_step; eauto.
Qed.

(** X20.  In every reachable state no score is negative, and while no
    game is running every score is 0; so every game that [start_game]
    starts begins with all players at 0, although [start_game] itself does
    not touch the scores. *)
Theorem X20_scores_of_reachable_states t0 s :
  reachable t0 s ->
  (forall k p, dict_get k (players s) = Some p -> 0 <= Player.score p) /\
  (game_started s = false ->
     forall k p, dict_get k (players s) = Some p -> Player.score p = 0) /\
  (forall player_id mode draws k p,
      game_started s = false ->
      dict_get k (players (handle_message player_id (MStartGame mode) draws s)) = Some p ->
      Player.score p = 0).
Proof.
  intros Hr. destruct (reachable_scores_ok t0 s Hr) as [H1 H2].
  split; [|split].
  - intros k p Hg. apply dict_get_In in Hg. rewrite Forall_forall in H1. apply (H1 _ Hg).
  - intros Hst k p Hg. apply dict_get_In in Hg. specialize (H2 Hst).
    rewrite Forall_forall in H2. apply (H2 _ Hg).
  - intros pid mode draws k p Hst. cbn [handle_message].
    assert (Hp : players (if negb (game_started s) && (2 <=? len (players s))
                          then start_game match mode with Some m => m | None => "endless" end
                                 draws s
                          else s) = players s).
    { destruct (negb (game_started s) && (2 <=? len (players s))); [|reflexivity].
      unfold start_game.
      now destruct (spawn_coins_frame draws
                      (with_winner (with_started
                         (with_mode s match mode with Some m => m | None => "endless" end)
                         true) None)) as (-> & _). }
    rewrite Hp. intros Hg. apply dict_get_In in Hg. specialize (H2 Hst).
    rewrite Forall_forall in H2. apply (H2 _ Hg).
Qed.

Lemma X20_scores_of_reachable_states_witness :
  0 <= Player.score (Player.mk "140231" "Bob" 570 30 9 [100; 100; 255] 0 0).
Proof.
  apply (proj1 (X20_scores_of_reachable_states 0%Q neck_and_neck neck_and_neck_reachable)
           "140231").
  reflexivity.
Defined.
